(** * Conversation merge, context assembly and tool round trip

    A shallow embedding of the identity-resolution / merge engine
    (services/identification-service.js, models/conversation.js), the summary
    generator (services/summary-service.js), the context assembly and
    round-trip driver (services/message-processor.js,
    services/openai-service.js) and the tool executor
    (services/tools-executor.js), followed by the properties proved about
    them.

    Conventions of the embedding:
    - a JavaScript [Date] is the integer number of milliseconds since the
      epoch ([Z]); strings are Rocq strings, a character standing for the
      code unit of the same number, below 256 (the code only inspects ASCII
      digits, [+] and a few separators);
    - an [async] function is a computation in the state-and-exception monad
      [JS.M W]: it receives the world, may change it, and either resolves
      ([Ok]) or rejects ([Throw]); thrown values are [Error] objects;
    - everything outside the repository is an operation of a type class:
      [Runtime] for the pure runtime functions ([JSON.parse],
      [JSON.stringify], date formatting), [Env] for the document store, the
      model backend, the clock and the knowledge base; an in-memory instance
      of [Env] is given for the store;
    - logging calls have no effect on results and are left out. *)

From Stdlib Require Import ZArith String Ascii List Lia Permutation Sorted Bool.
From stdpp Require Import base option list gmap strings pretty.

Open Scope string_scope.
Open Scope list_scope.
Open Scope Z_scope.

(** ** The JavaScript runtime, as far as the services use it *)

Module JS.

(** An [Error] object: [error.message] and the optional [error.code]. *)
Record Error := mkError { message : string; code : option string }.

Definition TypeError (msg : string) : Error := mkError msg None.
Definition SyntaxError (msg : string) : Error := mkError msg None.

(** Outcome of a computation that may throw. *)
Inductive exn (A : Type) : Type :=
| Ok (a : A)
| Throw (e : Error).
Arguments Ok {A} a.
Arguments Throw {A} e.

(** An effectful (possibly asynchronous) computation over a world [W]. *)
Definition M (W A : Type) : Type := W -> exn A * W.

Definition ret {W A} (a : A) : M W A := fun w => (Ok a, w).

Definition throw {W A} (e : Error) : M W A := fun w => (Throw e, w).

Definition bind {W A B} (m : M W A) (k : A -> M W B) : M W B :=
  fun w => match m w with
           | (Ok a, w') => k a w'
           | (Throw e, w') => (Throw e, w')
           end.

(** [try { body } catch (error) { handler }]: effects made by [body] before
    it threw are kept. *)
Definition try_catch {W A} (body : M W A) (handler : Error -> M W A) : M W A :=
  fun w => match body w with
           | (Ok a, w') => (Ok a, w')
           | (Throw e, w') => handler e w'
           end.

(** Lifting of a pure computation that may throw. *)
Definition lift {W A} (r : exn A) : M W A := fun w => (r, w).

(** [await Promise.all(xs.map(async x => f x))]: every [f x] is started, in
    the order of [xs]; the model runs them one after the other.  A
    rejection of one element rejects the whole. *)
Fixpoint map_all {W A B} (f : A -> M W B) (xs : list A) : M W (list B) :=
  match xs with
  | [] => ret []
  | x :: rest =>
      bind (f x) (fun y => bind (map_all f rest) (fun ys => ret (y :: ys)))
  end.

(** [xs.slice(start)] on arrays. *)
Definition slice_from {A} (start : Z) (xs : list A) : list A :=
  let len := Z.of_nat (length xs) in
  let k := if start <? 0 then Z.max (len + start) 0 else Z.min start len in
  drop (Z.to_nat k) xs.

(** [xs.sort(cmp)]: the sort of the language is stable; it is modelled by
    a stable insertion sort.  [cmp a b <= 0] keeps [a] before [b]. *)
Fixpoint sort_insert {A} (cmp : A -> A -> Z) (a : A) (xs : list A) : list A :=
  match xs with
  | [] => [a]
  | x :: rest =>
      if cmp a x <=? 0 then a :: x :: rest
      else x :: sort_insert cmp a rest
  end.

Definition sort {A} (cmp : A -> A -> Z) (xs : list A) : list A :=
  foldr (sort_insert cmp) [] xs.

(** Strings. *)
Definition is_digit (c : ascii) : bool :=
  let n := nat_of_ascii c in (48 <=? n)%nat && (n <=? 57)%nat.

Fixpoint filter_chars (p : ascii -> bool) (s : string) : string :=
  match s with
  | EmptyString => EmptyString
  | String c rest =>
      if p c then String c (filter_chars p rest) else filter_chars p rest
  end.

Fixpoint all_chars (p : ascii -> bool) (s : string) : bool :=
  match s with
  | EmptyString => true
  | String c rest => p c && all_chars p rest
  end.

(** [s.startsWith(p)] *)
Definition startsWith (p s : string) : bool := String.prefix p s.

(** [s.substring(n)] for [0 <= n] *)
Definition substring_from (n : nat) (s : string) : string :=
  String.substring n (String.length s - n) s.

(** [s.slice(-n)] for [0 < n]: the last [n] characters, all of [s] when it
    is shorter *)
Definition slice_last (n : nat) (s : string) : string :=
  substring_from (String.length s - n) s.

(** [{ $regex: suffix + '$' }] on [s], for a [suffix] without
    metacharacters: [s] ends with [suffix] (every [s] does when [suffix] is
    empty). *)
Definition endsWith (suffix s : string) : bool :=
  (String.length suffix <=? String.length s)%nat
  && String.eqb (substring_from (String.length s - String.length suffix) s) suffix.

(** [s.replace(pat, '')] for a literal [pat]: the first occurrence only. *)
Fixpoint remove_first (pat s : string) : string :=
  if String.prefix pat s then substring_from (String.length pat) s
  else match s with
       | EmptyString => EmptyString
       | String c rest => String c (remove_first pat rest)
       end.

(** The double quote character, as a string. *)
Definition dquote : string := String (ascii_of_nat 34) EmptyString.

(** Truthiness of a string: [!!s]. *)
Definition truthy (s : string) : bool := negb (String.eqb s "").

(** [a || b] on strings. *)
Definition or_else (a b : string) : string := if truthy a then a else b.

(** Numbers as [parseInt] returns them. *)
Inductive number := NaN | Int (z : Z).

(** [n || d] for a number [n] and a non-zero default. *)
Definition number_or (n : number) (d : Z) : Z :=
  match n with
  | NaN => d
  | Int z => if z =? 0 then d else z
  end.

End JS.

Import JS.

Declare Scope js_scope.
Delimit Scope js_scope with js.
Notation "'let*' x ':=' m 'in' k" := (JS.bind m (fun x => k))
  (at level 10, x name, m at level 100, k at level 200) : js_scope.
Notation "'let*' ' p ':=' m 'in' k" := (JS.bind m (fun p => k))
  (at level 10, p strict pattern, m at level 100, k at level 200) : js_scope.

(** ** JSON values, as [JSON.parse] returns them *)

#[local] Set Warnings "-register-all".

Inductive json :=
| JNull
| JBool (b : bool)
| JNum (n : Z)
| JFrac (text : string)
| JStr (s : string)
| JArr (items : list json)
| JObj (fields : list (string * json)).

Module Json.

(** Truthiness of a parsed value ([JFrac] is a non-integer number, which
    is never zero). *)
Definition truthy (j : json) : bool :=
  match j with
  | JNull => false
  | JBool b => b
  | JNum n => negb (n =? 0)
  | JFrac _ => true
  | JStr s => JS.truthy s
  | JArr _ | JObj _ => true
  end.

(** [typeof j === 'object'] (true of [null], arrays and objects). *)
Definition typeof_object (j : json) : bool :=
  match j with
  | JNull | JArr _ | JObj _ => true
  | _ => false
  end.

Fixpoint assoc (k : string) (fields : list (string * json)) : option json :=
  match fields with
  | [] => None
  | (k', v) :: rest => if String.eqb k' k then Some v else assoc k rest
  end.

(** Truthiness of a possibly [undefined] value. *)
Definition truthy_opt (o : option json) : bool :=
  match o with
  | None => false
  | Some j => truthy j
  end.

(** The replacer [(key, value) => drop key ? undefined : value] applied
    through a value: dropped properties disappear from objects. *)
Fixpoint replace (drop : string -> bool) (j : json) : json :=
  match j with
  | JArr items => JArr (map (replace drop) items)
  | JObj fields =>
      JObj ((fix go (fs : list (string * json)) : list (string * json) :=
               match fs with
               | [] => []
               | (k, v) :: rest =>
                   if drop k then go rest else (k, replace drop v) :: go rest
               end) fields)
  | _ => j
  end.

End Json.

(** ** config/index.js *)

Module Config.

Record summary_config := {
  minMessageCount : number;
  maxLength : number;
  recentMessageCount : number;
  enabled : bool
}.

Record t := {
  maxHistoryMessages : number;
  summary : summary_config;
  model : string;
  summaryModel : string;
  mainSystemPrompt : string;
  tools : list json
}.

(** The configuration when no environment variable overrides a default. *)
Definition default (prompt : string) (toolSchemas : list json) : t := {|
  maxHistoryMessages := Int 10;
  summary := {| minMessageCount := Int 5; maxLength := Int 500;
                recentMessageCount := Int 20; enabled := true |};
  model := "gpt-4.1-nano-2025-04-14";
  summaryModel := "gpt-4o-mini-2024-07-18";
  mainSystemPrompt := prompt;
  tools := toolSchemas
|}.

End Config.

(** ** models/conversation.js

    The documents with the fields the services read or write; the
    [metadata] maps and the [identificationState] are not modelled. *)

Definition Date := Z.

Record Message := {
  msg_id : option string;
  msg_role : string;
  msg_content : string;
  msg_timestamp : Date;
  msg_channel : string
}.

Record Identifier := {
  id_type : string;
  id_value : string;
  id_addedAt : Date;
  id_verified : bool;
  id_verifiedAt : option Date;
  id_priority : Z
}.

Record UserInfo := {
  userId : option string;
  firstName : option string;
  lastName : option string;
  email : option string;
  phone : option string
}.

Record Summary := {
  sum_text : option string;
  sum_createdAt : Date;
  sum_lastMessageId : option string;
  sum_messageCount : Z;
  sum_modelUsed : option string
}.

Record Conversation := {
  conv_id : string;
  identifiers : list Identifier;
  userInfo : option UserInfo;
  lastUpdated : Date;
  lastActivity : Date;
  messages : list Message;
  previousResponseId : option string;
  channel : string;
  summary : option Summary
}.

Definition set_identifiers (ids : list Identifier) (c : Conversation) : Conversation :=
  {| conv_id := conv_id c; identifiers := ids; userInfo := userInfo c;
     lastUpdated := lastUpdated c; lastActivity := lastActivity c;
     messages := messages c; previousResponseId := previousResponseId c;
     channel := channel c; summary := summary c |}.

Definition set_messages (ms : list Message) (c : Conversation) : Conversation :=
  {| conv_id := conv_id c; identifiers := identifiers c; userInfo := userInfo c;
     lastUpdated := lastUpdated c; lastActivity := lastActivity c;
     messages := ms; previousResponseId := previousResponseId c;
     channel := channel c; summary := summary c |}.

Definition set_userInfo (u : option UserInfo) (c : Conversation) : Conversation :=
  {| conv_id := conv_id c; identifiers := identifiers c; userInfo := u;
     lastUpdated := lastUpdated c; lastActivity := lastActivity c;
     messages := messages c; previousResponseId := previousResponseId c;
     channel := channel c; summary := summary c |}.

Definition set_lastUpdated (d : Date) (c : Conversation) : Conversation :=
  {| conv_id := conv_id c; identifiers := identifiers c; userInfo := userInfo c;
     lastUpdated := d; lastActivity := lastActivity c;
     messages := messages c; previousResponseId := previousResponseId c;
     channel := channel c; summary := summary c |}.

Definition set_lastActivity (d : Date) (c : Conversation) : Conversation :=
  {| conv_id := conv_id c; identifiers := identifiers c; userInfo := userInfo c;
     lastUpdated := lastUpdated c; lastActivity := d;
     messages := messages c; previousResponseId := previousResponseId c;
     channel := channel c; summary := summary c |}.

Definition set_summary (s : option Summary) (c : Conversation) : Conversation :=
  {| conv_id := conv_id c; identifiers := identifiers c; userInfo := userInfo c;
     lastUpdated := lastUpdated c; lastActivity := lastActivity c;
     messages := messages c; previousResponseId := previousResponseId c;
     channel := channel c; summary := s |}.

Definition set_previousResponseId (r : option string) (c : Conversation) : Conversation :=
  {| conv_id := conv_id c; identifiers := identifiers c; userInfo := userInfo c;
     lastUpdated := lastUpdated c; lastActivity := lastActivity c;
     messages := messages c; previousResponseId := r;
     channel := channel c; summary := summary c |}.

(** The test [id.type === type && id.value === value]. *)
Definition same_pair (type value : string) (id : Identifier) : Prop :=
  id_type id = type /\ id_value id = value.

#[global] Instance same_pair_dec type value id : Decision (same_pair type value id).
Proof. unfold same_pair. apply _. Defined.

(** [identifiers.find(id => id.type === type && id.value === value)] *)
Definition find_identifier (type value : string) (ids : list Identifier)
  : option (nat * Identifier) :=
  list_find (same_pair type value) ids.

Definition with_priority (p : Z) (id : Identifier) : Identifier :=
  {| id_type := id_type id; id_value := id_value id; id_addedAt := id_addedAt id;
     id_verified := id_verified id; id_verifiedAt := id_verifiedAt id;
     id_priority := p |}.

Definition with_verified (now : Date) (id : Identifier) : Identifier :=
  {| id_type := id_type id; id_value := id_value id; id_addedAt := id_addedAt id;
     id_verified := true; id_verifiedAt := Some now;
     id_priority := id_priority id |}.

(** [conversationSchema.methods.addIdentifier]; [now] is the value of
    [new Date()] during the call.  The existing identifier is updated in
    place, at the index where [find] met it. *)
Definition addIdentifier (now : Date) (type value : string) (priority : Z)
    (verified : bool) (c : Conversation) : Conversation :=
  match find_identifier type value (identifiers c) with
  | Some (i, existingIdentifier) =>
      let e1 := if priority >? id_priority existingIdentifier
                then with_priority priority existingIdentifier
                else existingIdentifier in
      let e2 := if verified && negb (id_verified e1)
                then with_verified now e1
                else e1 in
      set_lastUpdated now (set_identifiers (<[i := e2]> (identifiers c)) c)
  | None =>
      let newIdentifier :=
        {| id_type := type; id_value := value; id_addedAt := now;
           id_verified := verified;
           id_verifiedAt := if verified then Some now else None;
           id_priority := priority |} in
      set_lastUpdated now (set_identifiers (identifiers c ++ [newIdentifier]) c)
  end.

(** One call of [addIdentifier], as data. *)
Record AddIdentifierCall := {
  call_now : Date;
  call_type : string;
  call_value : string;
  call_priority : Z;
  call_verified : bool
}.

Definition apply_call (c : Conversation) (k : AddIdentifierCall) : Conversation :=
  addIdentifier (call_now k) (call_type k) (call_value k) (call_priority k)
    (call_verified k) c.

(** [conversationSchema.methods.getRecentMessages] *)
Definition getRecentMessages (limit : Z) (c : Conversation) : list Message :=
  slice_from (- limit) (messages c).

(** The [(type, value)] pairs of an identifier list, in order. *)
Definition pairs (ids : list Identifier) : list (string * string) :=
  map (fun id => (id_type id, id_value id)) ids.

(** ** The model backend: requests and responses of [openai.responses.create] *)

Inductive ContentItem :=
| OutputText (text : string)          (* type 'output_text' *)
| OtherContent (type : string).

(** [arguments] of a function call: a JSON string as the backend sends it,
    or an already parsed value, or missing. *)
Inductive Arguments :=
| ArgString (s : string)
| ArgValue (j : json)
| ArgUndefined.

Record FunctionCall := {
  fc_call_id : string;
  fc_name : string;
  fc_arguments : Arguments
}.

Inductive OutputItem :=
| MessageItem (content : list ContentItem)   (* type 'message' *)
| FunctionCallItem (fc : FunctionCall)       (* type 'function_call' *)
| OtherItem (type : string).

Inductive InputItem :=
| Turn (role : string) (content : json)
| FunctionCallRecord (call_id name : string) (arguments : Arguments)
| FunctionCallOutput (call_id : string) (name : option string) (output : string).

(** [{ role, content }] with a string content. *)
Definition turn (role content : string) : InputItem := Turn role (JStr content).

Record Request := {
  req_model : string;
  req_input : list InputItem;
  req_temperature : string;
  req_previous_response_id : option string;
  req_tools : option (list json)
}.

Record Response := {
  resp_id : option string;
  resp_output : option (list OutputItem);
  resp_input : option (list InputItem);
  resp_model : option string;
  resp_tools : option (list json)
}.

(** ** Queries sent to the Conversation collection *)

Inductive Query :=
  (** [{ identifiers: { $elemMatch: { type, value } } }] *)
| QIdentifier (type value : string)
  (** [{ _id: { $ne: exclude },
        identifiers: { $elemMatch: { type, value: { $regex: digits + '$' } } } }] *)
| QPhoneSuffix (exclude : string) (type : string) (matchDigits : string)
  (** [{ $or: [ for every variation, an $elemMatch on type 'whatsapp_phone'
        and one on type 'phone' ], _id: { $ne: exclude } }] *)
| QPhoneVariations (variations : list string) (exclude : option string).

Definition has_identifier (p : Identifier -> bool) (c : Conversation) : bool :=
  existsb p (identifiers c).

(** Which conversations a query selects. *)
Definition Query_matches (q : Query) (c : Conversation) : bool :=
  match q with
  | QIdentifier type value =>
      has_identifier (fun id => String.eqb (id_type id) type
                                && String.eqb (id_value id) value) c
  | QPhoneSuffix exclude type matchDigits =>
      negb (String.eqb (conv_id c) exclude)
      && has_identifier (fun id => String.eqb (id_type id) type
                                   && endsWith matchDigits (id_value id)) c
  | QPhoneVariations variations exclude =>
      match exclude with
      | Some e => negb (String.eqb (conv_id c) e)
      | None => true
      end
      && existsb (fun variation =>
           has_identifier (fun id =>
             (String.eqb (id_type id) "whatsapp_phone"
              || String.eqb (id_type id) "phone")
             && String.eqb (id_value id) variation) c) variations
  end.

(** ** The environment of the services *)

(** Pure operations of the language runtime. *)
Class Runtime := {
  (** [JSON.parse] and [JSON.stringify] on serialisable values *)
  JSON_parse : string -> exn json;
  JSON_stringify : json -> string;
  (** [date.toLocaleString('en-GB', { timeZone, ... })]: throws on an
      unknown time zone *)
  Date_toLocaleString : Date -> string -> exn string;
  Date_toISOString : Date -> string;
  Date_toUTCString : Date -> string;
  Date_toLocaleDateString : Date -> string
}.

Class Env (W : Type) := {
  config : Config.t;
  (** mongoose model [Conversation] *)
  Conversation_findById : string -> M W (option Conversation);
  Conversation_findOne : Query -> M W (option Conversation);
  Conversation_find : Query -> M W (list Conversation);
  Conversation_save : Conversation -> M W unit;
  Conversation_deleteMany : list string -> M W unit;
  Conversation_findByIdAndUpdate : string -> (Conversation -> Conversation) -> M W unit;
  (** the [_id] a new document receives *)
  ObjectId_new : M W string;
  (** [new Date()] / [Date.now()]: reading the clock never throws *)
  clock_read : W -> Date * W;
  (** [openai.responses.create] *)
  responses_create : Request -> M W Response;
  (** [openaiService.getOpenAIClient], a method the summary service probes
      for: [None] when the method is not defined (services/openai-service.js
      defines none), [Some None] when it returns no client,
      [Some (Some create)] for a client whose [responses.create] is
      [create]. *)
  getOpenAIClient : option (option (Request -> M W Response));
  (** services/knowledge-service.js: [search(query, limit)] and
      [formatKnowledgeContext(items)] *)
  knowledgeService_search : json -> json -> M W (list json);
  knowledgeService_formatKnowledgeContext : list json -> exn string
}.

(** [new Date()] as a computation. *)
Definition Date_now {W : Type} {E : Env W} : M W Date :=
  fun w => let '(d, w') := clock_read w in (Ok d, w').

(** ** services/identification-service.js: phone numbers *)

(** [[...new Set(xs)]]: first occurrences, in insertion order. *)
Fixpoint Set_of (seen xs : list string) : list string :=
  match xs with
  | [] => []
  | x :: rest =>
      if existsb (String.eqb x) seen then Set_of seen rest
      else x :: Set_of (seen ++ [x]) rest
  end.

Definition is_digit_or_plus (c : ascii) : bool :=
  is_digit c || Ascii.eqb c "+"%char.

Definition normalizePhoneNumber (phone : string) : string :=
  if negb (truthy phone) then ""
  else
    let cleaned := filter_chars is_digit_or_plus phone in
    if startsWith "+" cleaned then cleaned else cleaned.

Definition generatePhoneVariations (phone : string) : list string :=
  let variations := [phone] in
  let cleaned := filter_chars is_digit phone in
  let variations :=
    if negb (String.eqb cleaned phone) then variations ++ [cleaned]
    else variations in
  let variations :=
    if negb (startsWith "+" phone) then
      let variations :=
        if startsWith "0" cleaned && (String.length cleaned =? 11)%nat
        then variations ++ ["+44" +:+ substring_from 1 cleaned]
        else variations in
      if (String.length cleaned =? 10)%nat
      then variations ++ ["+1" +:+ cleaned]
      else variations
    else variations in
  let variations :=
    if startsWith "+44" phone && (3 <? String.length phone)%nat
    then variations ++ ["0" +:+ substring_from 3 phone]
    else variations in
  let variations :=
    if startsWith "+1" phone && (2 <? String.length phone)%nat
    then variations ++ [substring_from 2 phone]
    else variations in
  Set_of [] variations.

(** The key both channels match on: [value.replace(/\D/g, '').slice(-9)]. *)
Definition matchDigits (value : string) : string :=
  slice_last 9 (filter_chars is_digit value).

Record MergeResult := {
  mr_conversation : Conversation;
  mergedCount : nat;
  mergedMessages : nat
}.

(** [!!(u && u.userId)] *)
Definition has_userId (u : option UserInfo) : bool :=
  match u with
  | Some info => match userId info with
                 | Some s => truthy s
                 | None => false
                 end
  | None => false
  end.

(** One pass of [conversation.identifiers.forEach]: an identifier is pushed
    unless [allIdentifiers] already holds its [(type, value)] pair. *)
Definition add_unique_identifier (allIdentifiers : list Identifier)
    (identifier : Identifier) : list Identifier :=
  let exists_ :=
    existsb (fun id => String.eqb (id_type id) (id_type identifier)
                       && String.eqb (id_value id) (id_value identifier))
            allIdentifiers in
  if negb exists_ then allIdentifiers ++ [identifier] else allIdentifiers.

(** The locals of the merge loop. *)
Record MergeState := {
  allMessages : list Message;
  allIdentifiers : list Identifier;
  totalMergedMessages : nat;
  primaryUserInfo : option UserInfo
}.

(** The body of [for (const conversation of conversationsToMerge)]. *)
Definition merge_step (st : MergeState) (conversation : Conversation) : MergeState :=
  let '(msgs, total) :=
    if (0 <? length (messages conversation))%nat
    then (allMessages st ++ messages conversation,
          (totalMergedMessages st + length (messages conversation))%nat)
    else (allMessages st, totalMergedMessages st) in
  let ids :=
    if (0 <? length (identifiers conversation))%nat
    then foldl add_unique_identifier (allIdentifiers st) (identifiers conversation)
    else allIdentifiers st in
  let info :=
    if has_userId (userInfo conversation) && negb (has_userId (primaryUserInfo st))
    then userInfo conversation
    else primaryUserInfo st in
  {| allMessages := msgs; allIdentifiers := ids;
     totalMergedMessages := total; primaryUserInfo := info |}.

(** The comparator [(a, b) => new Date(a.timestamp) - new Date(b.timestamp)]. *)
Definition by_timestamp (a b : Message) : Z := msg_timestamp a - msg_timestamp b.

Section Services.

Context {W : Type} {E : Env W}.

Local Open Scope js_scope.

(** *** services/summary-service.js *)

Definition summary_prompt_head : string :=
  "
    Create a concise summary of this conversation between an AI assistant and a user. ".

Definition summary_prompt_tail : string :=
  "

    This conversation may contain messages from multiple channels (WhatsApp, website chat) that have been merged together based on phone number identification.

    Focus on:
    1. User identity and contact information (phone numbers, names mentioned)
    2. Specific topics, questions, or problems the user discussed
    3. Actual information, answers, or solutions provided by the AI
    4. Any services, products, or assistance the user was seeking
    5. Current status - what has been resolved and what may still be pending
    6. Important context about how the user contacted you (WhatsApp, website, phone number verification)

    Write the summary as if you are briefing another AI assistant who needs to continue this conversation seamlessly. Include specific details that would help maintain conversation continuity.

    Be specific rather than generic. Instead of "
    +:+ dquote +:+ "user asked questions"
    +:+ dquote +:+ " say "
    +:+ dquote +:+ "user asked about pricing for product X and delivery to London"
    +:+ dquote +:+ ".

    Keep under 500 words but prioritize actionable details over generic statements.
    ".

Definition createSummaryPrompt (conversation : Conversation) : string :=
  let userContext :=
    match userInfo conversation with
    | Some info =>
        let base := "This conversation is with a user named "
                    +:+ default "" (firstName info) +:+ " "
                    +:+ default "" (lastName info) +:+ "." in
        match userId info with
        | Some uid => if truthy uid
                      then base +:+ " Their User ID is " +:+ uid +:+ "."
                      else base
        | None => base
        end
    | None => ""
    end in
  summary_prompt_head +:+ userContext +:+ summary_prompt_tail.

Definition output_text (item : OutputItem) : string :=
  match item with
  | MessageItem content =>
      foldl (fun acc contentItem =>
               match contentItem with
               | OutputText text => acc +:+ text
               | OtherContent _ => acc
               end) "" content
  | _ => ""
  end.

(** The concatenation of every [output_text] of every message item. *)
Definition collect_text (output : list OutputItem) : string :=
  foldl (fun acc item => acc +:+ output_text item) "" output.

Definition extractSummaryText (response : Response) : option string :=
  match resp_output response with
  | None | Some [] => None
  | Some output =>
      let summaryText := collect_text output in
      if truthy summaryText then Some summaryText else None
  end.

Definition strip (msg : Message) : InputItem :=
  turn (msg_role msg) (msg_content msg).

Definition summary_request (conversation : Conversation) : Request :=
  {| req_model := or_else (Config.summaryModel config) (Config.model config);
     req_input :=
       [turn "system" (createSummaryPrompt conversation)]
       ++ map strip (messages conversation)
       ++ [turn "user" "Please create a comprehensive summary of this conversation following the guidelines in the system prompt."];
     req_temperature := "0.3";
     req_previous_response_id := None;
     req_tools := None |}.

Definition generateSummary (conversation : Conversation) : M W (option Summary) :=
  try_catch
    (let minMessageCount := number_or (Config.minMessageCount (Config.summary config)) 5 in
     if Z.of_nat (length (messages conversation)) <? minMessageCount then ret None
     else
       match getOpenAIClient with
       | None => ret None
       | Some client =>
           let model := or_else (Config.summaryModel config) (Config.model config) in
           match client with
           | None => ret None
           | Some create =>
               let* response := create (summary_request conversation) in
               match extractSummaryText response with
               | None => ret None
               | Some summaryText =>
                   match last (messages conversation) with
                   | None => ret None
                   | Some lastMessage =>
                       match msg_id lastMessage with
                       | None => ret None
                       | Some lastId =>
                           let* now := Date_now in
                           ret (Some {| sum_text := Some summaryText;
                                        sum_createdAt := now;
                                        sum_lastMessageId := Some lastId;
                                        sum_messageCount :=
                                          Z.of_nat (length (messages conversation));
                                        sum_modelUsed := Some model |})
                       end
                   end
               end
           end
       end)
    (fun error => ret None).

(** *** services/identification-service.js: mergeConversations *)

Definition mergeConversations (primaryConversationId : string)
    (conversationsToMerge : list Conversation) : M W MergeResult :=
  try_catch
    (let* found := Conversation_findById primaryConversationId in
     match found with
     | None =>
         throw (mkError ("Primary conversation " +:+ primaryConversationId
                         +:+ " not found") None)
     | Some primaryConversation =>
         let st :=
           foldl merge_step
             {| allMessages := messages primaryConversation;
                allIdentifiers := identifiers primaryConversation;
                totalMergedMessages := 0%nat;
                primaryUserInfo := userInfo primaryConversation |}
             conversationsToMerge in
         let sorted := JS.sort by_timestamp (allMessages st) in
         let* now := Date_now in
         let primaryConversation :=
           set_lastUpdated now
             (set_identifiers (allIdentifiers st)
                (set_messages sorted
                   (set_userInfo (primaryUserInfo st) primaryConversation))) in
         let* primaryConversation :=
           if Config.enabled (Config.summary config)
              && (number_or (Config.minMessageCount (Config.summary config)) 5
                  <=? Z.of_nat (length sorted))
           then
             try_catch
               (let* generatedSummary := generateSummary primaryConversation in
                match generatedSummary with
                | Some s => ret (set_summary (Some s) primaryConversation)
                | None => ret primaryConversation
                end)
               (fun summaryError => ret primaryConversation)
           else ret primaryConversation in
         let* _ := Conversation_save primaryConversation in
         let* _ := Conversation_deleteMany (map conv_id conversationsToMerge) in
         ret {| mr_conversation := primaryConversation;
                mergedCount := length conversationsToMerge;
                mergedMessages := totalMergedMessages st |}
     end)
    (fun error => throw error).

End Services.

(** ** services/openai-service.js and services/tools-executor.js *)

Module Text.

Definition newline : string := String (ascii_of_nat 10) EmptyString.

(** White space as [\s] and [trim] see it, among the characters below 256:
    tab, line feed, vertical tab, form feed, carriage return, space and the
    no-break space U+00A0. *)
Definition is_space (c : ascii) : bool :=
  let n := nat_of_ascii c in
  (n =? 32)%nat || ((9 <=? n)%nat && (n <=? 13)%nat) || (n =? 160)%nat.

Fixpoint trim_start (s : string) : string :=
  match s with
  | EmptyString => EmptyString
  | String c rest => if is_space c then trim_start rest else s
  end.

(** [s.trim()] *)
Definition trim (s : string) : string :=
  String.rev (trim_start (String.rev (trim_start s))).

(** Lower case of an ASCII letter, for case-insensitive matching. *)
Definition lower (c : ascii) : ascii :=
  let n := nat_of_ascii c in
  if (65 <=? n)%nat && (n <=? 90)%nat then ascii_of_nat (n + 32) else c.

Fixpoint prefix_ci (p s : string) : bool :=
  match p, s with
  | EmptyString, _ => true
  | String a p', String b s' => Ascii.eqb (lower a) (lower b) && prefix_ci p' s'
  | String _ _, EmptyString => false
  end.

(** [s.replace(/a1|a2|.../gi, '')]: at each position the first alternative
    that matches is removed; [fuel] bounds the scan by the length of [s]. *)
Fixpoint remove_all_ci (alternatives : list string) (fuel : nat) (s : string) : string :=
  match fuel with
  | O => s
  | S fuel' =>
      match s with
      | EmptyString => EmptyString
      | String c rest =>
          match List.find (fun a => truthy a && prefix_ci a s) alternatives with
          | Some a => remove_all_ci alternatives fuel' (substring_from (String.length a) s)
          | None => String c (remove_all_ci alternatives fuel' rest)
          end
      end
  end.

End Text.

Module JsonText.

(** [j.k] for a value [j] that is not [null] and a property name [k] that
    no built-in prototype defines: [undefined] ([None]) unless [j] is an
    object with that field. *)
Definition get (k : string) (j : json) : option json :=
  match j with
  | JObj fields => Json.assoc k fields
  | _ => None
  end.

(** The number value nearest to an integer: 53 significant bits, ties to
    even; [None] beyond the largest finite number value. *)
Definition to_number (n : Z) : option Z :=
  let a := Z.abs n in
  let bits := Z.log2 a + 1 in
  if bits <=? 53 then Some n
  else
    let shift := bits - 53 in
    let q := Z.shiftr a shift in
    let r := a - Z.shiftl q shift in
    let half := Z.shiftl 1 (shift - 1) in
    let q' := if (half <? r) || ((r =? half) && Z.odd q) then q + 1 else q in
    let m := Z.shiftl q' shift in
    if 2 ^ 1024 <=? m then None else Some (Z.sgn n * m).

Definition round_trips (x v : Z) : bool :=
  match to_number v with
  | Some y => y =? x
  | None => false
  end.

(** The decimal with the fewest significant digits that reads back as the
    positive number value [x]; of two, the nearer one, then the even one. *)
Fixpoint shortest_from (fuel : nat) (x len k : Z) : Z :=
  match fuel with
  | O => x
  | S fuel' =>
      let unit := 10 ^ (len - k) in
      let lo := (x / unit) * unit in
      let hi := lo + unit in
      match round_trips x lo, round_trips x hi with
      | true, true =>
          if x - lo <? hi - x then lo
          else if hi - x <? x - lo then hi
          else if Z.even (x / unit) then lo else hi
      | true, false => lo
      | false, true => hi
      | false, false => shortest_from fuel' x len (k + 1)
      end
  end.

Definition decimal_length (v : Z) : Z := Z.of_nat (String.length (pretty v)).

Definition shortest (x : Z) : Z := shortest_from 17 x (decimal_length x) 1.

Fixpoint strip_zeros (fuel : nat) (v : Z) : Z :=
  match fuel with
  | O => v
  | S fuel' => if v mod 10 =? 0 then strip_zeros fuel' (v / 10) else v
  end.

(** [String(x)] for a positive integer number value, given by its shortest
    decimal [v]: all its digits up to 21 of them, the exponent form beyond. *)
Definition positive_to_string (v : Z) : string :=
  if decimal_length v <=? 21 then pretty v
  else
    match pretty (strip_zeros 400 v) with
    | String first EmptyString =>
        String first EmptyString +:+ "e+" +:+ pretty (decimal_length v - 1)
    | String first rest =>
        String first EmptyString +:+ "." +:+ rest +:+ "e+"
          +:+ pretty (decimal_length v - 1)
    | EmptyString => ""
    end.

(** [String(x)] for the number an integer literal [n] denotes.  Up to
    [2 ^ 53] every integer is a number value and its own shortest decimal. *)
Definition number_to_string (n : Z) : string :=
  if Z.abs n <=? 2 ^ 53 then pretty n
  else
    match to_number n with
    | None => if n <? 0 then "-Infinity" else "Infinity"
    | Some x =>
        (if x <? 0 then "-" else "") +:+ positive_to_string (shortest (Z.abs x))
    end.

(** [String(j)], as template literals and [join] apply it. *)
Fixpoint toString (j : json) : string :=
  match j with
  | JNull => "null"
  | JBool true => "true"
  | JBool false => "false"
  | JNum n => number_to_string n
  | JFrac text => text
  | JStr s => s
  | JArr items =>
      String.concat ","
        (map (fun x => match x with JNull => "" | _ => toString x end) items)
  | JObj _ => "[object Object]"
  end.

(** [`${v}`] for a possibly [undefined] value. *)
Definition show (o : option json) : string :=
  match o with
  | None => "undefined"
  | Some j => toString j
  end.

End JsonText.

(** What a tool handler resolves to. *)
Inductive HandlerResult :=
| RString (s : string)          (* a string, passed on as it is *)
| RValue (j : json)             (* a value [JSON.stringify] serialises *)
| RUndefined                    (* [undefined]: nothing to serialise *)
| RUnserialisable (e : Error).  (* a value on which [JSON.stringify] throws [e] *)

(** The context object a tool call receives. *)
Record ToolContext := {
  ctx_conversationId : option string;
  ctx_sessionId : option string;
  ctx_userMessage : option string
}.

(** One entry of [functionResults]. *)
Record FunctionResult := {
  fr_call_id : string;
  fr_name : string;
  fr_result : string
}.

(** A turn of the history handed to [processMessage]. *)
Record HistoryTurn := {
  h_role : string;
  h_content : string
}.

Definition is_function_call (item : OutputItem) : bool :=
  match item with
  | FunctionCallItem _ => true
  | _ => false
  end.

Definition function_calls (output : list OutputItem) : list FunctionCall :=
  omap (fun item => match item with
                    | FunctionCallItem fc => Some fc
                    | _ => None
                    end) output.

(** [!!s] for an optional string. *)
Definition truthy_opt (o : option string) : bool :=
  match o with
  | Some s => truthy s
  | None => false
  end.

Section Driver.

Context {R : Runtime} {W : Type} {E : Env W}.

Local Open Scope js_scope.

(** *** services/openai-service.js *)

Definition constructUserContext (userInfo : option UserInfo) : string :=
  match userInfo with
  | None => ""
  | Some info =>
      let context := ["USER CONTEXT:"] in
      let context :=
        if truthy_opt (firstName info) || truthy_opt (lastName info) then
          let name := Text.trim (default "" (firstName info) +:+ " "
                                 +:+ default "" (lastName info)) in
          context ++ ["You are speaking with " +:+ name +:+ ".";
                      "Greet them by name when appropriate."]
        else context in
      let context :=
        if truthy_opt (phone info)
        then context ++ ["Their phone number is " +:+ default "" (phone info) +:+ "."]
        else context in
      let context :=
        if truthy_opt (email info)
        then context ++ ["Their email is " +:+ default "" (email info) +:+ "."]
        else context in
      let context := context ++ ["DO NOT ask for information you already have."] in
      String.concat " " context
  end.

(** The [input] array [processMessage] builds. *)
Definition processMessage_input (message : string) (history : list HistoryTurn)
    (userInfo : option UserInfo) : list InputItem :=
  let systemPrompt := Config.mainSystemPrompt config in
  let systemPrompt :=
    match userInfo with
    | Some _ => constructUserContext userInfo +:+ Text.newline +:+ Text.newline
                +:+ systemPrompt
    | None => systemPrompt
    end in
  [turn "system" systemPrompt]
  ++ (if (0 <? length history)%nat
      then map (fun msg => turn (h_role msg) (h_content msg)) history
      else [])
  ++ [turn "user" message].

Definition processMessage_request (message : string) (history : list HistoryTurn)
    (userInfo : option UserInfo) (previousResponseId : option string)
    (tools : list json) : Request :=
  {| req_model := Config.model config;
     req_input := processMessage_input message history userInfo;
     req_temperature := "0.7";
     req_previous_response_id :=
       if truthy_opt previousResponseId then previousResponseId else None;
     req_tools := if (0 <? length tools)%nat then Some tools else None |}.

Definition processMessage (message : string) (history : list HistoryTurn)
    (userInfo : option UserInfo) (previousResponseId : option string)
    (tools : list json) : M W Response :=
  try_catch
    (responses_create
       (processMessage_request message history userInfo previousResponseId tools))
    (fun error => throw error).

(** The result recorded for a call whose executor threw. *)
Definition error_result (error : Error) : string :=
  JSON_stringify (JObj [("error", JBool true); ("message", JStr (message error))]).

(** The body of [functionCalls.map(async functionCall => ...)]. *)
Definition run_function_call (toolExecutor : FunctionCall -> M W string)
    (functionCall : FunctionCall) : M W FunctionResult :=
  try_catch
    (let* result := toolExecutor functionCall in
     ret {| fr_call_id := fc_call_id functionCall;
            fr_name := fc_name functionCall;
            fr_result := result |})
    (fun error =>
       ret {| fr_call_id := fc_call_id functionCall;
              fr_name := fc_name functionCall;
              fr_result := error_result error |}).

(** What the loop [for (const functionCall of functionCalls)] pushes for one
    call: its record, then the output of the first result with its id. *)
Definition call_and_output (functionResults : list FunctionResult)
    (functionCall : FunctionCall) : list InputItem :=
  FunctionCallRecord (fc_call_id functionCall) (fc_name functionCall)
    (fc_arguments functionCall)
  :: match List.find (fun r => String.eqb (fr_call_id r) (fc_call_id functionCall))
             functionResults with
     | Some resultEntry =>
         [FunctionCallOutput (fc_call_id functionCall) None (fr_result resultEntry)]
     | None => []
     end.

Record NewUserInfo := {
  nu_userId : option json;
  nu_firstName : option json;
  nu_lastName : option json
}.

(** The locals the scan of the results updates. *)
Record ScanState := {
  followUpInput : list InputItem;
  systemInstructions : list json;
  hasUserCreation : bool;
  newUserInfo : option NewUserInfo
}.

Definition or_json (a b : option json) : option json :=
  if Json.truthy_opt a then a else b.

(** The three [if] blocks of the body of
    [for (const resultEntry of functionResults)], on the parsed result. *)
Definition note_user_creation (name : string) (resultData : json) (st : ScanState)
  : ScanState :=
  if String.eqb name "createUser" && Json.truthy resultData
     && Json.truthy_opt (JsonText.get "success" resultData)
  then
    {| followUpInput := followUpInput st;
       systemInstructions := systemInstructions st;
       hasUserCreation := true;
       newUserInfo :=
         match JsonText.get "user" resultData with
         | Some user =>
             if Json.truthy user
             then Some {| nu_userId := or_json (JsonText.get "userId" user)
                                               (JsonText.get "id" user);
                          nu_firstName := JsonText.get "firstName" user;
                          nu_lastName := JsonText.get "lastName" user |}
             else newUserInfo st
         | None => newUserInfo st
         end |}
  else st.

Definition note_system_instruction (resultData : json) (st : ScanState) : ScanState :=
  match JsonText.get "system_instruction" resultData with
  | Some instruction =>
      if Json.truthy resultData && Json.truthy instruction
      then {| followUpInput := followUpInput st;
              systemInstructions := systemInstructions st ++ [instruction];
              hasUserCreation := hasUserCreation st;
              newUserInfo := newUserInfo st |}
      else st
  | None => st
  end.

Definition note_knowledge_context (name : string) (resultData : json)
    (st : ScanState) : ScanState :=
  match JsonText.get "context" resultData with
  | Some context =>
      if String.eqb name "queryKnowledgeBase" && Json.truthy resultData
         && Json.truthy_opt (JsonText.get "success" resultData)
         && Json.truthy_opt (JsonText.get "knowledgeFound" resultData)
         && Json.truthy context
      then {| followUpInput := followUpInput st ++ [Turn "system" context];
              systemInstructions := systemInstructions st;
              hasUserCreation := hasUserCreation st;
              newUserInfo := newUserInfo st |}
      else st
  | None => st
  end.

(** The body of [for (const resultEntry of functionResults)]; a result that
    does not parse is skipped by the [catch] of the body. *)
Definition scan_result (st : ScanState) (resultEntry : FunctionResult) : ScanState :=
  match JSON_parse (fr_result resultEntry) with
  | Throw _ => st
  | Ok resultData =>
      note_knowledge_context (fr_name resultEntry) resultData
        (note_system_instruction resultData
           (note_user_creation (fr_name resultEntry) resultData st))
  end.

(** The turns added when tool results carry system instructions. *)
Definition instruction_turns (instructions : list json) : list InputItem :=
  if (0 <? length instructions)%nat then
    [ turn "system"
        (String.concat (Text.newline +:+ Text.newline)
           (map JsonText.toString instructions));
      turn "user" "Please acknowledge and continue with the conversation." ]
  else [].

(** Some message item of the response holds non-blank text. *)
Definition has_text (response : Response) : bool :=
  match resp_output response with
  | None => false
  | Some output =>
      existsb (fun item =>
                 match item with
                 | MessageItem content =>
                     existsb (fun c =>
                                match c with
                                | OutputText text =>
                                    truthy text && negb (String.eqb (Text.trim text) "")
                                | OtherContent _ => false
                                end) content
                 | _ => false
                 end) output
  end.

Definition text_response (id text : string) : Response :=
  {| resp_id := Some id;
     resp_output := Some [MessageItem [OutputText text]];
     resp_input := None;
     resp_model := None;
     resp_tools := None |}.

Definition user_creation_fallback_text (info : option NewUserInfo) : string :=
  let fallbackText :=
    match info with
    | Some i =>
        if Json.truthy_opt (nu_firstName i)
        then "Thank you, " +:+ JsonText.show (nu_firstName i)
             +:+ "! I've successfully created your profile."
        else "Thank you! I've successfully created your profile."
    | None => "Thank you! I've successfully created your profile."
    end in
  fallbackText +:+ " How else can I assist you today?".

Definition error_fallback_text : string :=
  "I experienced an error processing your request. Can you please try again?".

(** The input of the follow-up request for given results. *)
Definition followUp_input (response : Response) (functionCalls : list FunctionCall)
    (functionResults : list FunctionResult) : ScanState :=
  let originalInput := default [] (resp_input response) in
  let withCalls :=
    originalInput ++ concat (map (call_and_output functionResults) functionCalls) in
  let scanned :=
    foldl scan_result
      {| followUpInput := withCalls; systemInstructions := [];
         hasUserCreation := false; newUserInfo := None |}
      functionResults in
  {| followUpInput :=
       followUpInput scanned ++ instruction_turns (systemInstructions scanned);
     systemInstructions := systemInstructions scanned;
     hasUserCreation := hasUserCreation scanned;
     newUserInfo := newUserInfo scanned |}.

Definition followUp_request (response : Response) (input : list InputItem) : Request :=
  {| req_model := match resp_model response with
                  | Some m => or_else m (Config.model config)
                  | None => Config.model config
                  end;
     req_input := input;
     req_temperature := "0.7";
     req_previous_response_id :=
       if truthy_opt (resp_id response) then resp_id response else None;
     req_tools := resp_tools response |}.

(** The end of [processFunctionCalls], once the follow-up input is built:
    the follow-up request, and the fallback after a profile creation. *)
Definition sendFollowUp (response : Response) (st : ScanState) : M W Response :=
  let* finalResponse :=
    responses_create (followUp_request response (followUpInput st)) in
  if hasUserCreation st && negb (has_text finalResponse) then
    let* now := Date_now in
    ret (text_response ("user_creation_fallback_" +:+ pretty now)
           (user_creation_fallback_text (newUserInfo st)))
  else ret finalResponse.

(** The [catch] of [processFunctionCalls]. *)
Definition error_fallback (error : Error) : M W Response :=
  let* now := Date_now in
  ret (text_response ("error_fallback_" +:+ pretty now) error_fallback_text).

Definition processFunctionCalls (response : Response)
    (toolExecutor : FunctionCall -> M W string) : M W Response :=
  try_catch
    (match resp_output response with
     | None | Some [] => ret response
     | Some output =>
         let functionCalls := function_calls output in
         let* functionResults := map_all (run_function_call toolExecutor) functionCalls in
         sendFollowUp response (followUp_input response functionCalls functionResults)
     end)
    error_fallback.

Definition is_function_call_output (item : InputItem) : bool :=
  match item with
  | FunctionCallOutput _ _ _ => true
  | _ => false
  end.

Definition generic_tool_reply : string :=
  "I've processed your request. Is there anything else you'd like to know?".

Definition extractResponseText (response : Response) : string :=
  match resp_output response with
  | None | Some [] => ""
  | Some output =>
      let responseText := collect_text output in
      if negb (truthy responseText) then
        match resp_input response with
        | Some input =>
            let functionOutputs := List.filter is_function_call_output input in
            if (0 <? length functionOutputs)%nat then
              let timeReply :=
                match List.find (fun item =>
                        match item with
                        | FunctionCallOutput _ (Some name) _ =>
                            String.eqb name "getCurrentTime"
                        | _ => false
                        end) functionOutputs with
                | Some (FunctionCallOutput _ _ output) =>
                    match JSON_parse output with
                    | Ok JNull | Throw _ => None
                    | Ok outputData =>
                        if Json.truthy_opt (JsonText.get "formatted" outputData)
                        then Some ("The current time is "
                                   +:+ JsonText.show (JsonText.get "formatted" outputData)
                                   +:+ " in the "
                                   +:+ JsonText.show (JsonText.get "timezone" outputData)
                                   +:+ " timezone.")
                        else None
                    end
                | _ => None
                end in
              match timeReply with
              | Some text => text
              | None => generic_tool_reply
              end
            else responseText
        | None => responseText
        end
      else responseText
  end.

End Driver.

Section ToolsExecutor.

Context {R : Runtime} {W : Type} {E : Env W}.

Local Open Scope js_scope.

(** *** services/tools-executor.js *)

Definition Handler : Type := json -> ToolContext -> M W HandlerResult.

Definition Registry : Type := gmap string Handler.

Definition registerTool (name : string) (handler : Handler) (registry : Registry)
  : Registry :=
  <[name := handler]> registry.

Record ValidationFailure := {
  v_error : string;
  v_userMessage : option string
}.

Definition invalid (error userMessage : string) : option ValidationFailure :=
  Some {| v_error := error; v_userMessage := Some userMessage |}.

Definition validateGetCurrentTimeArgs (args : json) : option ValidationFailure :=
  match JsonText.get "timezone" args with
  | None => None
  | Some (JStr timezone) =>
      if (50 <? String.length timezone)%nat
      then invalid "Timezone string too long" "Timezone specification too long."
      else None
  | Some _ => invalid "Timezone must be a string" "Invalid timezone format specified."
  end.

(** [args.k && typeof args.k === 'string'] *)
Definition nonempty_string_field (k : string) (args : json) : bool :=
  match JsonText.get k args with
  | Some (JStr s) => truthy s
  | _ => false
  end.

Definition validContentTypes : list string :=
  ["service"; "policy"; "faq"; "location"; "general"].

Definition validateQueryKnowledgeBaseArgs (args : json) : option ValidationFailure :=
  let hasText :=
    match JsonText.get "text" args with
    | Some (JStr s) => truthy s && (0 <? String.length (Text.trim s))%nat
    | _ => false
    end in
  let hasCategory := nonempty_string_field "category" args in
  let hasTag := nonempty_string_field "tag" args in
  let hasContentType := nonempty_string_field "contentType" args in
  if negb hasText && negb hasCategory && negb hasTag && negb hasContentType then
    invalid "At least one search parameter required"
            "I need something to search for in the knowledge base."
  else if match JsonText.get "text" args with
          | Some (JStr s) => truthy s && (500 <? String.length s)%nat
          | _ => false
          end then
    invalid "Search text too long (max 500 characters)"
            "Your search query is too long. Please make it more concise."
  else
    let limitFailure :=
      match JsonText.get "limit" args with
      | None => None
      | Some (JNum n) =>
          if (n <? 1) || (20 <? n)
          then invalid "Limit must be between 1 and 20"
                       "Search limit must be between 1 and 20 results."
          else None
      | Some _ => invalid "Limit must be an integer" "Invalid search limit specified."
      end in
    match limitFailure with
    | Some failure => Some failure
    | None =>
        match JsonText.get "contentType" args with
        | Some contentType =>
            if Json.truthy contentType
               && negb match contentType with
                       | JStr s => existsb (String.eqb s) validContentTypes
                       | _ => false
                       end
            then invalid ("Invalid contentType. Must be one of: "
                          +:+ String.concat ", " validContentTypes)
                         "Invalid content type specified for search."
            else None
        | None => None
        end
    end.

(** The definition of [validateToolArguments] in force: the object literal
    defines the method twice and the later one wins; it has no case for
    'searchPreviousConversations'. *)
Definition validateToolArguments (toolName : string) (args : json)
  : option ValidationFailure :=
  if String.eqb toolName "getCurrentTime" then validateGetCurrentTimeArgs args
  else if String.eqb toolName "queryKnowledgeBase" then validateQueryKnowledgeBaseArgs args
  else None.

(** The error envelopes of [executeTool]. *)
Definition envelope (message code : string) (user_message : option string) : json :=
  JObj ([("success", JBool false); ("error", JBool true);
         ("message", JStr message); ("code", JStr code)]
        ++ match user_message with
           | Some text => [("user_message", JStr text)]
           | None => []
           end).

Definition unknown_tool (name : string) : json :=
  envelope ("No handler registered for tool: " +:+ name) "UNKNOWN_TOOL" None.

Definition invalid_arguments (parseError : Error) : json :=
  envelope ("Invalid arguments: " +:+ message parseError) "INVALID_ARGUMENTS"
    (Some "I couldn't process your request due to an error. Please try again with clearer information.").

Definition invalid_arguments_structure : json :=
  envelope "Arguments must be an object" "INVALID_ARGUMENTS_STRUCTURE"
    (Some "I couldn't process your request due to invalid parameters.").

Definition invalid_tool_arguments (failure : ValidationFailure) : json :=
  envelope (v_error failure) "INVALID_TOOL_ARGUMENTS"
    (Some (match v_userMessage failure with
           | Some text => or_else text "I couldn't process your request due to invalid parameters."
           | None => "I couldn't process your request due to invalid parameters."
           end)).

Definition dropped_by_replacer (extra : list string) (key : string) : bool :=
  existsb (String.eqb key) (["cause"; "stack"; "request"; "response"] ++ extra).

Definition result_format_error (stringifyError : Error) : json :=
  Json.replace (dropped_by_replacer [])
    (envelope ("Error formatting result: " +:+ message stringifyError)
       "RESULT_FORMAT_ERROR"
       (Some "I processed your request but encountered an error with the result. Please try again.")).

Definition execution_error (error : Error) : json :=
  Json.replace (dropped_by_replacer ["config"])
    (envelope (or_else (message error) "Tool execution failed")
       (match code error with
        | Some c => or_else c "EXECUTION_ERROR"
        | None => "EXECUTION_ERROR"
        end)
       (Some "I encountered an error while processing your request. Please try again or provide more information.")).

(** [typeof argsString === 'string' ? JSON.parse(argsString) : argsString];
    [None] is [undefined]. *)
Definition parse_arguments (argsString : Arguments) : exn (option json) :=
  match argsString with
  | ArgString s => match JSON_parse s with
                   | Ok j => Ok (Some j)
                   | Throw e => Throw e
                   end
  | ArgValue j => Ok (Some j)
  | ArgUndefined => Ok None
  end.

(** [!(!args || typeof args !== 'object')] *)
Definition is_arguments_object (args : option json) : option json :=
  match args with
  | Some j => if Json.truthy j && Json.typeof_object j then Some j else None
  | None => None
  end.

Definition executeTool (registry : Registry) (toolCall : FunctionCall)
    (context : ToolContext) : M W string :=
  let name := fc_name toolCall in
  try_catch
    (match registry !! name with
     | None => ret (JSON_stringify (unknown_tool name))
     | Some handler =>
         match parse_arguments (fc_arguments toolCall) with
         | Throw parseError => ret (JSON_stringify (invalid_arguments parseError))
         | Ok parsed =>
             match is_arguments_object parsed with
             | None => ret (JSON_stringify invalid_arguments_structure)
             | Some args =>
                 match validateToolArguments name args with
                 | Some failure => ret (JSON_stringify (invalid_tool_arguments failure))
                 | None =>
                     let* result := handler args context in
                     match result with
                     | RString s => ret s
                     | RValue j => ret (JSON_stringify j)
                     | RUnserialisable stringifyError =>
                         ret (JSON_stringify (result_format_error stringifyError))
                     | RUndefined =>
                         throw (TypeError "Cannot read properties of undefined (reading 'length')")
                     end
                 end
             end
         end
     end)
    (fun error => ret (JSON_stringify (execution_error error))).

(** **** The registered tools *)

Definition getCurrentTime : Handler :=
  fun args _ =>
    let timezone :=
      match JsonText.get "timezone" args with
      | Some tz => if Json.truthy tz then JsonText.toString tz else "Europe/London"
      | None => "Europe/London"
      end in
    let* now := Date_now in
    match Date_toLocaleString now timezone with
    | Ok formatted =>
        ret (RValue (JObj [("success", JBool true);
                           ("iso", JStr (Date_toISOString now));
                           ("timezone", JStr timezone);
                           ("formatted", JStr formatted);
                           ("user_message",
                            JStr ("Current time: " +:+ formatted +:+ " ("
                                  +:+ timezone +:+ ")"))]))
    | Throw _ =>
        ret (RValue (JObj [("success", JBool true);
                           ("iso", JStr (Date_toISOString now));
                           ("timezone", JStr "UTC");
                           ("formatted", JStr (Date_toUTCString now));
                           ("user_message",
                            JStr ("Current time: " +:+ Date_toUTCString now
                                  +:+ " (UTC - timezone error occurred)"))]))
    end.

Definition searchTermNoise : list string :=
  ["tell me about"; "what is"; "do you have"; "can you tell me about";
   "i want to know about"; "information on"; "info about"].

Definition extractSearchTerms (message : string) : string :=
  if negb (truthy message) then ""
  else
    let cleanedMessage :=
      Text.trim (Text.remove_all_ci searchTermNoise (S (String.length message)) message) in
    or_else cleanedMessage message.

(** [!v || v.trim() === ''] for [v = args.text]: [trim] exists on strings
    only. *)
Definition blank_text (v : option json) : exn bool :=
  match v with
  | None => Ok true
  | Some j =>
      if negb (Json.truthy j) then Ok true
      else match j with
           | JStr s => Ok (String.eqb (Text.trim s) "")
           | _ => Throw (TypeError "args.text.trim is not a function")
           end
  end.

(** A field of the query object, kept when truthy. *)
Definition query_field (k : string) (v : option json) : list (string * json) :=
  match v with
  | Some j => if Json.truthy j then [(k, j)] else []
  | None => []
  end.

Definition queryKnowledgeBase : Handler :=
  fun args context =>
    try_catch
      (let* blank := lift (blank_text (JsonText.get "text" args)) in
       let text :=
         if blank && negb (Json.truthy_opt (JsonText.get "category" args))
            && negb (Json.truthy_opt (JsonText.get "tag" args))
            && negb (Json.truthy_opt (JsonText.get "contentType" args))
         then
           match ctx_userMessage context with
           | Some userMessage =>
               if truthy userMessage
               then Some (JStr (extractSearchTerms userMessage))
               else JsonText.get "text" args
           | None => JsonText.get "text" args
           end
         else JsonText.get "text" args in
       let query :=
         JObj (query_field "text" text
               ++ query_field "category" (JsonText.get "category" args)
               ++ query_field "tag" (JsonText.get "tag" args)
               ++ query_field "contentType" (JsonText.get "contentType" args)) in
       let limit := default (JNum 5) (JsonText.get "limit" args) in
       let* knowledgeItems := knowledgeService_search query limit in
       let* formattedContext :=
         lift (knowledgeService_formatKnowledgeContext knowledgeItems) in
       ret (RValue (JObj [("success", JBool true);
                          ("itemCount", JNum (Z.of_nat (length knowledgeItems)));
                          ("hasResults", JBool (0 <? length knowledgeItems)%nat);
                          ("context", JStr formattedContext);
                          ("knowledgeFound",
                           JBool (30 <? String.length formattedContext)%nat)])))
      (fun error =>
         ret (RValue (JObj [("success", JBool false); ("error", JBool true);
                            ("message",
                             JStr (or_else (message error) "Knowledge base query failed"));
                            ("code", JStr "KNOWLEDGE_QUERY_ERROR");
                            ("user_message",
                             JStr "I couldn't retrieve that information right now. Could you try asking in a different way?")]))).

(** The query of the tool: WhatsApp conversations, other than the current
    one, whose phone ends with the last nine digits of [phoneNumber]. *)
Definition previousConversations_query (phoneNumber currentConversationId : string)
  : Query :=
  QPhoneSuffix currentConversationId "whatsapp_phone" (matchDigits phoneNumber).

Definition searchPreviousConversations : Handler :=
  fun args context =>
    try_catch
      (match JsonText.get "phoneNumber" args with
       | Some (JStr phoneNumber) =>
           let digits := filter_chars is_digit phoneNumber in
           if (String.length digits <? 7)%nat then
             ret (RValue (JObj [("success", JBool false); ("found", JBool false);
                                ("message", JStr "Phone number too short");
                                ("user_message",
                                 JStr "That phone number seems too short. Could you provide your full phone number?")]))
           else
             match ctx_conversationId context with
             | None =>
                 ret (RValue (JObj [("success", JBool false); ("found", JBool false);
                                    ("message", JStr "No conversation context available");
                                    ("user_message",
                                     JStr "I couldn't access the current conversation. Please try again.")]))
             | Some currentConversationId =>
                 let* matchingConversations :=
                   Conversation_find
                     (previousConversations_query phoneNumber currentConversationId) in
                 match matchingConversations with
                 | [] =>
                     let* _ :=
                       try_catch
                         (let* currentConversation :=
                            Conversation_findById currentConversationId in
                          match currentConversation with
                          | Some current =>
                              let* now := Date_now in
                              Conversation_save
                                (addIdentifier now "phone" phoneNumber 70 false current)
                          | None => ret tt
                          end)
                         (fun error => ret tt) in
                     ret (RValue (JObj [("success", JBool true); ("found", JBool false);
                                        ("phoneAdded", JBool true);
                                        ("message",
                                         JStr "No previous conversations found but phone number saved");
                                        ("user_message",
                                         JStr "I couldn't find any previous conversations with that phone number. This might be your first time contacting us. I've noted your number so if you contact us through WhatsApp in the future, I'll be able to connect your conversations.")]))
                 | first :: _ =>
                     let* mergeResult :=
                       mergeConversations currentConversationId matchingConversations in
                     let activityDate := Date_toLocaleDateString (lastActivity first) in
                     ret (RValue (JObj [("success", JBool true); ("found", JBool true);
                                        ("merged", JBool true);
                                        ("conversationCount",
                                         JNum (Z.of_nat (length matchingConversations)));
                                        ("messageCount",
                                         JNum (Z.of_nat (mergedMessages mergeResult)));
                                        ("lastActivity", JStr activityDate);
                                        ("user_message",
                                         JStr ("Perfect! I found your previous WhatsApp conversation from "
                                               +:+ activityDate
                                               +:+ ". I can now see your full conversation history with "
                                               +:+ pretty (mergedMessages mergeResult)
                                               +:+ " previous messages. How can I help you today?"))]))
                 end
             end
       | Some JNull =>
           throw (TypeError "Cannot read properties of null (reading 'replace')")
       | None =>
           throw (TypeError "Cannot read properties of undefined (reading 'replace')")
       | Some _ => throw (TypeError "phoneNumber?.substring is not a function")
       end)
      (fun error =>
         ret (RValue (JObj [("success", JBool false); ("found", JBool false);
                            ("error", JBool true);
                            ("message", JStr (or_else (message error) "Search failed"));
                            ("user_message",
                             JStr "I encountered an error while searching for your previous conversations. Please try again.")]))).

(** The registry once the module is loaded. *)
Definition toolRegistry : Registry :=
  registerTool "searchPreviousConversations" searchPreviousConversations
    (registerTool "queryKnowledgeBase" queryKnowledgeBase
       (registerTool "getCurrentTime" getCurrentTime ∅)).

End ToolsExecutor.

Section MessageProcessor.

Context {R : Runtime} {W : Type} {E : Env W}.

Local Open Scope js_scope.

(** *** services/session-manager.js *)

(** [identificationService.PRIORITY] *)
Definition PRIORITY_SESSION : Z := 10.
Definition PRIORITY_PHONE : Z := 70.

Definition getOrCreateConversationByIdentifier (type value : string)
  : M W Conversation :=
  let* found := Conversation_findOne (QIdentifier type value) in
  match found with
  | Some conversation => ret conversation
  | None =>
      let isPhone := String.eqb type "whatsapp_phone" || String.eqb type "phone" in
      let identifierPriority := if isPhone then PRIORITY_PHONE else PRIORITY_SESSION in
      let identifierVerified := isPhone && String.eqb type "whatsapp_phone" in
      let* id := ObjectId_new in
      let* now := Date_now in
      let conversation :=
        {| conv_id := id;
           identifiers := [ {| id_type := type; id_value := value;
                               id_addedAt := now; id_verified := identifierVerified;
                               id_verifiedAt := None;
                               id_priority := identifierPriority |} ];
           userInfo := None;
           lastUpdated := now;
           lastActivity := now;
           messages := [];
           previousResponseId := None;
           channel := if String.eqb type "whatsapp_phone" then "whatsapp" else "website";
           summary := None |} in
      let* _ := Conversation_save conversation in
      ret conversation
  end.

Definition getConversationById (conversationId : string) : M W Conversation :=
  let* found := Conversation_findById conversationId in
  match found with
  | None => throw (mkError ("Conversation not found: " +:+ conversationId) None)
  | Some conversation => ret conversation
  end.

(** [conversationSchema.methods.addMessage]: push, stamp, save. *)
Definition Conversation_addMessage (role content channel : string)
    (conversation : Conversation) : M W unit :=
  let* id := ObjectId_new in
  let* now := Date_now in
  Conversation_save
    (set_lastActivity now
       (set_lastUpdated now
          (set_messages
             (messages conversation
              ++ [ {| msg_id := Some id; msg_role := role; msg_content := content;
                      msg_timestamp := now; msg_channel := channel |} ])
             conversation))).

(** [sessionManager.addMessage]; [extractPotentialIdentifiers] returns no
    identifier, so the identifier loop does nothing. *)
Definition addMessage (conversationId role content channel : string) : M W unit :=
  let* found := Conversation_findById conversationId in
  match found with
  | None => throw (mkError ("Conversation not found: " +:+ conversationId) None)
  | Some conversation => Conversation_addMessage role content channel conversation
  end.

(** [findByIdAndUpdate(conversationId, { previousResponseId: responseId })]:
    an [undefined] id is dropped from the update, which then changes no
    field. *)
Definition updateResponseId (conversationId : string) (responseId : option string)
  : M W unit :=
  Conversation_findByIdAndUpdate conversationId
    (match responseId with
     | Some _ => set_previousResponseId responseId
     | None => fun conversation => conversation
     end).

(** *** services/message-processor.js *)

Definition is_separator (c : ascii) : bool :=
  Text.is_space c || Ascii.eqb c "-"%char || Ascii.eqb c "("%char
  || Ascii.eqb c ")"%char.

(** [None] is [null]. *)
Definition formatPhoneToE164 (phoneNumber : string) : option string :=
  if negb (truthy phoneNumber) then None
  else
    let formattedNumber := remove_first "whatsapp:" phoneNumber in
    let formattedNumber :=
      if negb (startsWith "+" formattedNumber) then
        if startsWith "0" formattedNumber
        then "+44" +:+ substring_from 1 formattedNumber
        else if negb (truthy formattedNumber && all_chars is_digit formattedNumber)
                || (String.length formattedNumber <? 9)%nat
             then formattedNumber
             else "+44" +:+ formattedNumber
      else formattedNumber in
    Some (filter_chars (fun c => negb (is_separator c)) formattedNumber).

Definition summary_turn (text : string) : HistoryTurn :=
  {| h_role := "system";
     h_content := "CONVERSATION SUMMARY: " +:+ text +:+ Text.newline +:+ Text.newline
                  +:+ "The above is a summary of previous messages. The following are the most recent messages." |}.

Definition history_turn (msg : Message) : HistoryTurn :=
  {| h_role := msg_role msg; h_content := msg_content msg |}.

(** The non-empty text of the conversation's summary, if there is one:
    [conversation.summary && conversation.summary.text]. *)
Definition summary_text (conversation : Conversation) : option string :=
  match summary conversation with
  | Some s => match sum_text s with
              | Some text => if truthy text then Some text else None
              | None => None
              end
  | None => None
  end.

(** The block that fills [messageHistory]; it is the same in
    [processWebSocketMessage], [processWhatsAppMessage] and
    [processWhatsAppImageMessage]. *)
Definition messageHistory (conversation : Conversation) : list HistoryTurn :=
  match (if Config.enabled (Config.summary config)
         then summary_text conversation else None) with
  | Some text =>
      let recentMessages :=
        map history_turn
          (slice_from
             (- number_or (Config.recentMessageCount (Config.summary config)) 20)
             (messages conversation)) in
      [summary_turn text] ++ recentMessages
  | None =>
      let historyLimit := number_or (Config.maxHistoryMessages config) 10 in
      map history_turn (slice_from (- historyLimit) (messages conversation))
  end.

Definition empty_userInfo : UserInfo :=
  {| userId := None; firstName := None; lastName := None; email := None;
     phone := None |}.

(** [{ ...userInfo, phone: value }], where [userInfo] is the stored
    subdocument or the empty object.  The spread copies the own properties
    of its operand; the fields of a subdocument are accessors of its
    prototype, so none of them reaches the copy, which holds the phone
    only. *)
Definition with_phone (value : string) (info : UserInfo) : UserInfo :=
  {| userId := None; firstName := None; lastName := None; email := None;
     phone := Some value |}.

(** The query of the automatic merge: browser conversations, other than
    this one, whose 'phone' identifier ends with the last nine digits of the
    sender's number. *)
Definition autoMerge_query (cleanPhoneNumber conversationId : string) : Query :=
  QPhoneSuffix conversationId "phone" (matchDigits cleanPhoneNumber).

Definition sender_issue_reply : string :=
  "There was an issue processing your sender information.".

Definition no_response_reply : string :=
  "I processed your request but have no specific response.".

Definition error_reply : string :=
  "I encountered an error processing your message. Please try again.".

Definition processWhatsAppMessage (registry : Registry) (from message : string)
  : M W string :=
  try_catch
    (match formatPhoneToE164 from with
     | None => ret sender_issue_reply
     | Some cleanPhoneNumber =>
         if negb (truthy cleanPhoneNumber) then ret sender_issue_reply
         else
           let* conversation :=
             getOrCreateConversationByIdentifier "whatsapp_phone" cleanPhoneNumber in
           let* _ := addMessage (conv_id conversation) "user" message "whatsapp" in
           let* conversation :=
             try_catch
               (let* existingConversations :=
                  Conversation_find
                    (autoMerge_query cleanPhoneNumber (conv_id conversation)) in
                if (0 <? length existingConversations)%nat then
                  let* mergeResult :=
                    mergeConversations (conv_id conversation) existingConversations in
                  ret (mr_conversation mergeResult)
                else ret conversation)
               (fun autoMergeError => ret conversation) in
           let* conversation := getConversationById (conv_id conversation) in
           let userInfo := default empty_userInfo (userInfo conversation) in
           let phoneIdentifier :=
             List.find (fun id => String.eqb (id_type id) "whatsapp_phone"
                                  || String.eqb (id_type id) "phone")
                       (identifiers conversation) in
           let userInfo :=
             match phoneIdentifier with
             | Some id => if negb (truthy_opt (phone userInfo))
                          then with_phone (id_value id) userInfo
                          else userInfo
             | None => userInfo
             end in
           let* openaiResponse :=
             processMessage message (messageHistory conversation) (Some userInfo)
               (previousResponseId conversation) (Config.tools config) in
           let hasFunctionCalls :=
             match resp_output openaiResponse with
             | Some output => existsb is_function_call output
             | None => false
             end in
           let* openaiResponse :=
             if hasFunctionCalls then
               processFunctionCalls openaiResponse
                 (fun functionCall =>
                    executeTool registry functionCall
                      {| ctx_conversationId := Some (conv_id conversation);
                         ctx_sessionId := None;
                         ctx_userMessage := Some message |})
             else ret openaiResponse in
           let responseText := extractResponseText openaiResponse in
           let* _ := addMessage (conv_id conversation) "assistant"
                       (or_else responseText "") "whatsapp" in
           let* _ := updateResponseId (conv_id conversation) (resp_id openaiResponse) in
           ret (or_else responseText no_response_reply)
     end)
    (fun error => ret error_reply).

End MessageProcessor.

(** ** An in-memory document store

    The Conversation collection as a finite map from [_id] to document.
    [save] runs the validator of the [identifiers] array (at least one
    identifier), the one validator that a document built from stored,
    validated documents can fail; the store of [Validating], below, runs
    every validator of the schema.  The model backend is a function from
    requests to outcomes. *)

Module InMemory.

Record World := {
  store : gmap string Conversation;
  clock : Date;
  fresh : nat
}.

Definition with_store (f : gmap string Conversation -> gmap string Conversation)
    (w : World) : World :=
  {| store := f (store w); clock := clock w; fresh := fresh w |}.

Definition documents (w : World) : list Conversation :=
  (map_to_list (store w)).*2.

Definition findById (id : string) : M World (option Conversation) :=
  fun w => (Ok (store w !! id), w).

Definition find (q : Query) : M World (list Conversation) :=
  fun w => (Ok (List.filter (Query_matches q) (documents w)), w).

Definition findOne (q : Query) : M World (option Conversation) :=
  fun w => (Ok (head (List.filter (Query_matches q) (documents w))), w).

Definition save (c : Conversation) : M World unit :=
  fun w =>
    match identifiers c with
    | [] => (Throw (mkError "Conversation validation failed: identifiers: At least one identifier is required" None), w)
    | _ :: _ => (Ok tt, with_store (insert (conv_id c) c) w)
    end.

Definition deleteMany (ids : list string) : M World unit :=
  fun w => (Ok tt, with_store (fun m => foldr delete m ids) w).

Definition findByIdAndUpdate (id : string) (f : Conversation -> Conversation)
  : M World unit :=
  fun w => (Ok tt, with_store (alter f id) w).

Definition new_id : M World string :=
  fun w => (Ok ("oid" +:+ pretty (fresh w)),
            {| store := store w; clock := clock w; fresh := S (fresh w) |}).

(** The clock advances by a millisecond each time it is read. *)
Definition now (w : World) : Date * World :=
  (clock w, {| store := store w; clock := clock w + 1; fresh := fresh w |}).

Section Instance.

Variable cfg : Config.t.
Variable backend : Request -> exn Response.
Variable client : option (option (Request -> exn Response)).
Variable search : json -> json -> exn (list json).
Variable format : list json -> exn string.

#[export] Instance env : Env World := {|
  config := cfg;
  Conversation_findById := findById;
  Conversation_findOne := findOne;
  Conversation_find := find;
  Conversation_save := save;
  Conversation_deleteMany := deleteMany;
  Conversation_findByIdAndUpdate := findByIdAndUpdate;
  ObjectId_new := new_id;
  clock_read := now;
  responses_create := fun req => lift (backend req);
  getOpenAIClient :=
    option_map (option_map (fun create req => lift (create req))) client;
  knowledgeService_search := fun query limit => lift (search query limit);
  knowledgeService_formatKnowledgeContext := format
|}.

End Instance.

End InMemory.

(** ** The validators of the schema (models/conversation.js)

    The enumerations and the required fields that [conversationSchema]
    declares for the fields of the embedding. *)

Module Schema.

(** [identifierSchema.type.enum] *)
Definition identifier_types : list string :=
  ["whatsapp_phone"; "website_session"; "user_id"; "phone"; "email"].

(** [messageSchema.role.enum] *)
Definition roles : list string := ["user"; "assistant"].

(** [messageSchema.channel.enum] and [conversationSchema.channel.enum] *)
Definition channels : list string := ["whatsapp"; "website"].

Definition one_of (allowed : list string) (s : string) : bool :=
  existsb (String.eqb s) allowed.

(** An identifier: a type of the enumeration, and a value, which is
    required and so not empty. *)
Definition valid_identifier (id : Identifier) : bool :=
  one_of identifier_types (id_type id) && truthy (id_value id).

(** A message: a role and a channel of their enumerations; the content
    defaults to the empty string and is not checked. *)
Definition valid_message (m : Message) : bool :=
  one_of roles (msg_role m) && one_of channels (msg_channel m).

(** A conversation: at least one identifier, every identifier and every
    message valid, a channel of the enumeration. *)
Definition valid (c : Conversation) : bool :=
  (0 <? length (identifiers c))%nat
  && forallb valid_identifier (identifiers c)
  && forallb valid_message (messages c)
  && one_of channels (channel c).

(** What the validators of a required field of an enumeration report
    for a value: nothing, that the path is required, or that the value is
    not of the enumeration. *)
Definition check_enum (path field : string) (allowed : list string) (v : string)
  : list string :=
  if negb (truthy v) then [path +:+ ": Path `" +:+ field +:+ "` is required."]
  else if one_of allowed v then []
  else [path +:+ ": `" +:+ v +:+ "` is not a valid enum value for path `"
        +:+ field +:+ "`."].

Definition check_required (path field : string) (v : string) : list string :=
  if negb (truthy v) then [path +:+ ": Path `" +:+ field +:+ "` is required."]
  else [].

(** The failures of a document, path by path in the order of the schema. *)
Definition failures (c : Conversation) : list string :=
  (if (0 <? length (identifiers c))%nat then []
   else ["identifiers: At least one identifier is required"])
  ++ concat
       (imap (fun i id =>
                check_enum ("identifiers." +:+ pretty i +:+ ".type") "type"
                  identifier_types (id_type id)
                ++ check_required ("identifiers." +:+ pretty i +:+ ".value") "value"
                     (id_value id))
             (identifiers c))
  ++ concat
       (imap (fun i m =>
                check_enum ("messages." +:+ pretty i +:+ ".role") "role" roles
                  (msg_role m)
                ++ check_enum ("messages." +:+ pretty i +:+ ".channel") "channel"
                     channels (msg_channel m))
             (messages c))
  ++ check_enum "channel" "channel" channels (channel c).

(** The error [save] rejects with; its message lists the failures. *)
Definition ValidationError (c : Conversation) : Error :=
  mkError ("Conversation validation failed: " +:+ String.concat ", " (failures c))
    None.

End Schema.

(** ** The in-memory store with every validator

    The store of [InMemory] with a [save] that runs the whole schema: a
    document is written when it is valid, and the call rejects, leaving the
    store as it was, when it is not. *)

Module Validating.

Import InMemory.

Definition save (c : Conversation) : M World unit :=
  fun w =>
    if Schema.valid c then (Ok tt, with_store (insert (conv_id c) c) w)
    else (Throw (Schema.ValidationError c), w).

Section Instance.

Variable cfg : Config.t.
Variable backend : Request -> exn Response.
Variable client : option (option (Request -> exn Response)).
Variable search : json -> json -> exn (list json).
Variable format : list json -> exn string.

#[export] Instance env : Env World := {|
  config := cfg;
  Conversation_findById := findById;
  Conversation_findOne := findOne;
  Conversation_find := find;
  Conversation_save := save;
  Conversation_deleteMany := deleteMany;
  Conversation_findByIdAndUpdate := findByIdAndUpdate;
  ObjectId_new := new_id;
  clock_read := now;
  responses_create := fun req => lift (backend req);
  getOpenAIClient :=
    option_map (option_map (fun create req => lift (create req))) client;
  knowledgeService_search := fun query limit => lift (search query limit);
  knowledgeService_formatKnowledgeContext := format
|}.

End Instance.

End Validating.

(** ** Vocabulary of the statements *)

(** [addIdentifier] on the identifier list, by recursion on the list: the
    first identifier with the pair is upgraded, or a new one is appended. *)
Fixpoint upsert (now : Date) (type value : string) (priority : Z)
    (verified : bool) (ids : list Identifier) : list Identifier :=
  match ids with
  | [] => [ {| id_type := type; id_value := value; id_addedAt := now;
               id_verified := verified;
               id_verifiedAt := if verified then Some now else None;
               id_priority := priority |} ]
  | id :: rest =>
      if decide (same_pair type value id) then
        let e1 := if priority >? id_priority id
                  then with_priority priority id else id in
        (if verified && negb (id_verified e1)
         then with_verified now e1 else e1) :: rest
      else id :: upsert now type value priority verified rest
  end.

(** The identifier [find] returns for a pair, if any. *)
Definition stored (type value : string) (ids : list Identifier)
  : option Identifier :=
  snd <$> find_identifier type value ids.

(** The messages a merge is given: those of the primary, then those of each
    candidate, in the order the loop meets them. *)
Definition all_input_messages (primary : Conversation)
    (candidates : list Conversation) : list Message :=
  messages primary ++ concat (map messages candidates).

(** Identifiers a merge is given by the candidates, in loop order. *)
Definition candidate_identifiers (candidates : list Conversation) : list Identifier :=
  concat (map identifiers candidates).

(** A list in ascending order of a key. *)
Definition ascending {A : Type} (key : A -> Z) : list A -> Prop :=
  StronglySorted (fun a b => key a <= key b).

(** The elements that carry a given key, in their order of appearance. *)
Definition with_key {A : Type} (key : A -> Z) (t : Z) (xs : list A) : list A :=
  List.filter (fun x => key x =? t) xs.

(** The profile the merge loop keeps after meeting one more candidate. *)
Definition pick_userInfo (u : option UserInfo) (c : Conversation) : option UserInfo :=
  if has_userId (userInfo c) && negb (has_userId u) then userInfo c else u.

(** The primary after the merge loop, the sort and the field updates, before
    any summary is attached; [now] is the time the merge reads. *)
Definition merged_base (now : Date) (primary : Conversation)
    (candidates : list Conversation) : Conversation :=
  set_lastUpdated now
    (set_identifiers
       (foldl add_unique_identifier (identifiers primary)
          (candidate_identifiers candidates))
       (set_messages (JS.sort by_timestamp (all_input_messages primary candidates))
          (set_userInfo (foldl pick_userInfo (userInfo primary) candidates)
             primary))).

(** The store after a merge saved [saved] and deleted the candidates. *)
Definition store_after_merge (saved : Conversation) (candidates : list Conversation)
    (m : gmap string Conversation) : gmap string Conversation :=
  foldr delete (<[conv_id saved := saved]> m) (map conv_id candidates).

(** The specification's reading of the merged message list.  Two messages
    are the same when their timestamp, content and role are equal; the
    merged list is the union without repeats, stably sorted by timestamp. *)
Definition same_message (a b : Message) : bool :=
  (msg_timestamp a =? msg_timestamp b)
  && String.eqb (msg_content a) (msg_content b)
  && String.eqb (msg_role a) (msg_role b).

Fixpoint dedup_messages (seen ms : list Message) : list Message :=
  match ms with
  | [] => []
  | m :: rest =>
      if existsb (same_message m) seen then dedup_messages seen rest
      else m :: dedup_messages (seen ++ [m]) rest
  end.

Definition spec_merged_messages (primary : Conversation)
    (candidates : list Conversation) : list Message :=
  JS.sort by_timestamp (dedup_messages [] (all_input_messages primary candidates)).

(** The specification's reading of a merged duplicate identifier: the
    higher priority, and verified when either side was. *)
Definition spec_merged_pair (ofPrimary ofCandidate merged : Identifier) : Prop :=
  id_priority merged = Z.max (id_priority ofPrimary) (id_priority ofCandidate)
  /\ id_verified merged = id_verified ofPrimary || id_verified ofCandidate.

(** The conversation of a finished merge, its messages and their number. *)
Definition merged_of {W : Type} (run : exn MergeResult * W) : option Conversation :=
  match run with
  | (Ok r, _) => Some (mr_conversation r)
  | (Throw _, _) => None
  end.

Definition message_count_of {W : Type} (run : exn MergeResult * W) : option nat :=
  (fun c => length (messages c)) <$> merged_of run.

(** The ways summary generation fails for a conversation in a world: no
    client, a backend error, no text in the reply, or a last message that
    is missing or has no [_id]. *)
Inductive summary_fails {W : Type} {E : Env W} (c : Conversation) (w : W) : Prop :=
| fails_no_client :
    getOpenAIClient = None \/ getOpenAIClient = Some None ->
    summary_fails c w
| fails_backend_error (create : Request -> M W Response) (e : Error) (w' : W) :
    getOpenAIClient = Some (Some create) ->
    create (summary_request c) w = (Throw e, w') ->
    summary_fails c w
| fails_empty_output (create : Request -> M W Response) (r : Response) (w' : W) :
    getOpenAIClient = Some (Some create) ->
    create (summary_request c) w = (Ok r, w') ->
    extractSummaryText r = None ->
    summary_fails c w
| fails_missing_id :
    (forall m, last (messages c) = Some m -> msg_id m = None) ->
    summary_fails c w.

(** A merge retried with the same arguments, as a caller's retry does. *)
Definition merge_twice {W : Type} {E : Env W} (primaryConversationId : string)
    (conversationsToMerge : list Conversation) : M W MergeResult :=
  JS.bind (mergeConversations primaryConversationId conversationsToMerge)
    (fun _ => mergeConversations primaryConversationId conversationsToMerge).

(** Every resolved outcome of a computation satisfies [P]. *)
Definition returns {W A : Type} (P : A -> Prop) (m : M W A) : Prop :=
  forall w a w', m w = (Ok a, w') -> P a.

(** A computation that resolves in every world, with an outcome in [P]. *)
Definition resolves {W A : Type} (P : A -> Prop) (m : M W A) : Prop :=
  forall w, exists a w', m w = (Ok a, w') /\ P a.

(** The string a function result carries for an executor outcome. *)
Definition recorded_result {R : Runtime} (outcome : exn string) : string :=
  match outcome with
  | Ok result => result
  | Throw error => error_result error
  end.





(** A string that [JSON.stringify] produced from some value. *)
Definition is_json_text {R : Runtime} (s : string) : Prop :=
  exists j, s = JSON_stringify j.

(** A handler outcome that is a serialisable value. *)
Definition is_value (r : HandlerResult) : Prop :=
  exists j, r = RValue j.

(** The replies [processWhatsAppMessage] can end a turn with: one of two
    fixed texts, or the model's text with its fallback when that is empty. *)
Definition terminal_reply {R : Runtime} (reply : string) : Prop :=
  reply = sender_issue_reply
  \/ reply = error_reply
  \/ exists response,
       reply = or_else (extractResponseText response) no_response_reply.

(** A store as the validating [save] leaves it: every document is filed
    under its own [_id] and satisfies the schema. *)
Definition valid_world (w : InMemory.World) : Prop :=
  forall k c,
    InMemory.store w !! k = Some c -> conv_id c = k /\ Schema.valid c = true.

(** The conversation with another last-message pointer in its summary. *)
Definition with_summary_pointer (pointer : option string) (c : Conversation)
  : Conversation :=
  set_summary
    (option_map
       (fun s => {| sum_text := sum_text s; sum_createdAt := sum_createdAt s;
                    sum_lastMessageId := pointer;
                    sum_messageCount := sum_messageCount s;
                    sum_modelUsed := sum_modelUsed s |})
       (summary c))
    c.

(** A backend that rejects every request. *)
Definition backend_always_fails {W : Type} {E : Env W} : Prop :=
  forall (req : Request) (w : W),
    exists e w', responses_create req w = (Throw e, w').

(** ** Concrete inputs *)

Module Ex.

Definition message (id : string) (role : string) (t : Date) (text : string) : Message :=
  {| msg_id := Some id; msg_role := role; msg_content := text;
     msg_timestamp := t; msg_channel := "website" |}.

Definition identifier (type value : string) (priority : Z) (verified : bool)
  : Identifier :=
  {| id_type := type; id_value := value; id_addedAt := 0;
     id_verified := verified; id_verifiedAt := None; id_priority := priority |}.

Definition conversation (id : string) (ids : list Identifier) (ms : list Message)
    (s : option Summary) : Conversation :=
  {| conv_id := id; identifiers := ids; userInfo := None; lastUpdated := 0;
     lastActivity := 0; messages := ms; previousResponseId := None;
     channel := "website"; summary := s |}.

Definition hello : Message := message "m1" "user" 5 "hello".
Definition reply : Message := message "m2" "assistant" 7 "hi there".
Definition invoice : Message := message "m3" "assistant" 6 "your invoice is ready".
Definition thanks : Message := message "m4" "user" 6 "thanks".
Definition welcome : Message := message "m5" "assistant" 9 "you are welcome".

Definition old_summary : Summary :=
  {| sum_text := Some "asked about an invoice"; sum_createdAt := 1;
     sum_lastMessageId := Some "m1"; sum_messageCount := 5;
     sum_modelUsed := Some "gpt-4o-mini-2024-07-18" |}.

(** The browser conversation: an unverified phone at priority 10. *)
Definition primary : Conversation :=
  conversation "p" [identifier "phone" "07911123456" 10 false] [hello; reply]
    (Some old_summary).

(** The messaging conversation: the same pair, verified at priority 70; it
    repeats the message [hello] of the primary. *)
Definition candidate : Conversation :=
  conversation "c"
    [identifier "phone" "07911123456" 70 true;
     identifier "whatsapp_phone" "+447911123456" 70 true]
    [invoice; hello; thanks; welcome] None.

Definition world : InMemory.World :=
  {| InMemory.store := <["p" := primary]> (<["c" := candidate]> ∅);
     InMemory.clock := 100; InMemory.fresh := 0 |}.

Definition backend_down (req : Request) : exn Response :=
  Throw (mkError "503 Service Unavailable" None).

Definition search_none (query limit : json) : exn (list json) := Ok [].

Definition format_none (items : list json) : exn string := Ok "".

(** Default configuration, a client whose backend is down. *)
Definition env : Env InMemory.World :=
  InMemory.env (Config.default "You are a helpful assistant." []) backend_down
    (Some (Some backend_down)) search_none format_none.

(** A small runtime: a serialiser without escapes, a parser that knows the
    empty object only, dates printed as their millisecond count. *)
Definition quote (s : string) : string := dquote +:+ s +:+ dquote.

Fixpoint stringify (j : json) : string :=
  match j with
  | JNull => "null"
  | JBool true => "true"
  | JBool false => "false"
  | JNum n => pretty n
  | JFrac text => text
  | JStr s => quote s
  | JArr items => "[" +:+ String.concat "," (map stringify items) +:+ "]"
  | JObj fields =>
      "{" +:+ String.concat ","
                (map (fun kv => quote kv.1 +:+ ":" +:+ stringify kv.2) fields)
      +:+ "}"
  end.

Definition parse (s : string) : exn json :=
  if String.eqb s "{}" then Ok (JObj [])
  else Throw (SyntaxError "Unexpected token in JSON").

#[export] Instance runtime : Runtime := {|
  JSON_parse := parse;
  JSON_stringify := stringify;
  Date_toLocaleString := fun d timezone =>
    if String.eqb timezone "Europe/London" || String.eqb timezone "UTC"
    then Ok (pretty d)
    else Throw (mkError ("Invalid time zone specified: " +:+ timezone) None);
  Date_toISOString := fun d => pretty d;
  Date_toUTCString := fun d => pretty d;
  Date_toLocaleDateString := fun d => pretty d
|}.

(** A conversation of 25 messages with a summary whose pointer names the
    first of them. *)
Definition long_conversation : Conversation :=
  conversation "p25" [identifier "whatsapp_phone" "+447911123456" 70 true]
    (map (fun i => message ("m" +:+ pretty i) "user" (Z.of_nat i)
                     ("message " +:+ pretty i))
         (seq 0 25))
    (Some old_summary).

(** A reply with two function calls; the handler of the first one throws. *)
Definition exploding : Handler (W := InMemory.World) :=
  fun _ _ => throw (mkError "tool exploded" None).

Definition registry : Registry (W := InMemory.World) :=
  registerTool "explode" exploding (toolRegistry (E := env)).

Definition call1 : FunctionCall :=
  {| fc_call_id := "call_1"; fc_name := "explode"; fc_arguments := ArgString "{}" |}.

Definition call2 : FunctionCall :=
  {| fc_call_id := "call_2"; fc_name := "getCurrentTime";
     fc_arguments := ArgString "{}" |}.


Definition executor (functionCall : FunctionCall) : M InMemory.World string :=
  executeTool registry functionCall
    {| ctx_conversationId := Some "p"; ctx_sessionId := None;
       ctx_userMessage := Some "what time is it" |}.

End Ex.

(** ** Further functions of the models and the services *)

(** *** models/conversation.js *)

(** The comparator [(a, b) => b.priority - a.priority]. *)
Definition by_priority_descending (a b : Identifier) : Z :=
  id_priority b - id_priority a.

(** [conversationSchema.methods.getPrimaryIdentifier]; [None] is [null]. *)
Definition getPrimaryIdentifier (c : Conversation) : option Identifier :=
  if (length (identifiers c) =? 0)%nat then None
  else head (JS.sort by_priority_descending (identifiers c)).

(** *** services/identification-service.js *)

Definition is_phone_type (id : Identifier) : bool :=
  String.eqb (id_type id) "phone" || String.eqb (id_type id) "whatsapp_phone".

Definition needsPhoneIdentification (conversation : Conversation) : bool :=
  let hasPhoneIdentifier := existsb is_phone_type (identifiers conversation) in
  let isWebsiteSession :=
    existsb (fun id => String.eqb (id_type id) "website_session")
            (identifiers conversation) in
  isWebsiteSession && negb hasPhoneIdentifier
  && (3 <=? length (messages conversation))%nat.

(** *** services/message-processor.js: the masking of logged numbers *)

Definition maskPhoneNumber (phone : string) : string :=
  if negb (truthy phone) then "[INVALID_PHONE]"
  else if (String.length phone <? 8)%nat then "[SHORT_PHONE]"
  else
    let cleaned := filter_chars is_digit_or_plus phone in
    if (String.length cleaned <=? 9)%nat
    then String.substring 0 2 cleaned +:+ "***" +:+ slice_last 2 cleaned
    else String.substring 0 5 cleaned +:+ "***" +:+ slice_last 4 cleaned.

Section Lookups.

Context {W : Type} {E : Env W}.

Local Open Scope js_scope.

(** [findConversationsByPhones] of services/identification-service.js; an
    empty or missing [excludeConversationId] excludes nothing. *)
Definition findConversationsByPhones (phoneNumbers : list string)
    (excludeConversationId : option string) : M W (list Conversation) :=
  if (length phoneNumbers =? 0)%nat then ret []
  else
    let allVariations := concat (map generatePhoneVariations phoneNumbers) in
    Conversation_find
      (QPhoneVariations allVariations
         (if truthy_opt excludeConversationId then excludeConversationId else None)).

(** [sessionManager.getConversationHistoryForAI] *)
Definition getConversationHistoryForAI (conversationId : string) (limit : Z)
  : M W (list HistoryTurn) :=
  let* found := Conversation_findById conversationId in
  match found with
  | None => throw (mkError ("Conversation not found: " +:+ conversationId) None)
  | Some conversation =>
      ret (map history_turn (slice_from (- limit) (messages conversation)))
  end.

End Lookups.

(** *** services/tools-executor.js: the validator of the previous-conversation
    search.  The method is defined, but the [validateToolArguments] in force
    does not call it. *)
Definition validateSearchPreviousConversationsArgs (args : json)
  : option ValidationFailure :=
  match JsonText.get "phoneNumber" args with
  | Some (JStr phoneNumber) =>
      if negb (truthy phoneNumber) then
        invalid "Phone number is required and must be a string"
                "I need a phone number to search for previous conversations."
      else if (String.length (Text.trim phoneNumber) <? 5)%nat then
        invalid "Phone number too short"
                "That phone number seems too short. Could you provide your full phone number?"
      else None
  | _ =>
      invalid "Phone number is required and must be a string"
              "I need a phone number to search for previous conversations."
  end.

(** *** services/session-manager.js: the sessions of the open connections *)

(** The [Map] of the language, as the list of its entries in insertion
    order; a key occurs once. *)
Module JsMap.

Section Entries.

Context {V : Type}.

Definition t : Type := list (string * V).

Definition wf (m : t) : Prop := NoDup (map fst m).

Fixpoint get (k : string) (m : t) : option V :=
  match m with
  | [] => None
  | (k', v) :: rest => if String.eqb k' k then Some v else get k rest
  end.

(** [m.set(k, v)]: the value of an existing key is replaced where it is, a
    new key is added at the end. *)
Fixpoint set (k : string) (v : V) (m : t) : t :=
  match m with
  | [] => [(k, v)]
  | (k', v') :: rest =>
      if String.eqb k' k then (k, v) :: rest else (k', v') :: set k v rest
  end.

Fixpoint delete (k : string) (m : t) : t :=
  match m with
  | [] => []
  | (k', v') :: rest =>
      if String.eqb k' k then rest else (k', v') :: delete k rest
  end.

(** [Array.from(m.values())] *)
Definition values (m : t) : list V := map snd m.

End Entries.

Arguments t V : clear implicits.

End JsMap.

Section SessionStore.

(** The type of connection handles. *)
Variable Socket : Type.

Record Session := {
  session_id : string;
  session_ws : Socket;
  session_createdAt : Date;
  identifierType : string;
  identifierValue : string;
  conversationId : option string
}.

Definition Sessions : Type := JsMap.t Session.

Definition with_conversationId (id : option string) (session : Session) : Session :=
  {| session_id := session_id session; session_ws := session_ws session;
     session_createdAt := session_createdAt session;
     identifierType := identifierType session;
     identifierValue := identifierValue session;
     conversationId := id |}.

(** [createSession]; [sessionId] is the value [uuidv4()] returns and [now]
    the value of [new Date()] during the call. *)
Definition createSession (ws : Socket) (sessionId : string) (now : Date)
    (sessions : Sessions) : Session * Sessions :=
  let session :=
    {| session_id := sessionId; session_ws := ws; session_createdAt := now;
       identifierType := "website_session";
       identifierValue := "session_" +:+ sessionId;
       conversationId := None |} in
  (session, JsMap.set sessionId session sessions).

(** [sessions.get(sessionId) || null] *)
Definition getSession (sessionId : string) (sessions : Sessions) : option Session :=
  JsMap.get sessionId sessions.

Definition removeSession (sessionId : string) (sessions : Sessions) : Sessions :=
  JsMap.delete sessionId sessions.

Definition getAllSessions (sessions : Sessions) : list Session :=
  JsMap.values sessions.

(** [session.conversationId
     && oldConversationIds.includes(session.conversationId.toString())] *)
Definition points_to_old (oldConversationIds : list string) (session : Session) : bool :=
  match conversationId session with
  | Some id => truthy id && existsb (String.eqb id) oldConversationIds
  | None => false
  end.

(** The body of [for (const [sessionId, session] of sessions.entries())]:
    the count, and the entries met so far. *)
Definition redirect_step (primaryConversationId : string)
    (oldConversationIds : list string) (st : nat * Sessions)
    (entry : string * Session) : nat * Sessions :=
  if points_to_old oldConversationIds entry.2
  then (S st.1,
        st.2 ++ [(entry.1, with_conversationId (Some primaryConversationId) entry.2)])
  else (st.1, st.2 ++ [entry]).

Definition redirectSessions (primaryConversationId : string)
    (oldConversationIds : list string) (sessions : Sessions) : nat * Sessions :=
  foldl (redirect_step primaryConversationId oldConversationIds) (0%nat, []) sessions.

Definition updateSessionsForMergedConversations (oldConversationIds : list string)
    (newConversationId : string) (sessions : Sessions) : nat * Sessions :=
  foldl (redirect_step newConversationId oldConversationIds) (0%nat, []) sessions.

End SessionStore.

Arguments session_id {Socket} _.
Arguments session_ws {Socket} _.
Arguments session_createdAt {Socket} _.
Arguments identifierType {Socket} _.
Arguments identifierValue {Socket} _.
Arguments conversationId {Socket} _.
Arguments with_conversationId {Socket} _ _.
Arguments createSession {Socket} _ _ _ _.
Arguments getSession {Socket} _ _.
Arguments removeSession {Socket} _ _.
Arguments getAllSessions {Socket} _.
Arguments points_to_old {Socket} _ _.
Arguments redirect_step {Socket} _ _ _ _.
Arguments redirectSessions {Socket} _ _ _.
Arguments updateSessionsForMergedConversations {Socket} _ _ _.

(** [identificationService.PRIORITY.USER_ID] *)
Definition PRIORITY_USER_ID : Z := 90.

(** A media item of an incoming message. *)
Record MediaItem := {
  media_url : string;
  media_contentType : string
}.

Definition image_instructions : string :=
  "You are also capable of analyzing images. When the user sends an image, examine it carefully and provide detailed and helpful information about what you see.".

Definition no_image_response_reply : string :=
  "I processed your image but have no specific response.".

Definition image_error_reply : string :=
  "I encountered an error processing your image. Please try again.".

Section ProfileAndImages.

Context {R : Runtime} {W : Type} {E : Env W}.

Local Open Scope js_scope.

(** [sessionManager.updateUserInfo].  The profile is replaced, not merged;
    the call of [updateIdentificationState] writes a field that is not
    modelled and only reads the clock. *)
Definition updateUserInfo (conversationId : string) (info : UserInfo) : M W unit :=
  let* found := Conversation_findById conversationId in
  match found with
  | None => throw (mkError ("Conversation not found: " +:+ conversationId) None)
  | Some conversation =>
      let* _ := Date_now in
      let conversation := set_userInfo (Some info) conversation in
      let* conversation :=
        match userId info with
        | Some uid =>
            if truthy uid then
              let* now := Date_now in
              let* _ := Date_now in
              ret (addIdentifier now "user_id" uid PRIORITY_USER_ID true conversation)
            else ret conversation
        | None => ret conversation
        end in
      let* conversation :=
        match phone info with
        | Some number =>
            if truthy number then
              let* now := Date_now in
              ret (addIdentifier now "phone" number PRIORITY_PHONE true conversation)
            else ret conversation
        | None => ret conversation
        end in
      Conversation_save conversation
  end.

(** The [input] array [processImageMessage] builds. *)
Definition processImageMessage_input (message imageUrl : string)
    (history : list HistoryTurn) (userInfo : option UserInfo) : list InputItem :=
  let systemPrompt :=
    Config.mainSystemPrompt config +:+ Text.newline +:+ Text.newline
    +:+ image_instructions in
  let systemPrompt :=
    match userInfo with
    | Some _ => constructUserContext userInfo +:+ Text.newline +:+ Text.newline
                +:+ systemPrompt
    | None => systemPrompt
    end in
  [Turn "system" (JArr [JObj [("type", JStr "input_text");
                              ("text", JStr systemPrompt)]])]
  ++ (if (0 <? length history)%nat
      then map (fun msg => turn (h_role msg) (h_content msg)) history
      else [])
  ++ [Turn "user"
        (JArr [JObj [("type", JStr "input_text");
                     ("text", JStr (or_else message "Please analyze this image."))];
               JObj [("type", JStr "input_image");
                     ("image_url", JStr imageUrl)]])].

Definition processImageMessage (message imageUrl : string)
    (history : list HistoryTurn) (userInfo : option UserInfo)
    (previousResponseId : option string) (tools : list json) : M W Response :=
  try_catch
    (responses_create
       {| req_model := Config.model config;
          req_input := processImageMessage_input message imageUrl history userInfo;
          req_temperature := "0.7";
          req_previous_response_id :=
            if truthy_opt previousResponseId then previousResponseId else None;
          req_tools := if (0 <? length tools)%nat then Some tools else None |})
    (fun error => throw error).

(** [processWhatsAppImageMessage]; an empty [message] stands for a missing
    caption. *)
Definition processWhatsAppImageMessage (registry : Registry) (from message : string)
    (mediaItems : list MediaItem) : M W string :=
  try_catch
    (match formatPhoneToE164 from with
     | None => ret sender_issue_reply
     | Some cleanPhoneNumber =>
         if negb (truthy cleanPhoneNumber) then ret sender_issue_reply
         else
           let* conversation :=
             getOrCreateConversationByIdentifier "whatsapp_phone" cleanPhoneNumber in
           let userMessageWithImage :=
             "[Image sent]" +:+ (if truthy message then ": " +:+ message else "") in
           match head mediaItems with
           | None =>
               throw (TypeError "Cannot read properties of undefined (reading 'url')")
           | Some mediaItem =>
               let* _ := addMessage (conv_id conversation) "user"
                           userMessageWithImage "whatsapp" in
               let* conversation := getConversationById (conv_id conversation) in
               let* openaiResponse :=
                 processImageMessage message (media_url mediaItem)
                   (messageHistory conversation) (userInfo conversation)
                   (previousResponseId conversation) (Config.tools config) in
               let hasFunctionCalls :=
                 match resp_output openaiResponse with
                 | Some output => existsb is_function_call output
                 | None => false
                 end in
               let* openaiResponse :=
                 if hasFunctionCalls then
                   processFunctionCalls openaiResponse
                     (fun functionCall =>
                        executeTool registry functionCall
                          {| ctx_conversationId := Some (conv_id conversation);
                             ctx_sessionId := None;
                             ctx_userMessage :=
                               Some (or_else message "[Image analysis]") |})
                 else ret openaiResponse in
               let responseText := extractResponseText openaiResponse in
               let* _ := addMessage (conv_id conversation) "assistant"
                           (or_else responseText "") "whatsapp" in
               let* _ := updateResponseId (conv_id conversation)
                           (resp_id openaiResponse) in
               ret (or_else responseText no_image_response_reply)
           end
     end)
    (fun error => ret image_error_reply).

End ProfileAndImages.

(** *** Character classes of the language, within ASCII *)

Module CharClass.

Definition is_upper (c : ascii) : bool :=
  let n := nat_of_ascii c in (65 <=? n)%nat && (n <=? 90)%nat.

Definition is_lower (c : ascii) : bool :=
  let n := nat_of_ascii c in (97 <=? n)%nat && (n <=? 122)%nat.

(** [\w] *)
Definition is_word (c : ascii) : bool :=
  is_upper c || is_lower c || is_digit c || Ascii.eqb c "_"%char.

Definition upper (c : ascii) : ascii :=
  if is_lower c then ascii_of_nat (nat_of_ascii c - 32) else c.

End CharClass.

(** *** services/knowledge-service.js: search terms and the formatted context

    Knowledge items are the values the search returns; text is handled as
    ASCII. *)

Module Knowledge.

Fixpoint map_chars (f : ascii -> ascii) (s : string) : string :=
  match s with
  | EmptyString => EmptyString
  | String c rest => String (f c) (map_chars f rest)
  end.

Definition toLowerCase (s : string) : string := map_chars Text.lower s.

Definition toUpperCase (s : string) : string := map_chars CharClass.upper s.

(** [s.split(/\s+/)]: [word] is the word being read, [gap] tells whether
    the previous character was white space. *)
Fixpoint split_spaces (s : string) (word : string) (gap : bool) : list string :=
  match s with
  | EmptyString => [word]
  | String c rest =>
      if Text.is_space c then
        if gap then split_spaces rest "" true
        else word :: split_spaces rest "" true
      else split_spaces rest (word +:+ String c EmptyString) false
  end.

Definition stopWords : list string :=
  ["the"; "and"; "for"; "with"; "what"; "where"; "when"; "how"; "why"; "who"].

Definition extractSearchTerms (text : string) (minWordLength : Z) : list string :=
  if negb (truthy text) then []
  else
    let cleaned :=
      map_chars (fun c => if CharClass.is_word c || Text.is_space c then c else " "%char)
        (toLowerCase text) in
    let words :=
      List.filter (fun word => minWordLength <=? Z.of_nat (String.length word))
        (split_spaces cleaned "" false) in
    List.filter (fun word => negb (existsb (String.eqb word) stopWords)) words.

(** [Object.entries(metadata)] for the metadata of an item: the fields of
    an object (or the entries of a [Map]), the indexed elements of an array
    or of a string; nothing for other values. *)
Definition entries (metadata : json) : list (string * json) :=
  match metadata with
  | JObj fields => fields
  | JArr items => imap (fun i v => (pretty i, v)) items
  | JStr s =>
      imap (fun i c => (pretty i, JStr (String c EmptyString)))
        (list_ascii_of_string s)
  | _ => []
  end.

Definition metadata_lines (item : json) : string :=
  match JsonText.get "metadata" item with
  | Some metadata =>
      if Json.truthy metadata && (0 <? length (entries metadata))%nat then
        foldl (fun context entry =>
                 if Json.truthy entry.2 && negb (Json.typeof_object entry.2)
                 then context +:+ entry.1 +:+ ": " +:+ JsonText.toString entry.2
                      +:+ Text.newline
                 else context)
              "" (entries metadata)
      else ""
  | None => ""
  end.

(** What one turn of [items.forEach((item, index) => ...)] appends. *)
Definition format_item (index : nat) (item : json) : exn string :=
  match item, JsonText.get "title" item with
  | JNull, _ =>
      Throw (TypeError "Cannot read properties of null (reading 'title')")
  | _, Some (JStr title) =>
      Ok ("[" +:+ pretty (index + 1)%nat +:+ "] " +:+ toUpperCase title
          +:+ Text.newline
          +:+ JsonText.show (JsonText.get "content" item)
          +:+ Text.newline +:+ Text.newline
          +:+ metadata_lines item
          +:+ "---" +:+ Text.newline +:+ Text.newline)
  | _, Some JNull =>
      Throw (TypeError "Cannot read properties of null (reading 'toUpperCase')")
  | _, None =>
      Throw (TypeError "Cannot read properties of undefined (reading 'toUpperCase')")
  | _, Some _ => Throw (TypeError "item.title.toUpperCase is not a function")
  end.

Definition header : string :=
  "KNOWLEDGE BASE INFORMATION:" +:+ Text.newline +:+ Text.newline.

Definition footer : string :=
  "USE THE ABOVE INFORMATION TO ANSWER THE USER'S QUESTION. IF THE KNOWLEDGE BASE DOESN'T CONTAIN RELEVANT INFORMATION, ACKNOWLEDGE THAT AND OFFER TO HELP IN OTHER WAYS."
  +:+ Text.newline.

(** The loop over the items, from index [index] on. *)
Fixpoint format_items (index : nat) (items : list json) (context : string)
  : exn string :=
  match items with
  | [] => Ok context
  | item :: rest =>
      match format_item index item with
      | Ok text => format_items (S index) rest (context +:+ text)
      | Throw e => Throw e
      end
  end.

Definition formatKnowledgeContext (items : list json) : exn string :=
  if (length items =? 0)%nat then Ok ""
  else
    match format_items 0 items header with
    | Ok context => Ok (context +:+ footer)
    | Throw e => Throw e
    end.

End Knowledge.

(** *** Regular expressions, as far as the phone patterns use them

    A backtracking matcher that follows the order of the language:
    alternatives from left to right, quantifiers greedy. *)

Module Regex.

Inductive t :=
| Eps
| Class (p : ascii -> bool)          (* one character of a class *)
| Boundary                           (* \b *)
| Seq (a b : t)
| Alt (a b : t)
| Repeat (min max : nat) (a : t).    (* a{min,max} *)

(** [\b] between the character before the position and the input left. *)
Definition at_boundary (prev : option ascii) (s : string) : bool :=
  let before := match prev with
                | Some c => CharClass.is_word c
                | None => false
                end in
  let after := match s with
               | String c _ => CharClass.is_word c
               | EmptyString => false
               end in
  xorb before after.

(** [run r prev s k]: match [r] at the head of [s], then continue with [k]
    on what is left; the result is what the whole match leaves of the
    input. *)
Fixpoint run (r : t) (prev : option ascii) (s : string)
    (k : option ascii -> string -> option string) : option string :=
  match r with
  | Eps => k prev s
  | Class p =>
      match s with
      | String c rest => if p c then k (Some c) rest else None
      | EmptyString => None
      end
  | Boundary => if at_boundary prev s then k prev s else None
  | Seq a b => run a prev s (fun prev' s' => run b prev' s' k)
  | Alt a b =>
      match run a prev s k with
      | Some rest => Some rest
      | None => run b prev s k
      end
  | Repeat min max a =>
      (fix iterate (min max : nat) (prev : option ascii) (s : string)
         : option string :=
         match max with
         | O => if (min =? 0)%nat then k prev s else None
         | S max' =>
             match run a prev s
                     (fun prev' s' => iterate (Nat.pred min) max' prev' s') with
             | Some rest => Some rest
             | None => if (min =? 0)%nat then k prev s else None
             end
         end) min max prev s
  end.

Fixpoint last_char (s : string) (default : option ascii) : option ascii :=
  match s with
  | EmptyString => default
  | String c rest => last_char rest (Some c)
  end.

(** The matches of [r] from left to right; each search starts where the
    previous match ended, one character further after an empty match. *)
Fixpoint match_all (fuel : nat) (r : t) (prev : option ascii) (s : string)
  : list string :=
  match fuel with
  | O => []
  | S fuel' =>
      match run r prev s (fun _ rest => Some rest) with
      | Some rest =>
          let n := (String.length s - String.length rest)%nat in
          let matched := String.substring 0 n s in
          matched
          :: match n, s with
             | O, String c s' => match_all fuel' r (Some c) s'
             | O, EmptyString => []
             | _, _ => match_all fuel' r (last_char matched prev) rest
             end
      | None =>
          match s with
          | String c s' => match_all fuel' r (Some c) s'
          | EmptyString => []
          end
      end
  end.

(** [s.match(/r/g) || []] *)
Definition matches (r : t) (s : string) : list string :=
  match_all (S (String.length s)) r None s.

Definition seq (rs : list t) : t := foldr Seq Eps rs.

Definition digit : t := Class is_digit.

Definition lit (c : ascii) : t := Class (Ascii.eqb c).

Definition opt (a : t) : t := Repeat 0 1 a.

(** [[\s\-\.]] *)
Definition separator : t :=
  Class (fun c => Text.is_space c || Ascii.eqb c "-"%char || Ascii.eqb c "."%char).

End Regex.

(** *** services/identification-service.js: phone numbers in a message *)

(** The four patterns of [extractPhoneNumbers]. *)
Definition phonePatterns : list Regex.t :=
  let digits := fun min max => Regex.Repeat min max Regex.digit in
  let sep := Regex.opt Regex.separator in
  [ (* /\+\d{1,3}[\s\-\.]?\d{1,4}[\s\-\.]?\d{1,4}[\s\-\.]?\d{1,4}[\s\-\.]?\d{0,4}/g *)
    Regex.seq [Regex.lit "+"; digits 1 3; sep; digits 1 4; sep; digits 1 4; sep;
               digits 1 4; sep; digits 0 4]%nat;
    (* /0\d{10,11}|\b0\d{4}\s?\d{6,7}\b/g *)
    Regex.Alt
      (Regex.seq [Regex.lit "0"; digits 10 11]%nat)
      (Regex.seq [Regex.Boundary; Regex.lit "0"; digits 4 4;
                  Regex.opt (Regex.Class Text.is_space); digits 6 7;
                  Regex.Boundary]%nat);
    (* /\(?\d{3}\)?[\s\-\.]?\d{3}[\s\-\.]?\d{4}/g *)
    Regex.seq [Regex.opt (Regex.lit "("); digits 3 3; Regex.opt (Regex.lit ")");
               sep; digits 3 3; sep; digits 4 4]%nat;
    (* /\b\d{1,4}[\s\-\.]?\d{1,4}[\s\-\.]?\d{1,4}[\s\-\.]?\d{1,4}\b/g *)
    Regex.seq [Regex.Boundary; digits 1 4; sep; digits 1 4; sep; digits 1 4; sep;
               digits 1 4; Regex.Boundary]%nat ].

Definition extractPhoneNumbers (text : string) : list string :=
  if negb (truthy text) then []
  else
    let found := concat (map (fun pattern => Regex.matches pattern text) phonePatterns) in
    let phoneNumbers :=
      List.filter (fun normalized =>
                     truthy normalized && (7 <=? String.length normalized)%nat)
        (map normalizePhoneNumber found) in
    Set_of [] phoneNumbers.

(** What [processMessageForIdentification] resolves to; [None] is a property
    the result does not have. *)
Record IdentificationResult := {
  ir_merged : bool;
  ir_phoneNumbers : option (list string);
  ir_addedIdentifiers : option bool;
  ir_mergedCount : option nat;
  ir_conversation : option Conversation;
  ir_error : option string
}.

Section Identification.

Context {W : Type} {E : Env W}.

Local Open Scope js_scope.

(** [phoneNumbers.forEach(phone =>
       currentConversation.addIdentifier('phone', phone, 70, false))] *)
Fixpoint addPhoneIdentifiers (phoneNumbers : list string) (c : Conversation)
  : M W Conversation :=
  match phoneNumbers with
  | [] => ret c
  | phone :: rest =>
      let* now := Date_now in
      addPhoneIdentifiers rest (addIdentifier now "phone" phone 70 false c)
  end.

Definition processMessageForIdentification (conversationId text : string)
  : M W IdentificationResult :=
  try_catch
    (let phoneNumbers := extractPhoneNumbers text in
     if (length phoneNumbers =? 0)%nat then
       ret {| ir_merged := false; ir_phoneNumbers := Some [];
              ir_addedIdentifiers := None; ir_mergedCount := None;
              ir_conversation := None; ir_error := None |}
     else
       let* matchingConversations :=
         findConversationsByPhones phoneNumbers (Some conversationId) in
       if (length matchingConversations =? 0)%nat then
         let* currentConversation := Conversation_findById conversationId in
         let* _ :=
           match currentConversation with
           | Some current =>
               let* current := addPhoneIdentifiers phoneNumbers current in
               Conversation_save current
           | None => ret tt
           end in
         ret {| ir_merged := false; ir_phoneNumbers := Some phoneNumbers;
                ir_addedIdentifiers := Some true; ir_mergedCount := None;
                ir_conversation := None; ir_error := None |}
       else
         let* result := mergeConversations conversationId matchingConversations in
         ret {| ir_merged := true; ir_phoneNumbers := Some phoneNumbers;
                ir_addedIdentifiers := None;
                ir_mergedCount := Some (length matchingConversations);
                ir_conversation := Some (mr_conversation result);
                ir_error := None |})
    (fun error =>
       ret {| ir_merged := false; ir_phoneNumbers := None;
              ir_addedIdentifiers := None; ir_mergedCount := None;
              ir_conversation := None; ir_error := Some (JS.message error) |}).

End Identification.

(** ** Vocabulary of the further statements *)

(** [id] is the first identifier of [ids] with the highest priority: the
    ones before it are strictly lower, the ones after it are not higher. *)
Definition first_highest (ids : list Identifier) (id : Identifier) : Prop :=
  exists before after,
    ids = before ++ id :: after
    /\ Forall (fun x => id_priority x < id_priority id) before
    /\ Forall (fun x => id_priority x <= id_priority id) after.

(** The message [addMessage] pushes, given the id and the time it draws. *)
Definition pushed_message (id : string) (now : Date) (role content channel : string)
  : Message :=
  {| msg_id := Some id; msg_role := role; msg_content := content;
     msg_timestamp := now; msg_channel := channel |}.

(** The tool context with another user message. *)
Definition with_userMessage (userMessage : option string) (context : ToolContext)
  : ToolContext :=
  {| ctx_conversationId := ctx_conversationId context;
     ctx_sessionId := ctx_sessionId context;
     ctx_userMessage := userMessage |}.

(** A character of a search term: a lower-case letter, a digit or an
    underscore. *)
Definition is_term_char (c : ascii) : bool :=
  CharClass.is_lower c || is_digit c || Ascii.eqb c "_"%char.

(** ** Further concrete inputs *)

Module Scenario.

(** A knowledge query with a text and a limit. *)
Definition query_args : json :=
  JObj [("text", JStr "opening hours"); ("limit", JNum 3)].

(** The context of a tool call made from the browser conversation. *)
Definition context : ToolContext :=
  {| ctx_conversationId := Some "p"; ctx_sessionId := Some "s1";
     ctx_userMessage := Some "when are you open" |}.

(** A landline no stored conversation holds. *)
Definition landline_args : json := JObj [("phoneNumber", JStr "02079460000")].

(** A number too short to be one. *)
Definition short_args : json := JObj [("phoneNumber", JStr "12")].

Definition profile : UserInfo :=
  {| userId := Some "u42"; firstName := Some "Ada"; lastName := None;
     email := None; phone := Some "02079460000" |}.

Definition knowledge_item : json :=
  JObj [("title", JStr "Opening hours");
        ("content", JStr "Monday to Friday, 9 to 5");
        ("metadata", JObj [("source", JStr "handbook")])].

(** One open browser session, attached to the messaging conversation. *)
Definition sessions : Sessions unit :=
  [("s0", {| session_id := "s0"; session_ws := tt; session_createdAt := 90;
             identifierType := "website_session";
             identifierValue := "session_s0";
             conversationId := Some "c" |})].



(** The validating store with the default configuration and a client whose
    backend is down. *)
Definition validating_env : Env InMemory.World :=
  Validating.env (Config.default "You are a helpful assistant." []) Ex.backend_down
    (Some (Some Ex.backend_down)) Ex.search_none Ex.format_none.

(** A backend whose reply carries no text, and one that answers 'done';
    each over the validating store. *)
Definition silent_reply : Response :=
  {| resp_id := Some "resp_3"; resp_output := Some [];
     resp_input := None; resp_model := None; resp_tools := None |}.

Definition done_reply : Response :=
  {| resp_id := Some "resp_4";
     resp_output := Some [MessageItem [OutputText "done"]];
     resp_input := None; resp_model := None; resp_tools := None |}.

Definition answering (response : Response) : Env InMemory.World :=
  Validating.env (Config.default "You are a helpful assistant." [])
    (fun _ => Ok response) (Some (Some (fun _ => Ok response)))
    Ex.search_none Ex.format_none.



End Scenario.

(* ===================================================================== *)
(** * Properties                                                          *)
(* ===================================================================== *)

(** ** addIdentifier *)

Section AddIdentifier.

Lemma addIdentifier_upsert now type value priority verified c :
  identifiers (addIdentifier now type value priority verified c)
  = upsert now type value priority verified (identifiers c).
Proof.
  unfold addIdentifier, find_identifier.
  induction (identifiers c) as [|id rest IH]; simpl; [reflexivity|].
  destruct (decide (same_pair type value id)) as [Hp|Hp]; simpl; [reflexivity|].
  destruct (list_find (same_pair type value) rest) as [[i e]|]; simpl in *;
    now rewrite IH.
Qed.

Lemma stored_cons type value id rest :
  stored type value (id :: rest)
  = if decide (same_pair type value id) then Some id
    else stored type value rest.
Proof.
  unfold stored, find_identifier; simpl.
  destruct (decide (same_pair type value id)); [reflexivity|].
  now destruct (list_find (same_pair type value) rest) as [[i e]|].
Qed.

Lemma upgrade_same_pair now priority verified t v id :
  let e1 := if priority >? id_priority id
            then with_priority priority id else id in
  same_pair t v (if verified && negb (id_verified e1)
                 then with_verified now e1 else e1)
  <-> same_pair t v id.
Proof.
  intros e1; subst e1; unfold same_pair.
  destruct (priority >? id_priority id), verified, (id_verified id) eqn:Hv;
    simpl; rewrite ?Hv; simpl; tauto.
Qed.

Lemma upgrade_mono now priority verified id :
  let e1 := if priority >? id_priority id
            then with_priority priority id else id in
  let e2 := if verified && negb (id_verified e1)
            then with_verified now e1 else e1 in
  id_priority id <= id_priority e2
  /\ (id_verified id = true -> id_verified e2 = true).
Proof.
  intros e1 e2; subst e1 e2.
  destruct (Z.gtb_spec priority (id_priority id)), verified,
    (id_verified id) eqn:Hv; simpl; rewrite ?Hv; simpl; split; auto;
    try lia; try discriminate.
Qed.

Lemma upsert_stored_mono now type value priority verified ids t v id :
  stored t v ids = Some id ->
  exists id',
    stored t v (upsert now type value priority verified ids) = Some id'
    /\ id_priority id <= id_priority id'
    /\ (id_verified id = true -> id_verified id' = true).
Proof.
  induction ids as [|x rest IH]; intros Hs.
  - discriminate Hs.
  - rewrite stored_cons in Hs. simpl.
    destruct (decide (same_pair type value x)) as [Hx|Hx].
    + rewrite stored_cons.
      destruct (decide (same_pair t v x)) as [Htx|Htx].
      * inversion Hs; subst x.
        rewrite decide_True by (now apply upgrade_same_pair).
        eexists; split; [reflexivity|]. apply upgrade_mono.
      * rewrite decide_False
          by (intros Hc; apply Htx; now apply upgrade_same_pair in Hc).
        exists id. split; [assumption|]. split; [lia|auto].
    + rewrite stored_cons.
      destruct (decide (same_pair t v x)) as [Htx|Htx].
      * inversion Hs; subst x. exists id. split; [reflexivity|].
        split; [lia|auto].
      * now apply IH.
Qed.

Lemma upsert_pairs now type value priority verified ids :
  pairs (upsert now type value priority verified ids)
  = if decide ((type, value) ∈ pairs ids) then pairs ids
    else pairs ids ++ [(type, value)].
Proof.
  induction ids as [|x rest IH].
  - cbn [upsert pairs map app].
    destruct (decide ((type, value) ∈ [])) as [Hin|_]; [|reflexivity].
    now apply not_elem_of_nil in Hin.
  - cbn [upsert].
    destruct (decide (same_pair type value x)) as [[Ht Hv]|Hx].
    + destruct (decide ((type, value) ∈ pairs (x :: rest))) as [_|Hn].
      * cbn [pairs map]. f_equal.
        destruct (priority >? id_priority x), verified,
          (id_verified x) eqn:Hver; simpl; rewrite ?Hver; reflexivity.
      * exfalso. apply Hn. cbn [pairs map]. rewrite Ht, Hv. left.
    + change (pairs (x :: ?l)) with ((id_type x, id_value x) :: pairs l).
      rewrite IH.
      destruct (decide ((type, value) ∈ pairs rest)) as [Hin|Hin];
        destruct (decide ((type, value) ∈ (id_type x, id_value x) :: pairs rest))
          as [Hin'|Hin']; try reflexivity.
      * exfalso. apply Hin'. now right.
      * exfalso. apply elem_of_cons in Hin' as [Hc|Hc]; [|contradiction].
        apply Hx. inversion Hc. now split.
Qed.

Lemma upsert_NoDup now type value priority verified ids :
  NoDup (pairs ids) ->
  NoDup (pairs (upsert now type value priority verified ids)).
Proof.
  intros Hnd. rewrite upsert_pairs.
  destruct (decide ((type, value) ∈ pairs ids)) as [Hin|Hin]; [assumption|].
  apply NoDup_app. split; [assumption|]. split.
  - intros p Hp Hq. apply list_elem_of_singleton in Hq. now subst p.
  - apply NoDup_singleton.
Qed.

(** C6.  Along every sequence of [addIdentifier] calls on a conversation:
    the identifier stored for a [(type, value)] pair stays stored, its
    priority never decreases and, once verified, it stays verified; and if
    the pairs of the identifier list were unique, they remain unique. *)
Theorem addIdentifier_sequence_monotone
    (c : Conversation) (calls : list AddIdentifierCall) :
  let c' := foldl apply_call c calls in
  (forall t v id,
      stored t v (identifiers c) = Some id ->
      exists id',
        stored t v (identifiers c') = Some id'
        /\ id_priority id <= id_priority id'
        /\ (id_verified id = true -> id_verified id' = true))
  /\ (NoDup (pairs (identifiers c)) -> NoDup (pairs (identifiers c'))).
Proof.
  revert c. induction calls as [|k calls IH]; intros c; simpl.
  - split; [|auto]. intros t v id Hs. exists id. split; [assumption|].
    split; [lia|auto].
  - destruct (IH (apply_call c k)) as [IHm IHu]. split.
    + intros t v id Hs.
      destruct (upsert_stored_mono (call_now k) (call_type k) (call_value k)
                  (call_priority k) (call_verified k) _ _ _ _ Hs)
        as (id1 & Hs1 & Hp1 & Hv1).
      unfold apply_call in IHm at 1.
      rewrite addIdentifier_upsert in IHm.
      destruct (IHm _ _ _ Hs1) as (id2 & Hs2 & Hp2 & Hv2).
      exists id2. split; [assumption|]. split; [lia|auto].
    + intros Hnd. apply IHu. unfold apply_call.
      rewrite addIdentifier_upsert. now apply upsert_NoDup.
Qed.

End AddIdentifier.

(** ** The stable sort *)

Section Sort.

Context {A : Type} (key : A -> Z).

Let cmp (a b : A) : Z := key a - key b.

Lemma sort_insert_perm (a : A) (xs : list A) :
  Permutation (sort_insert cmp a xs) (a :: xs).
Proof.
  induction xs as [|x rest IH]; simpl; [reflexivity|].
  destruct (cmp a x <=? 0); [reflexivity|].
  rewrite IH. apply perm_swap.
Qed.

Lemma sort_perm (xs : list A) : Permutation (JS.sort cmp xs) xs.
Proof.
  induction xs as [|x rest IH]; simpl; [reflexivity|].
  unfold JS.sort in IH. rewrite sort_insert_perm. now constructor.
Qed.

Lemma sort_length (xs : list A) : length (JS.sort cmp xs) = length xs.
Proof. apply Permutation_length, sort_perm. Qed.

Lemma sort_insert_ascending (a : A) (xs : list A) :
  ascending key xs -> ascending key (sort_insert cmp a xs).
Proof.
  unfold ascending.
  induction xs as [|x rest IH]; intros Hs; simpl.
  - constructor; constructor.
  - change (cmp a x) with (key a - key x).
    destruct (Z.leb_spec (key a - key x) 0) as [Hle|Hgt].
    + constructor; [assumption|].
      inversion Hs as [|? ? Hrest Hall]; subst.
      constructor; [lia|].
      eapply Forall_impl; [exact Hall|]. simpl. intros; lia.
    + inversion Hs as [|? ? Hrest Hall]; subst.
      constructor; [now apply IH|].
      eapply Permutation_Forall.
      * symmetry. apply sort_insert_perm.
      * constructor; [lia|assumption].
Qed.

Lemma sort_ascending (xs : list A) : ascending key (JS.sort cmp xs).
Proof.
  induction xs as [|x rest IH]; simpl; [constructor|].
  now apply sort_insert_ascending.
Qed.

Lemma sort_insert_with_key (t : Z) (a : A) (xs : list A) :
  with_key key t (sort_insert cmp a xs) = with_key key t (a :: xs).
Proof.
  unfold with_key.
  induction xs as [|x rest IH]; simpl; [reflexivity|].
  change (cmp a x) with (key a - key x).
  destruct (Z.leb_spec (key a - key x) 0) as [Hle|Hgt].
  - reflexivity.
  - simpl in *. rewrite IH.
    destruct (Z.eqb_spec (key a) t), (Z.eqb_spec (key x) t);
      try reflexivity; lia.
Qed.

(** Stability: elements with equal keys keep their relative order. *)
Lemma sort_stable (t : Z) (xs : list A) :
  with_key key t (JS.sort cmp xs) = with_key key t xs.
Proof.
  induction xs as [|x rest IH]; [reflexivity|].
  change (JS.sort cmp (x :: rest)) with (sort_insert cmp x (JS.sort cmp rest)).
  rewrite sort_insert_with_key. unfold with_key in *. simpl.
  now rewrite IH.
Qed.

End Sort.

(** ** The merge loop *)

Section MergeLoop.

Lemma merge_step_fields (st : MergeState) (c : Conversation) :
  merge_step st c
  = {| allMessages := allMessages st ++ messages c;
       allIdentifiers := foldl add_unique_identifier (allIdentifiers st) (identifiers c);
       totalMergedMessages := (totalMergedMessages st + length (messages c))%nat;
       primaryUserInfo := pick_userInfo (primaryUserInfo st) c |}.
Proof.
  unfold merge_step, pick_userInfo.
  destruct (messages c) as [|m0 ms], (identifiers c) as [|i0 ids]; simpl;
    rewrite ?app_nil_r, ?Nat.add_0_r; reflexivity.
Qed.

Lemma merge_loop (st : MergeState) (cs : list Conversation) :
  foldl merge_step st cs
  = {| allMessages := allMessages st ++ concat (map messages cs);
       allIdentifiers :=
         foldl add_unique_identifier (allIdentifiers st) (candidate_identifiers cs);
       totalMergedMessages :=
         (totalMergedMessages st + length (concat (map messages cs)))%nat;
       primaryUserInfo := foldl pick_userInfo (primaryUserInfo st) cs |}.
Proof.
  revert st. induction cs as [|c cs IH]; intros st; simpl.
  - destruct st; simpl. now rewrite app_nil_r, Nat.add_0_r.
  - rewrite IH, merge_step_fields. simpl. unfold candidate_identifiers. simpl.
    rewrite foldl_app, length_app, <- app_assoc, Nat.add_assoc. reflexivity.
Qed.

End MergeLoop.

(** ** Merging over the in-memory store *)

Section InMemoryMerge.

Import InMemory.

Variable cfg : Config.t.
Variable backend : Request -> exn Response.
Variable client : option (option (Request -> exn Response)).
Variable search : json -> json -> exn (list json).
Variable format : list json -> exn string.

Local Abbreviation E := (InMemory.env cfg backend client search format).

(** Summary generation never rejects and leaves the documents alone. *)
Lemma generateSummary_total (c : Conversation) (w : World) :
  exists o w',
    generateSummary (E := E) c w = (Ok o, w') /\ store w' = store w.
Proof.
  unfold generateSummary, try_catch, bind, ret. simpl.
  destruct (_ <? _); [now eauto|].
  destruct client as [[create|]|]; simpl; [|now eauto|now eauto].
  unfold lift.
  destruct (create _) as [response|e]; [|now eauto].
  destruct (extractSummaryText response) as [text|]; [|now eauto].
  destruct (last (messages c)) as [lastMessage|]; [|now eauto].
  destruct (msg_id lastMessage) as [lastId|]; [|now eauto].
  simpl. now eauto.
Qed.

Lemma add_unique_identifier_nonempty (ids : list Identifier) (extra : list Identifier) :
  ids <> [] -> foldl add_unique_identifier ids extra <> [].
Proof.
  revert ids. induction extra as [|x extra IH]; intros ids Hne; simpl; [assumption|].
  apply IH. unfold add_unique_identifier.
  destruct (negb _); [|assumption]. now destruct ids.
Qed.

Lemma save_ok (c : Conversation) (w : World) :
  identifiers c <> [] ->
  save c w = (Ok tt, with_store (insert (conv_id c) c) w).
Proof. unfold save. now destruct (identifiers c). Qed.

(** What a merge does when the primary is stored and valid. *)
Lemma merge_run (pid : string) (P : Conversation) (cs : list Conversation) (w : World) :
  store w !! pid = Some P ->
  identifiers P <> [] ->
  exists pc w',
    mergeConversations (E := E) pid cs w
    = (Ok {| mr_conversation := pc;
             mergedCount := length cs;
             mergedMessages := length (concat (map messages cs)) |}, w')
    /\ (pc = merged_base (clock w) P cs
        \/ exists s, pc = set_summary (Some s) (merged_base (clock w) P cs))
    /\ store w' = store_after_merge pc cs (store w).
Proof.
  intros Hp Hne.
  unfold mergeConversations, try_catch, bind. simpl.
  unfold findById. rewrite Hp. rewrite merge_loop. simpl.
  fold (all_input_messages P cs). fold (merged_base (clock w) P cs).
  set (base := merged_base (clock w) P cs).
  assert (Hids : identifiers base <> []).
  { subst base. simpl. now apply add_unique_identifier_nonempty. }
  destruct (Config.enabled _ && _).
  - unfold ret.
    match goal with
    | |- context [generateSummary ?c ?w1] =>
        destruct (generateSummary_total c w1) as (o & w2 & Hg & Hst)
    end.
    rewrite Hg. destruct o as [s|].
    + rewrite (save_ok (set_summary (Some s) base)) by exact Hids.
      simpl. eexists _, _. split; [reflexivity|]. split; [right; eauto|].
      simpl. now rewrite Hst.
    + rewrite (save_ok base) by exact Hids.
      simpl. eexists _, _. split; [reflexivity|]. split; [now left|].
      simpl. now rewrite Hst.
  - unfold ret. rewrite (save_ok base) by exact Hids.
    simpl. eexists _, _. split; [reflexivity|]. split; [now left|].
    reflexivity.
Qed.

Lemma lookup_foldr_delete_notin (m : gmap string Conversation) (ks : list string)
    (k : string) :
  k ∉ ks -> foldr delete m ks !! k = m !! k.
Proof.
  induction ks as [|k' ks IH]; intros Hk; simpl; [reflexivity|].
  apply not_elem_of_cons in Hk as [Hne Hk].
  rewrite lookup_delete_ne by congruence. now apply IH.
Qed.

(** A failed summary generation resolves to [null], in every environment. *)
Lemma generateSummary_fails {W : Type} {E' : Env W} (c : Conversation) (w : W) :
  summary_fails c w ->
  exists w', generateSummary c w = (Ok None, w').
Proof.
  intros Hf. unfold generateSummary, try_catch, bind, ret.
  destruct (_ <? _); [now eauto|].
  destruct Hf as [[Hc|Hc]|create e w' Hc Hr|create r w' Hc Hr Ht|Hid].
  - rewrite Hc. now eauto.
  - rewrite Hc. now eauto.
  - rewrite Hc, Hr. now eauto.
  - rewrite Hc, Hr, Ht. now eauto.
  - destruct getOpenAIClient as [[create|]|]; [|now eauto|now eauto].
    destruct (create _ w) as [[r|e] w']; [|now eauto].
    destruct (extractSummaryText r); [|now eauto].
    destruct (last (messages c)) as [m|] eqn:Hl; [|now eauto].
    rewrite (Hid m eq_refl). now eauto.
Qed.

(** The merge when the summary step contributes nothing. *)
Lemma merge_run_without_summary (pid : string) (P : Conversation)
    (cs : list Conversation) (w : World) :
  store w !! pid = Some P ->
  identifiers P <> [] ->
  (forall w1, summary_fails (E := E) (merged_base (clock w) P cs) w1) ->
  exists w',
    mergeConversations (E := E) pid cs w
    = (Ok {| mr_conversation := merged_base (clock w) P cs;
             mergedCount := length cs;
             mergedMessages := length (concat (map messages cs)) |}, w')
    /\ store w' = store_after_merge (merged_base (clock w) P cs) cs (store w).
Proof.
  intros Hp Hne Hf.
  unfold mergeConversations, try_catch, bind. simpl.
  unfold findById. rewrite Hp. rewrite merge_loop. simpl.
  fold (all_input_messages P cs). fold (merged_base (clock w) P cs).
  set (base := merged_base (clock w) P cs) in *.
  assert (Hids : identifiers base <> []).
  { subst base. simpl. now apply add_unique_identifier_nonempty. }
  destruct (Config.enabled _ && _).
  - unfold ret.
    match goal with
    | |- context [generateSummary ?c ?w1] =>
        destruct (generateSummary_total c w1) as (o & w2 & Hg & Hst);
        destruct (generateSummary_fails c w1 (Hf w1)) as (w3 & Hg')
    end.
    rewrite Hg' in Hg. inversion Hg; subst o w3. rewrite Hg'.
    rewrite (save_ok base) by exact Hids.
    simpl. eexists. split; [reflexivity|]. simpl. now rewrite Hst.
  - unfold ret. rewrite (save_ok base) by exact Hids.
    simpl. eexists. split; reflexivity.
Qed.

(** C1 (as amended).  The message list of the merged conversation is the
    list of all input messages -- those of the primary, then those of every
    candidate, repeats included -- stably sorted by timestamp: it is a
    permutation of the inputs, ascending in timestamp, and messages with
    one timestamp keep their relative order.  Nothing is de-duplicated. *)
Theorem merge_messages_sorted_concatenation (pid : string) (P : Conversation)
    (cs : list Conversation) (w : World) :
  store w !! pid = Some P ->
  identifiers P <> [] ->
  exists r w',
    mergeConversations (E := E) pid cs w = (Ok r, w')
    /\ messages (mr_conversation r)
       = JS.sort by_timestamp (all_input_messages P cs)
    /\ Permutation (messages (mr_conversation r)) (all_input_messages P cs)
    /\ ascending msg_timestamp (messages (mr_conversation r))
    /\ forall t,
         with_key msg_timestamp t (messages (mr_conversation r))
         = with_key msg_timestamp t (all_input_messages P cs).
Proof.
  intros Hp Hne.
  destruct (merge_run pid P cs w Hp Hne) as (pc & w' & Hrun & Hpc & _).
  eexists _, w'. split; [exact Hrun|]. simpl.
  assert (Hm : messages pc = JS.sort by_timestamp (all_input_messages P cs)).
  { destruct Hpc as [->|[s ->]]; reflexivity. }
  rewrite Hm. split; [reflexivity|]. split; [apply (sort_perm msg_timestamp)|].
  split; [apply (sort_ascending msg_timestamp)|].
  intros t. apply (sort_stable msg_timestamp).
Qed.

Lemma add_unique_identifier_stored (t v : string) (id : Identifier)
    (ids extra : list Identifier) :
  stored t v ids = Some id ->
  stored t v (foldl add_unique_identifier ids extra) = Some id.
Proof.
  revert ids. induction extra as [|x extra IH]; intros ids Hs; simpl; [assumption|].
  apply IH. unfold add_unique_identifier. destruct (negb _); [|assumption].
  unfold stored, find_identifier in *.
  destruct (list_find (same_pair t v) ids) as [[i e]|] eqn:Hf; [|discriminate].
  now rewrite (list_find_app_l _ _ _ _ _ Hf).
Qed.

Lemma existsb_pair_elem (x : Identifier) (ids : list Identifier) :
  existsb (fun id => String.eqb (id_type id) (id_type x)
                     && String.eqb (id_value id) (id_value x)) ids = true
  <-> (id_type x, id_value x) ∈ pairs ids.
Proof.
  induction ids as [|y ids IH]; simpl.
  - split; [discriminate|]. intros H. now apply not_elem_of_nil in H.
  - rewrite orb_true_iff, IH, elem_of_cons, andb_true_iff, !String.eqb_eq.
    split; intros [H|H]; auto.
    + left. destruct H as [-> ->]. reflexivity.
    + left. inversion H. auto.
Qed.

Lemma add_unique_identifier_pairs_mono (ids extra : list Identifier) (p : string * string) :
  p ∈ pairs ids -> p ∈ pairs (foldl add_unique_identifier ids extra).
Proof.
  revert ids. induction extra as [|x extra IH]; intros ids Hin; simpl; [assumption|].
  apply IH. unfold add_unique_identifier. destruct (negb _); [|assumption].
  unfold pairs. rewrite map_app. apply elem_of_app. now left.
Qed.

Lemma add_unique_identifier_covers (ids extra : list Identifier) (x : Identifier) :
  x ∈ extra ->
  (id_type x, id_value x) ∈ pairs (foldl add_unique_identifier ids extra).
Proof.
  revert ids. induction extra as [|y extra IH]; intros ids Hin; simpl.
  - now apply not_elem_of_nil in Hin.
  - apply elem_of_cons in Hin as [->|Hin]; [|now apply IH].
    apply add_unique_identifier_pairs_mono. unfold add_unique_identifier.
    destruct (existsb _ ids) eqn:He; simpl.
    + now apply existsb_pair_elem.
    + unfold pairs. rewrite map_app. apply elem_of_app. right. simpl. left.
Qed.

(** Identifiers whose pairs are all present already add nothing. *)
Lemma add_unique_identifier_absorbed (ids extra : list Identifier) :
  (forall x, x ∈ extra -> (id_type x, id_value x) ∈ pairs ids) ->
  foldl add_unique_identifier ids extra = ids.
Proof.
  induction extra as [|y extra IH]; intros Hall; simpl; [reflexivity|].
  assert (Hy : add_unique_identifier ids y = ids).
  { unfold add_unique_identifier.
    assert (He : (id_type y, id_value y) ∈ pairs ids) by (apply Hall; left).
    apply existsb_pair_elem in He. now rewrite He. }
  rewrite Hy. apply IH. intros x Hx. apply Hall. now right.
Qed.

(** C2 (as amended).  The merge is not idempotent on messages: run a second
    time against the same inputs (the primary is read back from the store,
    the candidate documents are the ones the caller still holds), it appends
    every candidate message once more, so the message count grows by the
    number of candidate messages; the identifier list is the same after the
    second run as after the first. *)
Theorem merge_twice_message_count (pid : string) (P : Conversation)
    (cs : list Conversation) (w : World) :
  store w !! pid = Some P ->
  conv_id P = pid ->
  identifiers P <> [] ->
  pid ∉ map conv_id cs ->
  exists r1 w1 r2 w2,
    mergeConversations (E := E) pid cs w = (Ok r1, w1)
    /\ mergeConversations (E := E) pid cs w1 = (Ok r2, w2)
    /\ length (messages (mr_conversation r2))
       = (length (messages (mr_conversation r1))
          + length (concat (map messages cs)))%nat
    /\ identifiers (mr_conversation r2) = identifiers (mr_conversation r1).
Proof.
  intros Hp Hid Hne Hnotin.
  destruct (merge_run pid P cs w Hp Hne) as (pc1 & w1 & Hrun1 & Hpc1 & Hst1).
  assert (Hid1 : conv_id pc1 = pid).
  { destruct Hpc1 as [->|[s ->]]; exact Hid. }
  assert (Hids1 : identifiers pc1
                  = foldl add_unique_identifier (identifiers P)
                      (candidate_identifiers cs)).
  { destruct Hpc1 as [->|[s ->]]; reflexivity. }
  assert (Hm1 : messages pc1 = JS.sort by_timestamp (all_input_messages P cs)).
  { destruct Hpc1 as [->|[s ->]]; reflexivity. }
  assert (Hp1 : store w1 !! pid = Some pc1).
  { rewrite Hst1. unfold store_after_merge.
    rewrite lookup_foldr_delete_notin by exact Hnotin.
    rewrite Hid1. apply lookup_insert_eq. }
  assert (Hne1 : identifiers pc1 <> []).
  { rewrite Hids1. now apply add_unique_identifier_nonempty. }
  destruct (merge_run pid pc1 cs w1 Hp1 Hne1) as (pc2 & w2 & Hrun2 & Hpc2 & _).
  eexists _, w1, _, w2. split; [exact Hrun1|]. split; [exact Hrun2|]. simpl.
  split.
  - assert (Hm2 : messages pc2 = JS.sort by_timestamp (all_input_messages pc1 cs)).
    { destruct Hpc2 as [->|[s ->]]; reflexivity. }
    rewrite Hm2, (sort_length msg_timestamp). unfold all_input_messages.
    now rewrite length_app.
  - assert (Hids2 : identifiers pc2
                    = foldl add_unique_identifier (identifiers pc1)
                        (candidate_identifiers cs)).
    { destruct Hpc2 as [->|[s ->]]; reflexivity. }
    rewrite Hids2. apply add_unique_identifier_absorbed.
    intros x Hx. rewrite Hids1. now apply add_unique_identifier_covers.
Qed.

(** The loop leaves the identifiers it started from in place and appends,
    of the candidates' identifiers, only ones whose pair was not there. *)
Lemma add_unique_identifier_extends (ids extra : list Identifier) :
  exists added,
    foldl add_unique_identifier ids extra = ids ++ added
    /\ Forall (fun x => x ∈ extra /\ (id_type x, id_value x) ∉ pairs ids) added.
Proof.
  revert ids. induction extra as [|x extra IH]; intros ids; simpl.
  - exists []. split; [now rewrite app_nil_r|constructor].
  - unfold add_unique_identifier at 2.
    destruct (existsb _ ids) eqn:He; simpl.
    + destruct (IH ids) as (added & Heq & Hall). exists added.
      split; [exact Heq|]. eapply Forall_impl; [exact Hall|].
      intros y [Hy Hn]. split; [now right|exact Hn].
    + destruct (IH (ids ++ [x])) as (added & Heq & Hall). exists (x :: added).
      split; [now rewrite Heq, <- app_assoc|]. constructor.
      * split; [now left|]. intros Hin. apply existsb_pair_elem in Hin. congruence.
      * eapply Forall_impl; [exact Hall|]. intros y [Hy Hn]. split; [now right|].
        intros Hin. apply Hn. unfold pairs. rewrite map_app.
        apply elem_of_app. now left.
Qed.

Lemma stored_pair_elem (t v : string) (id : Identifier) (ids : list Identifier) :
  stored t v ids = Some id -> (t, v) ∈ pairs ids.
Proof.
  unfold stored, find_identifier. intros Hs.
  destruct (list_find (same_pair t v) ids) as [[i e]|] eqn:Hf; [|discriminate].
  apply list_find_Some in Hf as (Hl & [<- <-] & _).
  unfold pairs. apply list_elem_of_fmap. exists e.
  split; [reflexivity|]. now apply list_elem_of_lookup_2 in Hl.
Qed.

(** C7 (as amended).  When a candidate carries an identifier whose
    [(type, value)] pair the primary already holds, the candidate's
    identifier is dropped and the merged conversation keeps the primary's
    identifier for that pair unchanged -- its priority and its verified
    state are the primary's, whatever the candidate's are.  The merged
    identifier list is the primary's list, in place, followed by identifiers
    of the candidates, none of which has that pair. *)
Theorem merge_keeps_primary_identifier (pid : string) (P : Conversation)
    (cs : list Conversation) (w : World) (t v : string) (id : Identifier) :
  store w !! pid = Some P ->
  stored t v (identifiers P) = Some id ->
  exists r w',
    mergeConversations (E := E) pid cs w = (Ok r, w')
    /\ stored t v (identifiers (mr_conversation r)) = Some id
    /\ exists added,
         identifiers (mr_conversation r) = identifiers P ++ added
         /\ Forall (fun x => x ∈ candidate_identifiers cs /\ ~ same_pair t v x)
              added.
Proof.
  intros Hp Hs.
  assert (Hne : identifiers P <> []).
  { intros Hnil. rewrite Hnil in Hs. discriminate Hs. }
  destruct (merge_run pid P cs w Hp Hne) as (pc & w' & Hrun & Hpc & _).
  eexists _, w'. split; [exact Hrun|]. simpl.
  assert (Hids : identifiers pc
                 = foldl add_unique_identifier (identifiers P)
                     (candidate_identifiers cs)).
  { destruct Hpc as [->|[s ->]]; reflexivity. }
  rewrite Hids. split; [now apply add_unique_identifier_stored|].
  destruct (add_unique_identifier_extends (identifiers P) (candidate_identifiers cs))
    as (added & Heq & Hall).
  exists added. split; [exact Heq|].
  eapply Forall_impl; [exact Hall|]. intros x [Hx Hn].
  split; [exact Hx|]. intros [Ht Hv]. apply Hn. rewrite Ht, Hv.
  now apply (stored_pair_elem t v id).
Qed.

(** C9.  If summary generation fails during a merge -- no client, a backend
    error, a reply without text, or a last message without an id -- the
    merge still resolves with its normal result, and the conversation it
    returns and saves carries the primary's previous summary. *)
Theorem merge_survives_summary_failure (pid : string) (P : Conversation)
    (cs : list Conversation) (w : World) :
  store w !! pid = Some P ->
  conv_id P = pid ->
  identifiers P <> [] ->
  pid ∉ map conv_id cs ->
  (forall w1, summary_fails (E := E) (merged_base (clock w) P cs) w1) ->
  exists r w',
    mergeConversations (E := E) pid cs w = (Ok r, w')
    /\ mr_conversation r = merged_base (clock w) P cs
    /\ mergedCount r = length cs
    /\ mergedMessages r = length (concat (map messages cs))
    /\ summary (mr_conversation r) = summary P
    /\ store w' !! pid = Some (mr_conversation r).
Proof.
  intros Hp Hid Hne Hnotin Hf.
  destruct (merge_run_without_summary pid P cs w Hp Hne Hf) as (w' & Hrun & Hst).
  eexists _, w'. split; [exact Hrun|]. simpl.
  repeat split; try reflexivity.
  rewrite Hst. unfold store_after_merge.
  rewrite lookup_foldr_delete_notin by exact Hnotin.
  simpl. rewrite Hid. apply lookup_insert_eq.
Qed.

End InMemoryMerge.

(** ** Concrete merges *)

Section ConcreteMerges.

Local Abbreviation primary_phone := (Ex.identifier "phone" "07911123456" 10 false).
Local Abbreviation candidate_phone := (Ex.identifier "phone" "07911123456" 70 true).

(** C1, counterexample.  The primary and the candidate both hold the
    message [hello]; the merged list holds it twice, while the
    de-duplicated union of the specification holds it once. *)
Lemma merge_repeats_shared_message :
  messages <$> merged_of (mergeConversations (E := Ex.env) "p" [Ex.candidate] Ex.world)
  = Some [Ex.hello; Ex.hello; Ex.invoice; Ex.thanks; Ex.reply; Ex.welcome]
  /\ spec_merged_messages Ex.primary [Ex.candidate]
     = [Ex.hello; Ex.invoice; Ex.thanks; Ex.reply; Ex.welcome]
  /\ messages <$> merged_of (mergeConversations (E := Ex.env) "p" [Ex.candidate] Ex.world)
     <> Some (spec_merged_messages Ex.primary [Ex.candidate]).
Proof.
  split; [vm_compute; reflexivity|]. split; [vm_compute; reflexivity|].
  vm_compute. discriminate.
Qed.

Lemma merge_messages_sorted_concatenation_witness :
  exists r w',
    mergeConversations (E := Ex.env) "p" [Ex.candidate] Ex.world = (Ok r, w')
    /\ messages (mr_conversation r)
       = JS.sort by_timestamp (all_input_messages Ex.primary [Ex.candidate])
    /\ Permutation (messages (mr_conversation r))
         (all_input_messages Ex.primary [Ex.candidate])
    /\ ascending msg_timestamp (messages (mr_conversation r))
    /\ forall t,
         with_key msg_timestamp t (messages (mr_conversation r))
         = with_key msg_timestamp t (all_input_messages Ex.primary [Ex.candidate]).
Proof.
  apply (merge_messages_sorted_concatenation
           (Config.default "You are a helpful assistant." []) Ex.backend_down
           (Some (Some Ex.backend_down)) Ex.search_none Ex.format_none
           "p" Ex.primary [Ex.candidate] Ex.world).
  - vm_compute; reflexivity.
  - discriminate.
Defined.

(** C2, counterexample.  One merge leaves six messages; the same merge run
    a second time leaves ten. *)
Lemma merge_twice_grows :
  message_count_of (mergeConversations (E := Ex.env) "p" [Ex.candidate] Ex.world)
  = Some 6%nat
  /\ message_count_of (merge_twice (E := Ex.env) "p" [Ex.candidate] Ex.world)
     = Some 10%nat
  /\ message_count_of (merge_twice (E := Ex.env) "p" [Ex.candidate] Ex.world)
     <> message_count_of
          (mergeConversations (E := Ex.env) "p" [Ex.candidate] Ex.world).
Proof.
  split; [vm_compute; reflexivity|]. split; [vm_compute; reflexivity|].
  vm_compute. discriminate.
Qed.

Lemma merge_twice_message_count_witness :
  exists r1 w1 r2 w2,
    mergeConversations (E := Ex.env) "p" [Ex.candidate] Ex.world = (Ok r1, w1)
    /\ mergeConversations (E := Ex.env) "p" [Ex.candidate] w1 = (Ok r2, w2)
    /\ length (messages (mr_conversation r2))
       = (length (messages (mr_conversation r1))
          + length (concat (map messages [Ex.candidate])))%nat
    /\ identifiers (mr_conversation r2) = identifiers (mr_conversation r1).
Proof.
  apply (merge_twice_message_count
           (Config.default "You are a helpful assistant." []) Ex.backend_down
           (Some (Some Ex.backend_down)) Ex.search_none Ex.format_none
           "p" Ex.primary [Ex.candidate] Ex.world).
  - vm_compute; reflexivity.
  - reflexivity.
  - discriminate.
  - intros Hin. apply list_elem_of_singleton in Hin. discriminate Hin.
Defined.

(** C7, counterexample.  The candidate holds the primary's phone pair
    verified at priority 70; the merged conversation still stores it
    unverified at priority 10. *)
Lemma merge_does_not_upgrade_identifier :
  (stored "phone" "07911123456" ∘ identifiers)
    <$> merged_of (mergeConversations (E := Ex.env) "p" [Ex.candidate] Ex.world)
  = Some (Some primary_phone)
  /\ ~ spec_merged_pair primary_phone candidate_phone primary_phone.
Proof.
  split; [vm_compute; reflexivity|].
  intros [Hp _]. vm_compute in Hp. discriminate Hp.
Qed.

Lemma merge_keeps_primary_identifier_witness :
  exists r w',
    mergeConversations (E := Ex.env) "p" [Ex.candidate] Ex.world = (Ok r, w')
    /\ stored "phone" "07911123456" (identifiers (mr_conversation r))
       = Some primary_phone
    /\ exists added,
         identifiers (mr_conversation r) = identifiers Ex.primary ++ added
         /\ Forall (fun x => x ∈ candidate_identifiers [Ex.candidate]
                             /\ ~ same_pair "phone" "07911123456" x) added.
Proof.
  apply (merge_keeps_primary_identifier
           (Config.default "You are a helpful assistant." []) Ex.backend_down
           (Some (Some Ex.backend_down)) Ex.search_none Ex.format_none
           "p" Ex.primary [Ex.candidate] Ex.world).
  - vm_compute; reflexivity.
  - vm_compute; reflexivity.
Defined.

Lemma merge_survives_summary_failure_witness :
  exists r w',
    mergeConversations (E := Ex.env) "p" [Ex.candidate] Ex.world = (Ok r, w')
    /\ mr_conversation r = merged_base 100 Ex.primary [Ex.candidate]
    /\ mergedCount r = 1%nat
    /\ mergedMessages r = 4%nat
    /\ summary (mr_conversation r) = Some Ex.old_summary
    /\ InMemory.store w' !! "p" = Some (mr_conversation r).
Proof.
  apply (merge_survives_summary_failure
           (Config.default "You are a helpful assistant." []) Ex.backend_down
           (Some (Some Ex.backend_down)) Ex.search_none Ex.format_none
           "p" Ex.primary [Ex.candidate] Ex.world).
  - vm_compute; reflexivity.
  - reflexivity.
  - discriminate.
  - intros Hin. apply list_elem_of_singleton in Hin. discriminate Hin.
  - intros w1.
    apply (fails_backend_error _ _ (fun req => lift (Ex.backend_down req))
             (mkError "503 Service Unavailable" None) w1); reflexivity.
Defined.

End ConcreteMerges.

(** ** Rules for computations *)

Section MonadRules.

Context {W : Type}.

Lemma returns_ret {A} (P : A -> Prop) (a : A) : P a -> returns P (ret a : M W A).
Proof. intros Hp w a' w' Heq. inversion Heq; subst. exact Hp. Qed.

Lemma returns_throw {A} (P : A -> Prop) (e : Error) : returns P (throw e : M W A).
Proof. intros w a w' Heq. discriminate Heq. Qed.

Lemma returns_lift {A} (P : A -> Prop) (r : exn A) :
  (forall a, r = Ok a -> P a) -> returns P (lift r : M W A).
Proof. intros Hp w a w' Heq. inversion Heq; subst. now apply Hp. Qed.

Lemma returns_bind {A B} (Q : A -> Prop) (P : B -> Prop) (m : M W A)
    (k : A -> M W B) :
  returns Q m -> (forall a, Q a -> returns P (k a)) -> returns P (JS.bind m k).
Proof.
  intros Hm Hk w b w' Heq. unfold JS.bind in Heq.
  destruct (m w) as [[a|e] w1] eqn:Hmw; [|discriminate].
  exact (Hk a (Hm _ _ _ Hmw) _ _ _ Heq).
Qed.

Lemma returns_bind_any {A B} (P : B -> Prop) (m : M W A) (k : A -> M W B) :
  (forall a, returns P (k a)) -> returns P (JS.bind m k).
Proof.
  intros Hk. apply (returns_bind (fun _ => True)); [now intros w a w' _|auto].
Qed.

Lemma returns_try_catch {A} (P : A -> Prop) (body : M W A) (handler : Error -> M W A) :
  returns P body -> (forall e, returns P (handler e)) ->
  returns P (try_catch body handler).
Proof.
  intros Hb Hh w a w' Heq. unfold try_catch in Heq.
  destruct (body w) as [[a0|e] w1] eqn:Hbw.
  - inversion Heq; subst. exact (Hb _ _ _ Hbw).
  - exact (Hh e _ _ _ Heq).
Qed.

Lemma returns_weaken {A} (P Q : A -> Prop) (m : M W A) :
  returns P m -> (forall a, P a -> Q a) -> returns Q m.
Proof. intros Hm Hpq w a w' Heq. exact (Hpq _ (Hm _ _ _ Heq)). Qed.

Lemma resolves_ret {A} (P : A -> Prop) (a : A) : P a -> resolves P (ret a : M W A).
Proof. intros Hp w. exists a, w. now split. Qed.

Lemma resolves_bind {A B} (Q : A -> Prop) (P : B -> Prop) (m : M W A)
    (k : A -> M W B) :
  resolves Q m -> (forall a, Q a -> resolves P (k a)) -> resolves P (JS.bind m k).
Proof.
  intros Hm Hk w. destruct (Hm w) as (a & w1 & Hmw & Hq).
  destruct (Hk a Hq w1) as (b & w2 & Hkw & Hp).
  exists b, w2. unfold JS.bind. rewrite Hmw. now split.
Qed.

(** A [try { body } catch { handler }] resolves when its handler does. *)
Lemma resolves_try_catch {A} (P : A -> Prop) (body : M W A)
    (handler : Error -> M W A) :
  returns P body -> (forall e, resolves P (handler e)) ->
  resolves P (try_catch body handler).
Proof.
  intros Hb Hh w. unfold try_catch.
  destruct (body w) as [[a|e] w1] eqn:Hbw.
  - exists a, w1. split; [reflexivity|]. exact (Hb _ _ _ Hbw).
  - apply Hh.
Qed.

Lemma resolves_weaken {A} (P Q : A -> Prop) (m : M W A) :
  resolves P m -> (forall a, P a -> Q a) -> resolves Q m.
Proof.
  intros Hm Hpq w. destruct (Hm w) as (a & w' & Heq & Hp).
  exists a, w'. split; auto.
Qed.

Lemma resolves_returns {A} (P Q : A -> Prop) (m : M W A) :
  resolves P m -> returns Q m -> resolves (fun a => P a /\ Q a) m.
Proof.
  intros Hm Hq w. destruct (Hm w) as (a & w' & Heq & Hp).
  exists a, w'. split; [assumption|]. split; [assumption|]. exact (Hq _ _ _ Heq).
Qed.

Lemma Date_now_resolves {E : Env W} : resolves (fun _ => True) (Date_now (E := E)).
Proof.
  intros w. unfold Date_now. destruct (clock_read w) as [d w'].
  exists d, w'. now split.
Qed.

End MonadRules.

(** ** Arrays and strings *)

Section Arrays.

Lemma slice_from_last {A} (n : nat) (xs : list A) :
  (0 < n)%nat ->
  slice_from (- Z.of_nat n) xs = drop (length xs - n) xs.
Proof.
  intros Hn. unfold slice_from.
  destruct (Z.ltb_spec (- Z.of_nat n) 0) as [_|Hge]; [|lia].
  f_equal. lia.
Qed.

Lemma or_else_nonempty (a b : string) : b <> "" -> or_else a b <> "".
Proof.
  intros Hb. unfold or_else, truthy.
  destruct (String.eqb_spec a ""); simpl; assumption.
Qed.

End Arrays.

(** ** Context assembly *)

Section ContextAssembly.

Context {R : Runtime} {W : Type} {E : Env W}.

(** C3.  With summaries enabled, the default window of 20 and a non-empty
    summary text, the history is one system turn whose content is the
    summary text between its fixed heading and closing sentence, followed by
    the last 20 messages of the conversation as they are; the input of the
    request is the system prompt, then that history, then the current user
    message, last.  For a conversation of 25 messages the history has
    1 + 20 entries and the input, after the system prompt, 1 + 20 + 1.  The
    summary's last-message pointer plays no part: the history is the same
    whatever it is. *)
Theorem context_is_summary_then_last_twenty (conversation : Conversation)
    (text message : string) (userInfo : option UserInfo) :
  Config.enabled (Config.summary config) = true ->
  number_or (Config.recentMessageCount (Config.summary config)) 20 = 20 ->
  summary_text conversation = Some text ->
  let recent :=
    drop (length (messages conversation) - 20) (messages conversation) in
  messageHistory conversation
  = {| h_role := "system";
       h_content :=
         "CONVERSATION SUMMARY: " +:+ text +:+ Text.newline +:+ Text.newline
         +:+ "The above is a summary of previous messages. The following are the most recent messages." |}
    :: map (fun msg => {| h_role := msg_role msg; h_content := msg_content msg |})
         recent
  /\ (exists systemPrompt,
        processMessage_input message (messageHistory conversation) userInfo
        = Turn "system" (JStr systemPrompt)
          :: Turn "system"
               (JStr ("CONVERSATION SUMMARY: " +:+ text +:+ Text.newline
                      +:+ Text.newline
                      +:+ "The above is a summary of previous messages. The following are the most recent messages."))
          :: map (fun msg => Turn (msg_role msg) (JStr (msg_content msg))) recent
          ++ [Turn "user" (JStr message)])
  /\ (length (messages conversation) = 25%nat ->
      length (messageHistory conversation) = (1 + 20)%nat
      /\ length (processMessage_input message (messageHistory conversation) userInfo)
         = S (1 + 20 + 1))
  /\ (forall pointer : option string,
        messageHistory (with_summary_pointer pointer conversation)
        = messageHistory conversation).
Proof.
  intros Hen Hcount Htext recent.
  assert (Hh : messageHistory conversation
               = summary_turn text :: map history_turn recent).
  { unfold messageHistory. rewrite Hen, Htext, Hcount.
    simpl. do 2 f_equal. apply (slice_from_last 20). lia. }
  assert (Hinput : exists systemPrompt,
             processMessage_input message (messageHistory conversation) userInfo
             = Turn "system" (JStr systemPrompt)
               :: map (fun msg => turn (h_role msg) (h_content msg))
                    (summary_turn text :: map history_turn recent)
               ++ [Turn "user" (JStr message)]).
  { eexists. unfold processMessage_input. rewrite Hh. reflexivity. }
  destruct Hinput as (systemPrompt & Hinput).
  split; [exact Hh|]. split; [|split].
  - exists systemPrompt. rewrite Hinput. cbn [map app]. rewrite map_map.
    reflexivity.
  - intros Hlen. split.
    + rewrite Hh. subst recent. cbn [length].
      rewrite length_map, length_drop, Hlen. reflexivity.
    + rewrite Hinput. subst recent. cbn [length map app].
      rewrite length_app, length_map, length_map, length_drop, Hlen. reflexivity.
  - intros pointer. unfold messageHistory, summary_text, with_summary_pointer.
    cbn [summary set_summary messages]. now destruct (summary conversation).
Qed.

End ContextAssembly.

(** ** Phone numbers across the two channels *)

Section PhoneMatching.

Import InMemory.

Lemma find_spec (q : Query) (w : World) (c : Conversation) :
  c ∈ documents w -> Query_matches q c = true ->
  exists found, find q w = (Ok found, w) /\ c ∈ found.
Proof.
  intros Hin Hq. eexists. split; [reflexivity|].
  apply list_elem_of_In, filter_In. split; [now apply list_elem_of_In|assumption].
Qed.

Lemma has_identifier_intro (p : Identifier -> bool) (c : Conversation)
    (id : Identifier) :
  id ∈ identifiers c -> p id = true -> has_identifier p c = true.
Proof.
  intros Hin Hp. unfold has_identifier. apply existsb_exists.
  exists id. split; [now apply list_elem_of_In|assumption].
Qed.

(** C8.  The messaging-channel value +447911123456 and the browser-channel
    value 07911123456: their variation sets share a member, both reduce to
    the matching key 911123456, and each lookup the code issues from one
    value -- the tool's suffix search for WhatsApp conversations, the
    automatic merge's suffix search for browser conversations, and the
    search by variations -- selects a stored conversation that holds the
    other value. *)
Theorem phone_formats_meet_across_channels :
  let messaging := "+447911123456" in
  let browser := "07911123456" in
  generatePhoneVariations messaging
  = ["+447911123456"; "447911123456"; "07911123456"]
  /\ generatePhoneVariations browser = ["07911123456"; "+447911123456"]
  /\ (exists v, v ∈ generatePhoneVariations messaging
                /\ v ∈ generatePhoneVariations browser)
  /\ matchDigits messaging = "911123456"
  /\ matchDigits browser = "911123456"
  /\ (forall (w : World) (current : string) (c : Conversation) (id : Identifier),
        c ∈ documents w -> conv_id c <> current -> id ∈ identifiers c ->
        id_type id = "whatsapp_phone" -> id_value id = messaging ->
        (exists found,
            find (previousConversations_query browser current) w = (Ok found, w)
            /\ c ∈ found)
        /\ (exists found,
               find (QPhoneVariations (generatePhoneVariations browser)
                       (Some current)) w = (Ok found, w)
               /\ c ∈ found))
  /\ (forall (w : World) (current : string) (c : Conversation) (id : Identifier),
        c ∈ documents w -> conv_id c <> current -> id ∈ identifiers c ->
        id_type id = "phone" -> id_value id = browser ->
        (exists found,
            find (autoMerge_query messaging current) w = (Ok found, w)
            /\ c ∈ found)
        /\ (exists found,
               find (QPhoneVariations (generatePhoneVariations messaging)
                       (Some current)) w = (Ok found, w)
               /\ c ∈ found)).
Proof.
  intros messaging browser.
  split; [vm_compute; reflexivity|]. split; [vm_compute; reflexivity|].
  split.
  { exists "07911123456". split; vm_compute; repeat constructor. }
  split; [vm_compute; reflexivity|]. split; [vm_compute; reflexivity|].
  assert (Hcur : forall (c : Conversation) current,
             conv_id c <> current -> negb (String.eqb (conv_id c) current) = true).
  { intros c current Hne. apply negb_true_iff, String.eqb_neq. exact Hne. }
  split.
  - intros w current c id Hin Hne Hid Ht Hv. split.
    + apply find_spec; [assumption|]. simpl. rewrite (Hcur _ _ Hne). simpl.
      apply (has_identifier_intro _ _ id Hid). rewrite Ht, Hv.
      vm_compute; reflexivity.
    + apply find_spec; [assumption|]. simpl. rewrite (Hcur _ _ Hne). simpl.
      change (generatePhoneVariations browser)
        with ["07911123456"; "+447911123456"].
      simpl. apply orb_true_iff. right. apply orb_true_iff. left.
      apply (has_identifier_intro _ _ id Hid). rewrite Ht, Hv.
      vm_compute; reflexivity.
  - intros w current c id Hin Hne Hid Ht Hv. split.
    + apply find_spec; [assumption|]. simpl. rewrite (Hcur _ _ Hne). simpl.
      apply (has_identifier_intro _ _ id Hid). rewrite Ht, Hv.
      vm_compute; reflexivity.
    + apply find_spec; [assumption|]. simpl. rewrite (Hcur _ _ Hne). simpl.
      change (generatePhoneVariations messaging)
        with ["+447911123456"; "447911123456"; "07911123456"].
      simpl. apply orb_true_iff. right. apply orb_true_iff. right.
      apply orb_true_iff. left.
      apply (has_identifier_intro _ _ id Hid). rewrite Ht, Hv.
      vm_compute; reflexivity.
Qed.

End PhoneMatching.

(** ** The tool executor *)

Section ExecuteTool.

Context {R : Runtime} {W : Type} {E : Env W}.

Lemma returns_true {A} (m : M W A) : returns (fun _ => True) m.
Proof. now intros w a w' _. Qed.

Lemma getCurrentTime_value (args : json) (context : ToolContext) :
  resolves is_value (getCurrentTime args context).
Proof.
  unfold getCurrentTime.
  apply (resolves_bind (fun _ => True)); [apply Date_now_resolves|].
  intros now _. destruct (Date_toLocaleString _ _);
    apply resolves_ret; eexists; reflexivity.
Qed.

Lemma queryKnowledgeBase_value (args : json) (context : ToolContext) :
  resolves is_value (queryKnowledgeBase args context).
Proof.
  unfold queryKnowledgeBase. apply resolves_try_catch.
  - apply returns_bind_any. intros blank.
    apply returns_bind_any. intros items.
    apply returns_bind_any. intros formatted.
    apply returns_ret. eexists; reflexivity.
  - intros e. apply resolves_ret. eexists; reflexivity.
Qed.

Lemma searchPreviousConversations_value (args : json) (context : ToolContext) :
  resolves is_value (searchPreviousConversations args context).
Proof.
  unfold searchPreviousConversations. apply resolves_try_catch.
  - destruct (JsonText.get "phoneNumber" args) as [[| | | |phoneNumber| |]|];
      try apply returns_throw.
    destruct (_ <? _)%nat; [apply returns_ret; eexists; reflexivity|].
    destruct (ctx_conversationId context) as [current|];
      [|apply returns_ret; eexists; reflexivity].
    apply returns_bind_any. intros [|first rest].
    + apply returns_bind_any. intros _. apply returns_ret. eexists; reflexivity.
    + apply returns_bind_any. intros mergeResult.
      apply returns_ret. eexists; reflexivity.
  - intros e. apply resolves_ret. eexists; reflexivity.
Qed.

Lemma toolRegistry_handlers (name : string) (handler : @Handler W) :
  toolRegistry !! name = Some handler ->
  forall args context, resolves is_value (handler args context).
Proof.
  unfold toolRegistry, registerTool, Registry. intros Hl args context.
  rewrite !lookup_insert in Hl.
  repeat case_decide; try discriminate Hl; inversion Hl; subst handler.
  - apply searchPreviousConversations_value.
  - apply queryKnowledgeBase_value.
  - apply getCurrentTime_value.
Qed.

(** With any registry, [executeTool] resolves to a string. *)
Lemma executeTool_resolves (registry : @Registry W) (toolCall : FunctionCall)
    (context : ToolContext) :
  resolves (fun _ => True) (executeTool registry toolCall context).
Proof.
  unfold executeTool. cbv zeta.
  apply resolves_try_catch; [apply returns_true|].
  intros e. now apply resolves_ret.
Qed.

(** With the registered tools, the string is JSON text. *)
Lemma executeTool_json (toolCall : FunctionCall) (context : ToolContext) :
  resolves is_json_text (executeTool toolRegistry toolCall context).
Proof.
  unfold executeTool. cbv zeta. apply resolves_try_catch.
  - destruct (toolRegistry !! fc_name toolCall) as [handler|] eqn:Hl;
      [|apply returns_ret; eexists; reflexivity].
    destruct (parse_arguments _) as [parsed|parseError];
      [|apply returns_ret; eexists; reflexivity].
    destruct (is_arguments_object parsed) as [args|];
      [|apply returns_ret; eexists; reflexivity].
    destruct (validateToolArguments _ args);
      [apply returns_ret; eexists; reflexivity|].
    apply (returns_bind is_value).
    + intros w r w' Hrun.
      destruct (toolRegistry_handlers _ _ Hl args context w) as (r' & w'' & Hr & Hv).
      rewrite Hr in Hrun. inversion Hrun; subst. exact Hv.
    + intros r [j ->]. apply returns_ret. eexists; reflexivity.
  - intros e. apply resolves_ret. eexists; reflexivity.
Qed.

(** C10.  [executeTool] never throws: with any registry it resolves to a
    string, and with the registered tools the string is JSON text.  A name
    without a handler gives the envelope with code UNKNOWN_TOOL; an
    arguments string [JSON.parse] rejects gives INVALID_ARGUMENTS; parsed
    arguments that are not an object give INVALID_ARGUMENTS_STRUCTURE; in
    these three cases the world is left as it was, whatever the handler. *)
Theorem executeTool_never_throws (registry : @Registry W) (toolCall : FunctionCall)
    (context : ToolContext) (w : W) :
  (exists s w', executeTool registry toolCall context w = (Ok s, w'))
  /\ (exists s w',
         executeTool toolRegistry toolCall context w = (Ok s, w')
         /\ is_json_text s)
  /\ (registry !! fc_name toolCall = None ->
      executeTool registry toolCall context w
      = (Ok (JSON_stringify (unknown_tool (fc_name toolCall))), w)
      /\ JsonText.get "code" (unknown_tool (fc_name toolCall))
         = Some (JStr "UNKNOWN_TOOL"))
  /\ (forall (handler : @Handler W) (s : string) (parseError : Error),
         registry !! fc_name toolCall = Some handler ->
         fc_arguments toolCall = ArgString s ->
         JSON_parse s = Throw parseError ->
         executeTool registry toolCall context w
         = (Ok (JSON_stringify (invalid_arguments parseError)), w)
         /\ JsonText.get "code" (invalid_arguments parseError)
            = Some (JStr "INVALID_ARGUMENTS"))
  /\ (forall (handler : @Handler W) (parsed : option json),
         registry !! fc_name toolCall = Some handler ->
         parse_arguments (fc_arguments toolCall) = Ok parsed ->
         is_arguments_object parsed = None ->
         executeTool registry toolCall context w
         = (Ok (JSON_stringify invalid_arguments_structure), w)
         /\ JsonText.get "code" invalid_arguments_structure
            = Some (JStr "INVALID_ARGUMENTS_STRUCTURE")).
Proof.
  split.
  { destruct (executeTool_resolves registry toolCall context w) as (s & w' & Hs & _).
    now eauto. }
  split.
  { destruct (executeTool_json toolCall context w) as (s & w' & Hs & Hj).
    now eauto. }
  split.
  { intros Hl. split; [|reflexivity].
    unfold executeTool, try_catch, Handler in *. cbv zeta. now rewrite Hl. }
  split.
  { intros handler s parseError Hl Ha Hp. split; [|reflexivity].
    unfold executeTool, try_catch, parse_arguments, Handler in *. cbv zeta.
    now rewrite Hl, Ha, Hp. }
  intros handler parsed Hl Hp Ho. split; [|reflexivity].
  unfold executeTool, try_catch, Handler in *. cbv zeta.
  now rewrite Hl, Hp, Ho.
Qed.

End ExecuteTool.

(** ** The round trip through the tools *)

Section RoundTrip.

Context {R : Runtime} {W : Type} {E : Env W}.

(** A function call always leaves a result: the executor's string, or the
    error envelope when the executor threw. *)
Lemma run_function_call_spec (toolExecutor : FunctionCall -> M W string)
    (functionCall : FunctionCall) (w : W) :
  run_function_call toolExecutor functionCall w
  = (Ok {| fr_call_id := fc_call_id functionCall;
           fr_name := fc_name functionCall;
           fr_result := recorded_result (toolExecutor functionCall w).1 |},
     (toolExecutor functionCall w).2).
Proof.
  unfold run_function_call, try_catch, JS.bind, ret.
  destruct (toolExecutor functionCall w) as [[s|e] w']; reflexivity.
Qed.

Lemma map_all_resolves (toolExecutor : FunctionCall -> M W string)
    (functionCalls : list FunctionCall) :
  resolves (fun _ => True) (map_all (run_function_call toolExecutor) functionCalls).
Proof.
  induction functionCalls as [|fc rest IH]; simpl.
  - now apply resolves_ret.
  - apply (resolves_bind (fun _ => True)).
    + intros w. rewrite run_function_call_spec. now eauto.
    + intros y _. apply (resolves_bind (fun _ => True)); [exact IH|].
      intros ys _. now apply resolves_ret.
Qed.

Lemma error_fallback_resolves (error : Error) :
  resolves (fun final => extractResponseText final = error_fallback_text)
    (error_fallback error).
Proof.
  unfold error_fallback.
  apply (resolves_bind (fun _ => True)); [apply Date_now_resolves|].
  intros now _. apply resolves_ret. reflexivity.
Qed.

Lemma processFunctionCalls_resolves (response : Response)
    (toolExecutor : FunctionCall -> M W string) :
  resolves (fun _ => True) (processFunctionCalls response toolExecutor).
Proof.
  unfold processFunctionCalls.
  apply resolves_try_catch; [now intros w a w' _|].
  intros e. eapply resolves_weaken; [apply error_fallback_resolves|auto].
Qed.







End RoundTrip.

(** ** The terminal reply of a messaging-channel turn *)

Section TerminalReply.

Context {R : Runtime} {W : Type} {E : Env W}.

Lemma terminal_reply_nonempty (reply : string) : terminal_reply reply -> reply <> "".
Proof.
  intros [->|[->|[response ->]]]; [discriminate|discriminate|].
  apply or_else_nonempty. discriminate.
Qed.

Lemma responses_create_rejects (req : Request) :
  backend_always_fails -> returns (fun _ => False) (responses_create req).
Proof.
  intros Hfail w a w' Heq. destruct (Hfail req w) as (e & w1 & Hthrow).
  rewrite Hthrow in Heq. discriminate Heq.
Qed.

Lemma processMessage_rejects (message : string) (history : list HistoryTurn)
    (userInfo : option UserInfo) (previousResponseId : option string)
    (tools : list json) :
  backend_always_fails ->
  returns (fun _ => False)
    (processMessage message history userInfo previousResponseId tools).
Proof.
  intros Hfail. unfold processMessage. apply returns_try_catch.
  - now apply responses_create_rejects.
  - intros e. apply returns_throw.
Qed.

(** Every turn resolves with one of the terminal replies. *)
Lemma processWhatsAppMessage_terminal (registry : @Registry W) (from message : string) :
  resolves terminal_reply (processWhatsAppMessage registry from message).
Proof.
  unfold processWhatsAppMessage. apply resolves_try_catch.
  - destruct (formatPhoneToE164 from) as [cleanPhoneNumber|];
      [|apply returns_ret; now left].
    destruct (negb (truthy cleanPhoneNumber)); [apply returns_ret; now left|].
    do 4 (apply returns_bind_any; intros ?). cbv zeta.
    apply returns_bind_any. intros openaiResponse.
    apply returns_bind_any. intros final.
    do 2 (apply returns_bind_any; intros ?).
    apply returns_ret. right. right. eexists. reflexivity.
  - intros e. apply resolves_ret. right. now left.
Qed.

(** When the backend rejects every request, the reply is a fixed text. *)
Lemma processWhatsAppMessage_backend_down (registry : @Registry W)
    (from message : string) :
  backend_always_fails ->
  resolves (fun reply => reply = sender_issue_reply \/ reply = error_reply)
    (processWhatsAppMessage registry from message).
Proof.
  intros Hfail. unfold processWhatsAppMessage. apply resolves_try_catch.
  - destruct (formatPhoneToE164 from) as [cleanPhoneNumber|];
      [|apply returns_ret; now left].
    destruct (negb (truthy cleanPhoneNumber)); [apply returns_ret; now left|].
    do 4 (apply returns_bind_any; intros ?). cbv zeta.
    eapply returns_bind; [now apply processMessage_rejects|].
    intros openaiResponse [].
  - intros e. apply resolves_ret. now right.
Qed.

Lemma processFunctionCalls_backend_down (response : Response)
    (toolExecutor : FunctionCall -> M W string) (item : OutputItem)
    (rest : list OutputItem) :
  backend_always_fails ->
  resp_output response = Some (item :: rest) ->
  resolves (fun final => extractResponseText final = error_fallback_text)
    (processFunctionCalls response toolExecutor).
Proof.
  intros Hfail Hout. unfold processFunctionCalls. rewrite Hout.
  apply resolves_try_catch; [|apply error_fallback_resolves].
  apply returns_bind_any. intros functionResults. unfold sendFollowUp.
  eapply returns_bind; [now apply responses_create_rejects|].
  intros finalResponse [].
Qed.

End TerminalReply.

(** ** Concrete turns *)

Section ConcreteTurns.

#[local] Existing Instance Ex.runtime.

Lemma context_is_summary_then_last_twenty_witness :
  let recent := drop (25 - 20) (messages Ex.long_conversation) in
  messageHistory (E := Ex.env) Ex.long_conversation
  = {| h_role := "system";
       h_content :=
         "CONVERSATION SUMMARY: asked about an invoice" +:+ Text.newline
         +:+ Text.newline
         +:+ "The above is a summary of previous messages. The following are the most recent messages." |}
    :: map (fun msg => {| h_role := msg_role msg; h_content := msg_content msg |})
         recent
  /\ length (messageHistory (E := Ex.env) Ex.long_conversation) = (1 + 20)%nat
  /\ length (processMessage_input (E := Ex.env) "where is my invoice"
               (messageHistory (E := Ex.env) Ex.long_conversation) None)
     = S (1 + 20 + 1)
  /\ messageHistory (E := Ex.env)
       (with_summary_pointer (Some "m17") Ex.long_conversation)
     = messageHistory (E := Ex.env) Ex.long_conversation.
Proof.
  destruct (context_is_summary_then_last_twenty (E := Ex.env) Ex.long_conversation
              "asked about an invoice" "where is my invoice" None
              eq_refl eq_refl eq_refl)
    as (Hhistory & _ & Hcount & Hpointer).
  destruct (Hcount eq_refl) as (Hh & Hi).
  split; [exact Hhistory|]. split; [exact Hh|]. split; [exact Hi|].
  exact (Hpointer (Some "m17")).
Defined.

(** The window is the same wherever the summary's pointer falls. *)
Example context_ignores_summary_pointer :
  forall pointer : option string,
    messageHistory (E := Ex.env)
      (set_summary
         (Some {| sum_text := Some "asked about an invoice"; sum_createdAt := 1;
                  sum_lastMessageId := pointer; sum_messageCount := 5;
                  sum_modelUsed := None |})
         Ex.long_conversation)
    = messageHistory (E := Ex.env) Ex.long_conversation.
Proof. intros pointer. reflexivity. Qed.


(** The first handler throws and the second call still runs: the first
    output is the error envelope, the second the clock's answer. *)
Example thrown_handler_is_an_envelope :
  JSON_parse "{}" = Ok (JObj [])
  /\ JsonText.get "error"
       (execution_error (mkError "tool exploded" None)) = Some (JBool true)
  /\ (Ex.executor Ex.call1 Ex.world).1
     = Ok (JSON_stringify (execution_error (mkError "tool exploded" None)))
  /\ (Ex.executor Ex.call2 (Ex.executor Ex.call1 Ex.world).2).1
     = Ok (JSON_stringify
             (JObj [("success", JBool true); ("iso", JStr "100");
                    ("timezone", JStr "Europe/London"); ("formatted", JStr "100");
                    ("user_message", JStr "Current time: 100 (Europe/London)")])).
Proof. repeat split; vm_compute; reflexivity. Qed.


(** A turn on the messaging channel while the backend is down: the sender's
    conversation is found, merged with the browser conversation, and the
    reply is the fixed apology. *)
Example backend_down_turn :
  (processWhatsAppMessage (E := Ex.env) Ex.registry "whatsapp:+447911123456"
     "hi" Ex.world).1
  = Ok "I encountered an error processing your message. Please try again.".
Proof. vm_compute; reflexivity. Qed.

(** A tool call with no handler, and one whose arguments do not parse. *)
Example unknown_tool_and_bad_arguments :
  executeTool Ex.registry
    {| fc_call_id := "call_9"; fc_name := "launchRocket";
       fc_arguments := ArgString "{}" |}
    {| ctx_conversationId := None; ctx_sessionId := None; ctx_userMessage := None |}
    Ex.world
  = (Ok (JSON_stringify (unknown_tool "launchRocket")), Ex.world)
  /\ executeTool Ex.registry
       {| fc_call_id := "call_9"; fc_name := "getCurrentTime";
          fc_arguments := ArgString "{timezone" |}
       {| ctx_conversationId := None; ctx_sessionId := None; ctx_userMessage := None |}
       Ex.world
     = (Ok (JSON_stringify
              (invalid_arguments (SyntaxError "Unexpected token in JSON"))),
        Ex.world).
Proof. split; vm_compute; reflexivity. Qed.

End ConcreteTurns.

(** ** Strings and sets of strings *)

Section StringFacts.

Lemma filter_chars_all (p : ascii -> bool) (s : string) :
  all_chars p s = true -> filter_chars p s = s.
Proof.
  induction s as [|c s IH]; simpl; [reflexivity|].
  intros H. apply andb_true_iff in H as [Hc Hs]. rewrite Hc. f_equal. auto.
Qed.

Lemma all_chars_filter (p : ascii -> bool) (s : string) :
  all_chars p (filter_chars p s) = true.
Proof.
  induction s as [|c s IH]; simpl; [reflexivity|].
  destruct (p c) eqn:Hc; simpl; [now rewrite Hc|assumption].
Qed.

Lemma all_chars_impl (p q : ascii -> bool) (s : string) :
  (forall c, p c = true -> q c = true) ->
  all_chars p s = true -> all_chars q s = true.
Proof.
  intros Hpq. induction s as [|c s IH]; simpl; [reflexivity|].
  intros H. apply andb_true_iff in H as [Hc Hs]. now rewrite (Hpq _ Hc), IH.
Qed.

Lemma filter_chars_length (p : ascii -> bool) (s : string) :
  (String.length (filter_chars p s) <= String.length s)%nat.
Proof.
  induction s as [|c s IH]; simpl; [lia|]. destruct (p c); simpl; lia.
Qed.

Lemma substring_whole (s : string) : String.substring 0 (String.length s) s = s.
Proof. induction s as [|c s IH]; simpl; [reflexivity|]. now rewrite IH. Qed.

Lemma substring_from_cons (n : nat) (c : ascii) (s : string) :
  substring_from (S n) (String c s) = substring_from n s.
Proof. reflexivity. Qed.

Lemma substring_from_0 (s : string) : substring_from 0 s = s.
Proof. unfold substring_from. rewrite Nat.sub_0_r. apply substring_whole. Qed.

Lemma prefix_cons (a b : ascii) (p s : string) :
  String.prefix (String a p) (String b s)
  = if Ascii.eqb a b then String.prefix p s else false.
Proof.
  change (String.prefix (String a p) (String b s))
    with (if ascii_dec a b then String.prefix p s else false).
  destruct (ascii_dec a b) as [->|Hne].
  - now rewrite Ascii.eqb_refl.
  - apply Ascii.eqb_neq in Hne. now rewrite Hne.
Qed.

Lemma existsb_eqb_elem (x : string) (seen : list string) :
  existsb (String.eqb x) seen = true <-> x ∈ seen.
Proof.
  rewrite existsb_exists. split.
  - intros (y & Hin & Heq). apply String.eqb_eq in Heq. subst y.
    now apply list_elem_of_In.
  - intros Hin. exists x. split; [now apply list_elem_of_In|apply String.eqb_refl].
Qed.

Lemma Set_of_spec (xs seen : list string) (x : string) :
  x ∈ Set_of seen xs <-> x ∈ xs /\ x ∉ seen.
Proof.
  revert seen. induction xs as [|a rest IH]; intros seen; simpl.
  - split; [intros H; now apply not_elem_of_nil in H|].
    intros [H _]. now apply not_elem_of_nil in H.
  - destruct (existsb (String.eqb a) seen) eqn:Hseen.
    + apply existsb_eqb_elem in Hseen. rewrite IH, elem_of_cons.
      split; [tauto|]. intros [[->|Hin] Hn]; [contradiction|tauto].
    + assert (Ha : a ∉ seen).
      { intros Hin. apply existsb_eqb_elem in Hin. congruence. }
      rewrite !elem_of_cons, IH, not_elem_of_app, list_elem_of_singleton.
      split.
      * intros [->|(Hin & Hn & Hne)]; tauto.
      * intros [[->|Hin] Hn]; [now left|].
        destruct (decide (x = a)) as [->|Hne]; [now left|right; tauto].
Qed.

Lemma Set_of_NoDup (xs seen : list string) : NoDup (Set_of seen xs).
Proof.
  revert seen. induction xs as [|a rest IH]; intros seen; simpl; [constructor|].
  destruct (existsb (String.eqb a) seen); [apply IH|].
  constructor; [|apply IH].
  rewrite Set_of_spec, not_elem_of_app, list_elem_of_singleton. tauto.
Qed.

End StringFacts.

(** ** Phone numbers: normal form and variations *)

Section PhoneVariations.

(** X1.  [normalizePhoneNumber] keeps digits and [+] only, and normalising a
    normalised number changes nothing. *)
Theorem normalizePhoneNumber_idempotent (phone : string) :
  all_chars is_digit_or_plus (normalizePhoneNumber phone) = true
  /\ normalizePhoneNumber (normalizePhoneNumber phone) = normalizePhoneNumber phone.
Proof.
  assert (Hn : normalizePhoneNumber phone = filter_chars is_digit_or_plus phone).
  { unfold normalizePhoneNumber. destruct phone as [|c s]; [reflexivity|].
    cbn [truthy String.eqb negb]. now destruct (startsWith _ _). }
  rewrite Hn. split; [apply all_chars_filter|].
  assert (Hm : forall s, normalizePhoneNumber s = filter_chars is_digit_or_plus s).
  { intros s. unfold normalizePhoneNumber. destruct s as [|c s]; [reflexivity|].
    cbn [truthy String.eqb negb]. now destruct (startsWith _ _). }
  rewrite Hm. apply filter_chars_all, all_chars_filter.
Qed.

(** The candidates [generatePhoneVariations] collects, before duplicates
    are dropped. *)
Lemma generatePhoneVariations_list (phone : string) :
  let cleaned := filter_chars is_digit phone in
  generatePhoneVariations phone
  = Set_of []
      (phone
       :: (if negb (String.eqb cleaned phone) then [cleaned] else [])
       ++ (if negb (startsWith "+" phone)
           then (if startsWith "0" cleaned && (String.length cleaned =? 11)%nat
                 then ["+44" +:+ substring_from 1 cleaned] else [])
                ++ (if (String.length cleaned =? 10)%nat
                    then ["+1" +:+ cleaned] else [])
           else [])
       ++ (if startsWith "+44" phone && (3 <? String.length phone)%nat
           then ["0" +:+ substring_from 3 phone] else [])
       ++ (if startsWith "+1" phone && (2 <? String.length phone)%nat
           then [substring_from 2 phone] else [])).
Proof.
  intros cleaned. unfold generatePhoneVariations. fold cleaned.
  destruct (negb (String.eqb cleaned phone));
    destruct (negb (startsWith "+" phone));
    destruct (startsWith "0" cleaned && (String.length cleaned =? 11)%nat);
    destruct (String.length cleaned =? 10)%nat;
    destruct (startsWith "+44" phone && (3 <? String.length phone)%nat);
    destruct (startsWith "+1" phone && (2 <? String.length phone)%nat);
    reflexivity.
Qed.

Lemma Set_of_nil_elem (xs : list string) (x : string) :
  x ∈ Set_of [] xs <-> x ∈ xs.
Proof.
  rewrite Set_of_spec. split; [tauto|]. intros H. split; [assumption|].
  apply not_elem_of_nil.
Qed.

(** The variations of a number start with the number itself, as it was
    given, and hold no value twice. *)
Lemma generatePhoneVariations_head_NoDup (phone : string) :
  (exists others, generatePhoneVariations phone = phone :: others)
  /\ NoDup (generatePhoneVariations phone).
Proof.
  split.
  - rewrite generatePhoneVariations_list. simpl. eauto.
  - unfold generatePhoneVariations. apply Set_of_NoDup.
Qed.

(** The rules by which [generatePhoneVariations] adds a value. *)
Lemma variation_uk_national (phone : string) :
  let cleaned := filter_chars is_digit phone in
  startsWith "+" phone = false ->
  startsWith "0" cleaned = true ->
  String.length cleaned = 11%nat ->
  ("+44" +:+ substring_from 1 cleaned) ∈ generatePhoneVariations phone.
Proof.
  intros cleaned Hplus Hzero Hlen.
  rewrite generatePhoneVariations_list, Set_of_nil_elem. fold cleaned.
  rewrite Hplus, Hzero, Hlen. cbn [negb andb Nat.eqb].
  right. apply elem_of_app. right. apply elem_of_app. left.
  apply elem_of_app. left. left.
Qed.

Lemma variation_us_national (phone : string) :
  let cleaned := filter_chars is_digit phone in
  startsWith "+" phone = false ->
  String.length cleaned = 10%nat ->
  ("+1" +:+ cleaned) ∈ generatePhoneVariations phone.
Proof.
  intros cleaned Hplus Hlen.
  rewrite generatePhoneVariations_list, Set_of_nil_elem. fold cleaned.
  rewrite Hplus, Hlen. cbn [negb Nat.eqb].
  right. apply elem_of_app. right. apply elem_of_app. left.
  apply elem_of_app. right. left.
Qed.

Lemma variation_uk_international (phone : string) :
  startsWith "+44" phone = true ->
  (3 < String.length phone)%nat ->
  ("0" +:+ substring_from 3 phone) ∈ generatePhoneVariations phone.
Proof.
  intros Hp Hlen. apply Nat.ltb_lt in Hlen.
  rewrite generatePhoneVariations_list, Set_of_nil_elem.
  rewrite Hp, Hlen. cbn [andb].
  right. apply elem_of_app. right. apply elem_of_app. right.
  apply elem_of_app. left. left.
Qed.

Lemma variation_us_international (phone : string) :
  startsWith "+1" phone = true ->
  (2 < String.length phone)%nat ->
  substring_from 2 phone ∈ generatePhoneVariations phone.
Proof.
  intros Hp Hlen. apply Nat.ltb_lt in Hlen.
  rewrite generatePhoneVariations_list, Set_of_nil_elem.
  rewrite Hp, Hlen. cbn [andb].
  right. apply elem_of_app. right. apply elem_of_app. right.
  apply elem_of_app. right. left.
Qed.

Lemma prefix_empty (s : string) : String.prefix "" s = true.
Proof. now destruct s. Qed.

(** X2.  Round trip between the national and the international form: for a
    national number of ten digits [n], the variations of [0n] hold [+44n] and
    those of [+44n] hold [0n]; the variations of [n] hold [+1n] and those of
    [+1n] hold [n]. *)
Theorem phone_variations_round_trip (n : string) :
  all_chars is_digit n = true ->
  String.length n = 10%nat ->
  ("+44" +:+ n) ∈ generatePhoneVariations ("0" +:+ n)
  /\ ("0" +:+ n) ∈ generatePhoneVariations ("+44" +:+ n)
  /\ ("+1" +:+ n) ∈ generatePhoneVariations n
  /\ n ∈ generatePhoneVariations ("+1" +:+ n).
Proof.
  intros Hd Hl.
  assert (Hc : filter_chars is_digit n = n) by now apply filter_chars_all.
  assert (Hn : startsWith "+" n = false).
  { destruct n as [|c s]; [reflexivity|]. simpl in Hd.
    apply andb_true_iff in Hd as [Hc0 _]. unfold startsWith.
    rewrite prefix_cons.
    destruct (Ascii.eqb_spec "+"%char c) as [<-|_]; [discriminate Hc0|reflexivity]. }
  split; [|split; [|split]].
  - pose proof (variation_uk_national ("0" +:+ n)) as H. cbv zeta in H.
    change (filter_chars is_digit ("0" +:+ n))
      with (String "0" (filter_chars is_digit n)) in H.
    rewrite Hc in H. rewrite substring_from_cons, substring_from_0 in H.
    apply H; [reflexivity|apply prefix_empty|simpl; now rewrite Hl].
  - pose proof (variation_uk_international ("+44" +:+ n)) as H.
    change (substring_from 3 ("+44" +:+ n)) with (substring_from 0 n) in H.
    rewrite substring_from_0 in H.
    apply H; [apply prefix_empty|].
    change (String.length ("+44" +:+ n)) with (S (S (S (String.length n)))). lia.
  - pose proof (variation_us_national n) as H. cbv zeta in H. rewrite Hc in H.
    now apply H.
  - pose proof (variation_us_international ("+1" +:+ n)) as H.
    change (substring_from 2 ("+1" +:+ n)) with (substring_from 0 n) in H.
    rewrite substring_from_0 in H.
    apply H; [apply prefix_empty|].
    change (String.length ("+1" +:+ n)) with (S (S (String.length n))). lia.
Qed.

End PhoneVariations.

Lemma phone_variations_round_trip_witness :
  "+447911123456" ∈ generatePhoneVariations "07911123456"
  /\ "07911123456" ∈ generatePhoneVariations "+447911123456"
  /\ "+17911123456" ∈ generatePhoneVariations "7911123456"
  /\ "7911123456" ∈ generatePhoneVariations "+17911123456".
Proof. apply (phone_variations_round_trip "7911123456"); reflexivity. Defined.

(** ** Identifiers of a conversation *)

Section Identifiers.

Lemma sort_insert_head {A} (cmp : A -> A -> Z) (a : A) (xs : list A) :
  head (sort_insert cmp a xs)
  = match xs with
    | [] => Some a
    | x :: _ => if cmp a x <=? 0 then Some a else Some x
    end.
Proof.
  destruct xs as [|x rest]; simpl; [reflexivity|]. now destruct (_ <=? _).
Qed.

Lemma sort_head_first_highest (ids : list Identifier) :
  match head (JS.sort by_priority_descending ids) with
  | None => ids = []
  | Some id => first_highest ids id
  end.
Proof.
  induction ids as [|a rest IH]; [reflexivity|].
  change (JS.sort by_priority_descending (a :: rest))
    with (sort_insert by_priority_descending a (JS.sort by_priority_descending rest)).
  rewrite sort_insert_head.
  destruct (JS.sort by_priority_descending rest) as [|h tl]; simpl in IH.
  - subst rest. exists [], []. repeat split; constructor.
  - destruct IH as (before & after & -> & Hb & Ha).
    unfold by_priority_descending.
    destruct (Z.leb_spec (id_priority h - id_priority a) 0) as [Hle|Hgt].
    + exists [], (before ++ h :: after). split; [reflexivity|].
      split; [constructor|]. apply Forall_app. split.
      * eapply Forall_impl; [exact Hb|]. simpl. intros; lia.
      * constructor; [lia|]. eapply Forall_impl; [exact Ha|]. simpl. intros; lia.
    + exists (a :: before), after. split; [reflexivity|].
      split; [|exact Ha]. constructor; [lia|exact Hb].
Qed.

(** X3.  [getPrimaryIdentifier] returns [null] exactly when the conversation
    has no identifier; otherwise it returns the first identifier, in list
    order, among those of the highest priority. *)
Theorem getPrimaryIdentifier_first_highest (c : Conversation) :
  match getPrimaryIdentifier c with
  | None => identifiers c = []
  | Some id => first_highest (identifiers c) id
  end.
Proof.
  unfold getPrimaryIdentifier.
  pose proof (sort_head_first_highest (identifiers c)) as H.
  destruct (identifiers c) as [|a rest] eqn:Hids; [reflexivity|].
  exact H.
Qed.

Lemma upsert_twice (now1 now2 : Date) (type value : string) (priority : Z)
    (verified : bool) (ids : list Identifier) :
  upsert now2 type value priority verified
    (upsert now1 type value priority verified ids)
  = upsert now1 type value priority verified ids.
Proof.
  induction ids as [|x rest IH]; cbn [upsert].
  - rewrite decide_True by (split; reflexivity). f_equal.
    cbn. rewrite Z.gtb_ltb, Z.ltb_irrefl. now destruct verified.
  - destruct (decide (same_pair type value x)) as [Hx|Hx].
    + cbn [upsert].
      rewrite decide_True by (now apply upgrade_same_pair). f_equal.
      destruct (Z.gtb_spec priority (id_priority x)) as [Hgt|Hle],
        verified, (id_verified x) eqn:Hv; cbn; rewrite ?Hv; cbn;
        rewrite ?Z.gtb_ltb, ?Z.ltb_irrefl; cbn; try reflexivity;
        destruct (Z.ltb_spec (id_priority x) priority); try lia; cbn;
        rewrite ?Hv; reflexivity.
    + cbn [upsert]. rewrite decide_False by exact Hx. now rewrite IH.
Qed.

(** X4.  Repeating an [addIdentifier] call adds nothing: the identifier list
    after the second call is the one after the first. *)
Theorem addIdentifier_twice (now1 now2 : Date) (type value : string)
    (priority : Z) (verified : bool) (c : Conversation) :
  identifiers
    (addIdentifier now2 type value priority verified
       (addIdentifier now1 type value priority verified c))
  = identifiers (addIdentifier now1 type value priority verified c).
Proof. rewrite !addIdentifier_upsert. apply upsert_twice. Qed.

Lemma upsert_keeps (p : Identifier -> bool) (now : Date) (type value : string)
    (priority : Z) (verified : bool) (ids : list Identifier) :
  (forall id id', id_type id = id_type id' -> p id = p id') ->
  existsb p ids = true ->
  existsb p (upsert now type value priority verified ids) = true.
Proof.
  intros Hp. induction ids as [|x rest IH]; [discriminate|].
  cbn [upsert existsb]. intros H.
  destruct (decide (same_pair type value x)) as [Hx|Hx]; cbn [existsb].
  - rewrite <- H. f_equal. apply Hp.
    destruct (priority >? id_priority x), verified, (id_verified x) eqn:Hv;
      cbn; rewrite ?Hv; reflexivity.
  - apply orb_true_iff in H as [H|H]; [now rewrite H|].
    rewrite (IH H). apply orb_true_r.
Qed.

Lemma upsert_holds (p : Identifier -> bool) (now : Date) (type value : string)
    (priority : Z) (verified : bool) (ids : list Identifier) :
  (forall id, id_type id = type -> p id = true) ->
  existsb p (upsert now type value priority verified ids) = true.
Proof.
  intros Hp. induction ids as [|x rest IH]; cbn [upsert existsb].
  - now rewrite Hp.
  - destruct (decide (same_pair type value x)) as [[Ht Hv]|Hx]; cbn [existsb].
    + rewrite Hp; [reflexivity|]. rewrite <- Ht.
      destruct (priority >? id_priority x), verified, (id_verified x) eqn:Hver;
        cbn; rewrite ?Hver; reflexivity.
    + rewrite IH. apply orb_true_r.
Qed.

Lemma calls_keep_phone (calls : list AddIdentifierCall) (c : Conversation) :
  existsb is_phone_type (identifiers c) = true ->
  existsb is_phone_type (identifiers (foldl apply_call c calls)) = true.
Proof.
  revert c. induction calls as [|k calls IH]; intros c H; [exact H|].
  simpl. apply IH. unfold apply_call. rewrite addIdentifier_upsert.
  apply upsert_keeps; [|exact H].
  intros id id' Ht. unfold is_phone_type. now rewrite Ht.
Qed.

(** X5.  Once a ['phone'] or a ['whatsapp_phone'] identifier has been added,
    the conversation never needs phone identification again, whatever
    identifiers are added afterwards. *)
Theorem phone_identifier_settles_identification (c : Conversation)
    (calls : list AddIdentifierCall) (now : Date) (value : string)
    (priority : Z) (verified : bool) :
  needsPhoneIdentification
    (foldl apply_call (addIdentifier now "phone" value priority verified c) calls)
  = false
  /\ needsPhoneIdentification
       (foldl apply_call
          (addIdentifier now "whatsapp_phone" value priority verified c) calls)
     = false.
Proof.
  split; unfold needsPhoneIdentification; rewrite calls_keep_phone;
    try (cbn [negb]; now rewrite andb_false_r);
    rewrite addIdentifier_upsert; apply upsert_holds;
    intros id Ht; unfold is_phone_type; rewrite Ht; reflexivity.
Qed.

(** X6.  [getRecentMessages(limit)] returns the last [limit] messages, all
    of them when there are fewer -- and, since [slice(-0)] is [slice(0)],
    all of them too when [limit] is zero. *)
Theorem getRecentMessages_window (c : Conversation) (n : nat) :
  getRecentMessages 0 c = messages c
  /\ exists older,
       messages c = older ++ getRecentMessages (Z.of_nat (S n)) c
       /\ length (getRecentMessages (Z.of_nat (S n)) c)
          = Nat.min (S n) (length (messages c)).
Proof.
  unfold getRecentMessages. split.
  - unfold slice_from. cbn [Z.opp Z.ltb Z.compare].
    rewrite Z.min_l by lia. reflexivity.
  - rewrite slice_from_last by lia.
    exists (take (length (messages c) - S n) (messages c)).
    split; [now rewrite take_drop|]. rewrite length_drop. lia.
Qed.

End Identifiers.

(** ** The sender's number on the messaging channel *)

Section SenderNumber.

Lemma truthy_false (s : string) : truthy s = false -> s = "".
Proof.
  unfold truthy. intros H. apply negb_false_iff in H. now apply String.eqb_eq.
Qed.

(** X7.  [formatPhoneToE164] returns [null] for the empty string only, and a
    number it returns holds no white space, hyphen or parenthesis. *)
Theorem formatPhoneToE164_no_separator (from : string) :
  match formatPhoneToE164 from with
  | None => from = ""
  | Some number => all_chars (fun c => negb (is_separator c)) number = true
  end.
Proof.
  unfold formatPhoneToE164.
  destruct (truthy from) eqn:Ht; cbn [negb].
  - apply all_chars_filter.
  - now apply truthy_false.
Qed.

Lemma remove_first_absent (pat s : string) (a : ascii) (p : string) :
  pat = String a p ->
  all_chars (fun c => negb (Ascii.eqb a c)) s = true ->
  remove_first pat s = s.
Proof.
  intros ->. induction s as [|c s IH]; [reflexivity|].
  intros H. cbn [all_chars] in H. apply andb_true_iff in H as [Hc Hs].
  cbn [remove_first]. rewrite prefix_cons.
  apply negb_true_iff in Hc. rewrite Hc. f_equal. now apply IH.
Qed.

Lemma digits_have_no_w (s : string) :
  all_chars is_digit s = true ->
  all_chars (fun c => negb (Ascii.eqb "w" c)) s = true.
Proof.
  apply all_chars_impl. intros c Hc.
  destruct (Ascii.eqb_spec "w"%char c) as [<-|_]; [discriminate Hc|reflexivity].
Qed.

Lemma digit_not_space (c : ascii) : is_digit c = true -> Text.is_space c = false.
Proof.
  unfold is_digit, Text.is_space. intros Hc.
  apply andb_true_iff in Hc as [H1 H2]. apply Nat.leb_le in H1, H2.
  destruct (Nat.eqb_spec (nat_of_ascii c) 32) as [He|_]; [lia|].
  destruct (Nat.eqb_spec (nat_of_ascii c) 160) as [He|_]; [lia|].
  destruct (Nat.leb_spec 9 (nat_of_ascii c)), (Nat.leb_spec (nat_of_ascii c) 13);
    simpl; try reflexivity; lia.
Qed.

Lemma digits_have_no_separator (s : string) :
  all_chars is_digit s = true ->
  all_chars (fun c => negb (is_separator c)) s = true.
Proof.
  apply all_chars_impl. intros c Hc. unfold is_separator.
  rewrite (digit_not_space c Hc).
  unfold is_digit in Hc. apply andb_true_iff in Hc as [H1 H2].
  apply Nat.leb_le in H1, H2.
  destruct (Ascii.eqb_spec c "-") as [->|_]; [vm_compute in H1; lia|].
  destruct (Ascii.eqb_spec c "(") as [->|_]; [vm_compute in H1; lia|].
  destruct (Ascii.eqb_spec c ")") as [->|_]; [vm_compute in H1; lia|].
  reflexivity.
Qed.

Lemma remove_first_prefix (s : string) :
  remove_first "whatsapp:" ("whatsapp:" +:+ s) = s.
Proof.
  change ("whatsapp:" +:+ s)
    with (String "w" (String "h" (String "a" (String "t" (String "s"
           (String "a" (String "p" (String "p" (String ":" s))))))))).
  cbn [remove_first]. rewrite !prefix_cons. cbn [Ascii.eqb Bool.eqb].
  rewrite prefix_empty.
  change (String.length "whatsapp:") with 9%nat.
  rewrite !substring_from_cons. apply substring_from_0.
Qed.

(** The steps of [formatPhoneToE164] after the prefix is removed. *)
Lemma formatPhoneToE164_steps (from stripped : string) :
  truthy from = true ->
  remove_first "whatsapp:" from = stripped ->
  formatPhoneToE164 from
  = Some (filter_chars (fun c => negb (is_separator c))
            (if startsWith "+" stripped then stripped
             else if startsWith "0" stripped
                  then "+44" +:+ substring_from 1 stripped
                  else if negb (truthy stripped && all_chars is_digit stripped)
                          || (String.length stripped <? 9)%nat
                       then stripped
                       else "+44" +:+ stripped)).
Proof.
  intros Ht Hs. unfold formatPhoneToE164. rewrite Ht, Hs. cbn [negb].
  now destruct (startsWith "+" stripped).
Qed.

(** X8.  Whatever form a UK number of digits [n] arrives in -- national
    [0n], with or without the [whatsapp:] prefix, or international [+44n],
    with or without the prefix -- [formatPhoneToE164] gives [+44n]; and a
    number of nine digits or more without a leading zero or plus is taken
    for a UK number too. *)
Theorem formatPhoneToE164_uk_forms (n : string) :
  all_chars is_digit n = true ->
  formatPhoneToE164 ("0" +:+ n) = Some ("+44" +:+ n)
  /\ formatPhoneToE164 ("whatsapp:0" +:+ n) = Some ("+44" +:+ n)
  /\ formatPhoneToE164 ("+44" +:+ n) = Some ("+44" +:+ n)
  /\ formatPhoneToE164 ("whatsapp:+44" +:+ n) = Some ("+44" +:+ n)
  /\ (startsWith "0" n = false -> (9 <= String.length n)%nat ->
      formatPhoneToE164 n = Some ("+44" +:+ n)).
Proof.
  intros Hd.
  pose proof (digits_have_no_w n Hd) as Hw.
  pose proof (digits_have_no_separator n Hd) as Hsep.
  assert (Hfilter : filter_chars (fun c => negb (is_separator c)) ("+44" +:+ n)
                    = "+44" +:+ n).
  { apply filter_chars_all.
    change ("+44" +:+ n) with (String "+" (String "4" (String "4" n))).
    cbn [all_chars]. rewrite Hsep. reflexivity. }
  assert (Hnational : remove_first "whatsapp:" ("0" +:+ n) = "0" +:+ n).
  { apply (remove_first_absent _ _ "w" "hatsapp:" eq_refl).
    change ("0" +:+ n) with (String "0" n). cbn [all_chars]. now rewrite Hw. }
  assert (Hinternational : remove_first "whatsapp:" ("+44" +:+ n) = "+44" +:+ n).
  { apply (remove_first_absent _ _ "w" "hatsapp:" eq_refl).
    change ("+44" +:+ n) with (String "+" (String "4" (String "4" n))).
    cbn [all_chars]. now rewrite Hw. }
  assert (Hzero : forall from,
             truthy from = true ->
             remove_first "whatsapp:" from = "0" +:+ n ->
             formatPhoneToE164 from = Some ("+44" +:+ n)).
  { intros from Ht Hs. rewrite (formatPhoneToE164_steps _ _ Ht Hs).
    change ("0" +:+ n) with (String "0" n).
    unfold startsWith. rewrite !prefix_cons. cbn [Ascii.eqb Bool.eqb].
    rewrite prefix_empty, substring_from_cons, substring_from_0.
    f_equal. exact Hfilter. }
  assert (Hplus : forall from,
             truthy from = true ->
             remove_first "whatsapp:" from = "+44" +:+ n ->
             formatPhoneToE164 from = Some ("+44" +:+ n)).
  { intros from Ht Hs. rewrite (formatPhoneToE164_steps _ _ Ht Hs).
    replace (startsWith "+" ("+44" +:+ n)) with true; [f_equal; exact Hfilter|].
    change ("+44" +:+ n) with (String "+" (String "4" (String "4" n))).
    unfold startsWith. rewrite prefix_cons. cbn [Ascii.eqb Bool.eqb].
    now rewrite prefix_empty. }
  split; [now apply Hzero|]. split; [apply Hzero; [reflexivity|apply remove_first_prefix]|].
  split; [now apply Hplus|]. split; [apply Hplus; [reflexivity|apply remove_first_prefix]|].
  intros Hz Hlen.
  destruct n as [|c s]; [simpl in Hlen; lia|].
  rewrite (formatPhoneToE164_steps (String c s) (String c s) eq_refl)
    by (now apply (remove_first_absent _ _ "w" "hatsapp:" eq_refl)).
  assert (Hp : startsWith "+" (String c s) = false).
  { unfold startsWith. rewrite prefix_cons. cbn [all_chars] in Hd.
    apply andb_true_iff in Hd as [Hc _].
    destruct (Ascii.eqb_spec "+"%char c) as [<-|_]; [discriminate Hc|reflexivity]. }
  rewrite Hp, Hz, Hd. cbn [truthy String.eqb negb andb orb].
  destruct (Nat.ltb_spec (String.length (String c s)) 9) as [Hlt|_]; [lia|].
  f_equal. exact Hfilter.
Qed.

End SenderNumber.

Lemma formatPhoneToE164_uk_forms_witness :
  formatPhoneToE164 "07911123456" = Some "+447911123456"
  /\ formatPhoneToE164 "whatsapp:07911123456" = Some "+447911123456"
  /\ formatPhoneToE164 "+447911123456" = Some "+447911123456"
  /\ formatPhoneToE164 "whatsapp:+447911123456" = Some "+447911123456"
  /\ formatPhoneToE164 "7911123456" = Some "+447911123456".
Proof.
  destruct (formatPhoneToE164_uk_forms "7911123456" eq_refl)
    as (H1 & H2 & H3 & H4 & H5).
  split; [exact H1|]. split; [exact H2|]. split; [exact H3|]. split; [exact H4|].
  apply H5; [reflexivity|vm_compute; lia].
Defined.

(** ** Masked numbers in the log *)

Section Masking.

Lemma substring_split (n : nat) (s : string) :
  s = String.substring 0 n s +:+ substring_from n s.
Proof.
  revert n. induction s as [|c s IH]; intros [|n]; try reflexivity.
  - rewrite substring_from_0. reflexivity.
  - rewrite substring_from_cons.
    change (String c s = String c (String.substring 0 n s +:+ substring_from n s)).
    f_equal. apply IH.
Qed.

Lemma substring_from_add (k a : nat) (s : string) :
  substring_from k (substring_from a s) = substring_from (a + k) s.
Proof.
  assert (He : forall j, substring_from j "" = "") by (now intros [|j]).
  revert a. induction s as [|c s IH]; intros [|a].
  - now rewrite substring_from_0.
  - now rewrite !He.
  - now rewrite substring_from_0.
  - rewrite substring_from_cons. cbn [Nat.add]. rewrite substring_from_cons.
    apply IH.
Qed.

Lemma substring_from_length (a : nat) (s : string) :
  String.length (substring_from a s) = (String.length s - a)%nat.
Proof.
  revert a. induction s as [|c s IH]; intros [|a]; try reflexivity.
  - rewrite substring_from_0. reflexivity.
  - rewrite substring_from_cons. apply IH.
Qed.

Lemma substring_0_length (m : nat) (s : string) :
  String.length (String.substring 0 m s) = Nat.min m (String.length s).
Proof.
  revert m. induction s as [|c s IH]; intros [|m]; try reflexivity.
  cbn [String.substring String.length]. now rewrite IH.
Qed.

(** A string cut in three: its first [a] characters, its last [b], and the
    rest between them. *)
Lemma cut_in_three (a b : nat) (s : string) :
  (a + b <= String.length s)%nat ->
  exists middle,
    s = String.substring 0 a s +:+ middle +:+ slice_last b s
    /\ String.length middle = (String.length s - a - b)%nat.
Proof.
  intros Hlen.
  exists (String.substring 0 (String.length s - a - b) (substring_from a s)).
  split.
  - rewrite (substring_split a s) at 1. f_equal.
    rewrite (substring_split (String.length s - a - b) (substring_from a s)) at 1.
    f_equal. rewrite substring_from_add. unfold slice_last. f_equal. lia.
  - rewrite substring_0_length, substring_from_length. lia.
Qed.

(** X9.  For a number of at least eight characters with at least five digits
    or plus signs, the masked form shows a few leading and a few trailing
    characters of the cleaned number -- nine at most -- around [***], and
    hides at least one character between them. *)
Theorem maskPhoneNumber_hides (phone : string) :
  let cleaned := filter_chars is_digit_or_plus phone in
  (8 <= String.length phone)%nat ->
  (5 <= String.length cleaned)%nat ->
  exists shown_start hidden shown_end,
    cleaned = shown_start +:+ hidden +:+ shown_end
    /\ hidden <> ""
    /\ (String.length shown_start + String.length shown_end <= 9)%nat
    /\ maskPhoneNumber phone = shown_start +:+ "***" +:+ shown_end.
Proof.
  intros cleaned Hphone Hclean. unfold maskPhoneNumber. fold cleaned.
  assert (Ht : truthy phone = true) by (destruct phone; [simpl in Hphone; lia|reflexivity]).
  rewrite Ht. cbn [negb].
  destruct (Nat.ltb_spec (String.length phone) 8) as [Hlt|_]; [lia|].
  destruct (Nat.leb_spec (String.length cleaned) 9) as [Hle|Hgt].
  - destruct (cut_in_three 2 2 cleaned) as (middle & Hcut & Hmid); [lia|].
    exists (String.substring 0 2 cleaned), middle, (slice_last 2 cleaned).
    split; [exact Hcut|]. split.
    + intros ->. simpl in Hmid. lia.
    + split; [|reflexivity]. unfold slice_last.
      rewrite substring_0_length, substring_from_length. lia.
  - destruct (cut_in_three 5 4 cleaned) as (middle & Hcut & Hmid); [lia|].
    exists (String.substring 0 5 cleaned), middle, (slice_last 4 cleaned).
    split; [exact Hcut|]. split.
    + intros ->. simpl in Hmid. lia.
    + split; [|reflexivity]. unfold slice_last.
      rewrite substring_0_length, substring_from_length. lia.
Qed.

End Masking.

Lemma maskPhoneNumber_hides_witness :
  exists shown_start hidden shown_end,
    "+447911123456" = shown_start +:+ hidden +:+ shown_end
    /\ hidden <> ""
    /\ (String.length shown_start + String.length shown_end <= 9)%nat
    /\ maskPhoneNumber "+44 7911 123456" = shown_start +:+ "***" +:+ shown_end.
Proof. apply (maskPhoneNumber_hides "+44 7911 123456"); vm_compute; lia. Defined.

(** ** Messages and lookups over the in-memory store *)

Section InMemoryConversations.

Import InMemory.

Variable cfg : Config.t.
Variable backend : Request -> exn Response.
Variable client : option (option (Request -> exn Response)).
Variable search : json -> json -> exn (list json).
Variable format : list json -> exn string.

Local Abbreviation E := (InMemory.env cfg backend client search format).

Lemma documents_elem (w : World) (c : Conversation) :
  c ∈ documents w <-> exists k, store w !! k = Some c.
Proof.
  unfold documents. rewrite list_elem_of_fmap. split.
  - intros ([k c'] & -> & Hin). exists k. now apply elem_of_map_to_list in Hin.
  - intros (k & Hk). exists (k, c). split; [reflexivity|].
    now apply elem_of_map_to_list.
Qed.

Lemma find_elem (q : Query) (w : World) (c : Conversation) :
  c ∈ List.filter (Query_matches q) (documents w)
  <-> c ∈ documents w /\ Query_matches q c = true.
Proof. rewrite !list_elem_of_In. apply filter_In. Qed.

Lemma head_of_constant {A} (x : A) (xs : list A) :
  x ∈ xs -> (forall y, y ∈ xs -> y = x) -> head xs = Some x.
Proof.
  destruct xs as [|y ys]; intros Hin Hall; [now apply not_elem_of_nil in Hin|].
  simpl. f_equal. apply Hall. left.
Qed.

(** X12.  [findConversationsByPhones] on the store.  With no number it
    resolves to no conversation.  Otherwise it selects exactly the stored
    conversations, other than the excluded one, that hold a ['phone'] or
    ['whatsapp_phone'] identifier whose value is a variation of one of the
    numbers; the store is not changed. *)
Theorem findConversationsByPhones_selects (phoneNumbers : list string)
    (exclude : string) (w : World) :
  findConversationsByPhones (E := E) [] (Some exclude) w = (Ok [], w)
  /\ (phoneNumbers <> [] -> exclude <> "" ->
      exists found,
        findConversationsByPhones (E := E) phoneNumbers (Some exclude) w
        = (Ok found, w)
        /\ forall c,
             c ∈ found
             <-> c ∈ documents w
                 /\ conv_id c <> exclude
                 /\ exists id phone,
                      id ∈ identifiers c
                      /\ is_phone_type id = true
                      /\ phone ∈ phoneNumbers
                      /\ id_value id ∈ generatePhoneVariations phone).
Proof.
  split; [reflexivity|]. intros Hne Hex.
  unfold findConversationsByPhones.
  destruct phoneNumbers as [|p0 ps]; [contradiction|].
  cbn [length Nat.eqb]. set (numbers := p0 :: ps).
  assert (Ht : truthy_opt (Some exclude) = true).
  { unfold truthy_opt, truthy. apply negb_true_iff. now apply String.eqb_neq. }
  rewrite Ht. set (allVariations := concat _).
  assert (Hall : forall v, In v allVariations
                           <-> exists phone, phone ∈ numbers
                                             /\ v ∈ generatePhoneVariations phone).
  { intros v. subst allVariations. rewrite in_concat. split.
    - intros (vs & Hvs & Hv). apply in_map_iff in Hvs as (phone & <- & Hphone).
      exists phone. split; now apply list_elem_of_In.
    - intros (phone & Hphone & Hv). exists (generatePhoneVariations phone).
      split; [apply in_map|]; now apply list_elem_of_In. }
  clearbody allVariations.
  simpl. unfold find. eexists. split; [reflexivity|].
  intros c. rewrite find_elem. simpl.
  rewrite andb_true_iff, negb_true_iff, String.eqb_neq.
  rewrite existsb_exists.
  split.
  - intros (Hdoc & Hid & v & Hv & Hhas). split; [exact Hdoc|]. split; [exact Hid|].
    unfold has_identifier in Hhas. apply existsb_exists in Hhas as (id & Hin & Hp).
    apply andb_true_iff in Hp as [Htype Hval]. apply String.eqb_eq in Hval.
    apply Hall in Hv as (phone & Hphone & Hvin).
    exists id, phone. split; [now apply list_elem_of_In|].
    split; [|split; [exact Hphone|now rewrite Hval]].
    unfold is_phone_type. apply orb_true_iff in Htype as [H|H]; rewrite H;
      [apply orb_true_r|reflexivity].
  - intros (Hdoc & Hid & id & phone & Hin & Htype & Hphone & Hval).
    split; [exact Hdoc|]. split; [exact Hid|].
    exists (id_value id). split.
    + apply Hall. eauto.
    + unfold has_identifier. apply existsb_exists. exists id.
      split; [now apply list_elem_of_In|].
      rewrite String.eqb_refl, andb_true_r.
      unfold is_phone_type in Htype. apply orb_true_iff in Htype as [H|H];
        rewrite H; [apply orb_true_r|reflexivity].
Qed.

End InMemoryConversations.

Lemma findConversationsByPhones_selects_witness :
  exists found,
    findConversationsByPhones (E := Ex.env) ["07911123456"] (Some "p") Ex.world
    = (Ok found, Ex.world)
    /\ Ex.candidate ∈ found
    /\ Ex.primary ∉ found.
Proof.
  destruct (findConversationsByPhones_selects
              (Config.default "You are a helpful assistant." []) Ex.backend_down
              (Some (Some Ex.backend_down)) Ex.search_none Ex.format_none
              ["07911123456"] "p" Ex.world) as (_ & Hselect).
  destruct Hselect as (found & Hrun & Hiff); [discriminate|discriminate|].
  exists found. split; [exact Hrun|]. split.
  - apply Hiff. split; [|split; [discriminate|]].
    + apply list_elem_of_In. vm_compute. auto.
    + exists (Ex.identifier "whatsapp_phone" "+447911123456" 70 true), "07911123456".
      split; [apply list_elem_of_In; simpl; auto|]. split; [reflexivity|].
      split; [apply list_elem_of_In; simpl; auto|].
      apply list_elem_of_In. vm_compute. auto.
  - intros Hin. apply Hiff in Hin as (_ & Hne & _). now apply Hne.
Defined.

(** ** Messages and conversations over the validating store *)

Section ValidatingStore.

Import InMemory.

Variable cfg : Config.t.
Variable backend : Request -> exn Response.
Variable client : option (option (Request -> exn Response)).
Variable search : json -> json -> exn (list json).
Variable format : list json -> exn string.

Local Abbreviation E := (Validating.env cfg backend client search format).

Lemma save_valid (c : Conversation) (w : World) :
  Schema.valid c = true ->
  Validating.save c w = (Ok tt, with_store (insert (conv_id c) c) w).
Proof. unfold Validating.save. now intros ->. Qed.

Lemma save_invalid (c : Conversation) (w : World) :
  Schema.valid c = false ->
  Validating.save c w = (Throw (Schema.ValidationError c), w).
Proof. unfold Validating.save. now intros ->. Qed.

Lemma role_of_schema (role : string) :
  Schema.one_of Schema.roles role = true <-> role = "user" \/ role = "assistant".
Proof.
  unfold Schema.one_of, Schema.roles. cbn [existsb].
  rewrite !orb_true_iff, !String.eqb_eq. split.
  - intros [H|[H|H]]; [now left|now right|discriminate].
  - intros [H|H]; [now left|right; now left].
Qed.

Lemma channel_of_schema (channel : string) :
  Schema.one_of Schema.channels channel = true
  <-> channel = "whatsapp" \/ channel = "website".
Proof.
  unfold Schema.one_of, Schema.channels. cbn [existsb].
  rewrite !orb_true_iff, !String.eqb_eq. split.
  - intros [H|[H|H]]; [now left|now right|discriminate].
  - intros [H|H]; [now left|right; now left].
Qed.

Lemma type_of_schema (type : string) :
  Schema.one_of Schema.identifier_types type = true
  <-> type ∈ ["whatsapp_phone"; "website_session"; "user_id"; "phone"; "email"].
Proof. apply existsb_eqb_elem. Qed.

(** The document [addMessage] saves. *)
Lemma valid_after_push (c : Conversation) (m : Message) (now : Date) :
  Schema.valid
    (set_lastActivity now (set_lastUpdated now (set_messages (messages c ++ [m]) c)))
  = Schema.valid c && Schema.valid_message m.
Proof.
  unfold Schema.valid. cbn [identifiers messages channel set_lastActivity
                            set_lastUpdated set_messages].
  rewrite forallb_app. cbn [forallb]. rewrite andb_true_r.
  destruct (0 <? _)%nat, (forallb Schema.valid_identifier _),
    (forallb Schema.valid_message _), (Schema.valid_message m),
    (Schema.one_of Schema.channels _); reflexivity.
Qed.

Lemma addMessage_run (conversationId role content channel : string)
    (c : Conversation) (w : World) :
  store w !! conversationId = Some c ->
  let pushed :=
    set_lastActivity (clock w)
      (set_lastUpdated (clock w)
         (set_messages
            (messages c
             ++ [pushed_message ("oid" +:+ pretty (fresh w)) (clock w)
                   role content channel])
            c)) in
  addMessage (E := E) conversationId role content channel w
  = if Schema.valid c && Schema.one_of Schema.roles role
       && Schema.one_of Schema.channels channel
    then (Ok tt,
          {| store := <[conv_id c := pushed]> (store w);
             clock := clock w + 1; fresh := S (fresh w) |})
    else (Throw (Schema.ValidationError pushed),
          {| store := store w; clock := clock w + 1; fresh := S (fresh w) |}).
Proof.
  intros Hc pushed. unfold addMessage, JS.bind. simpl. unfold findById.
  rewrite Hc. unfold Conversation_addMessage, JS.bind. simpl.
  unfold Validating.save. fold pushed. subst pushed.
  rewrite valid_after_push. unfold Schema.valid_message. cbn [msg_role msg_channel pushed_message].
  rewrite andb_assoc. now destruct (_ && _ && _).
Qed.

Lemma valid_world_insert (w : World) (c : Conversation) (t : Date) (n : nat) :
  valid_world w ->
  Schema.valid c = true ->
  valid_world {| store := <[conv_id c := c]> (store w); clock := t; fresh := n |}.
Proof.
  intros Hw Hv k c0 Hk. cbn [store] in Hk.
  destruct (decide (k = conv_id c)) as [->|Hne].
  - rewrite lookup_insert_eq in Hk. inversion Hk; subst c0. now split.
  - rewrite lookup_insert_ne in Hk by (intros Heq; apply Hne; symmetry; exact Heq).
    now apply Hw.
Qed.

Lemma valid_world_same_store (w w' : World) :
  store w' = store w -> valid_world w -> valid_world w'.
Proof. intros Hs Hw k c Hk. rewrite Hs in Hk. now apply Hw. Qed.

(** X10.  [sessionManager.addMessage] on the validating store.  For an
    unknown id it rejects with 'Conversation not found' and changes nothing.
    For a stored, valid conversation and a role and a channel of the
    schema's enumerations, it appends one message -- the given role, content
    and channel, stamped with the time of the call -- after the existing
    ones, stamps the activity dates, touches no other field and no other
    document, and the stored document is valid again.  With a role or a
    channel outside the enumerations, or a stored document that is not
    valid, the save rejects and the store is left as it was. *)
Theorem addMessage_stores (conversationId role content channel : string) (w : World) :
  (store w !! conversationId = None ->
   addMessage (E := E) conversationId role content channel w
   = (Throw (mkError ("Conversation not found: " +:+ conversationId) None), w))
  /\ (forall c,
        store w !! conversationId = Some c ->
        conv_id c = conversationId ->
        Schema.valid c = true ->
        role = "user" \/ role = "assistant" ->
        channel = "whatsapp" \/ channel = "website" ->
        exists w' c',
          addMessage (E := E) conversationId role content channel w = (Ok tt, w')
          /\ store w' = <[conversationId := c']> (store w)
          /\ messages c'
             = messages c
               ++ [pushed_message ("oid" +:+ pretty (fresh w)) (clock w)
                     role content channel]
          /\ lastActivity c' = clock w
          /\ lastUpdated c' = clock w
          /\ identifiers c' = identifiers c
          /\ userInfo c' = userInfo c
          /\ summary c' = summary c
          /\ previousResponseId c' = previousResponseId c
          /\ Schema.valid c' = true)
  /\ (forall c,
        store w !! conversationId = Some c ->
        Schema.valid c = false
        \/ ~ (role = "user" \/ role = "assistant")
        \/ ~ (channel = "whatsapp" \/ channel = "website") ->
        exists e w',
          addMessage (E := E) conversationId role content channel w = (Throw e, w')
          /\ store w' = store w).
Proof.
  split; [|split].
  - intros Hnone. unfold addMessage, JS.bind. simpl. unfold findById.
    now rewrite Hnone.
  - intros c Hc Hid Hv Hrole Hchannel.
    rewrite (addMessage_run conversationId role content channel c w Hc).
    apply role_of_schema in Hrole. apply channel_of_schema in Hchannel.
    rewrite Hv, Hrole, Hchannel. cbn [andb]. rewrite Hid.
    eexists _, _. split; [reflexivity|]. cbn [store].
    repeat (split; [reflexivity|]).
    rewrite valid_after_push, Hv. unfold Schema.valid_message.
    cbn [msg_role msg_channel pushed_message]. now rewrite Hrole, Hchannel.
  - intros c Hc Hbad.
    rewrite (addMessage_run conversationId role content channel c w Hc).
    assert (Hfalse : Schema.valid c && Schema.one_of Schema.roles role
                     && Schema.one_of Schema.channels channel = false).
    { destruct Hbad as [Hv|[Hr|Hch]].
      - now rewrite Hv.
      - destruct (Schema.one_of Schema.roles role) eqn:Hrole.
        + exfalso. apply Hr. now apply role_of_schema.
        + now rewrite andb_false_r.
      - destruct (Schema.one_of Schema.channels channel) eqn:Hchannel.
        + exfalso. apply Hch. now apply channel_of_schema.
        + now rewrite andb_false_r. }
    rewrite Hfalse. eexists _, _. split; reflexivity.
Qed.

(** The conversation [getOrCreateConversationByIdentifier] builds for an
    identifier that no conversation holds. *)
Lemma created_valid (type value id : string) (now : Date) :
  Schema.valid
    {| conv_id := id;
       identifiers :=
         [ {| id_type := type; id_value := value; id_addedAt := now;
              id_verified :=
                (String.eqb type "whatsapp_phone" || String.eqb type "phone")
                && String.eqb type "whatsapp_phone";
              id_verifiedAt := None;
              id_priority :=
                if String.eqb type "whatsapp_phone" || String.eqb type "phone"
                then PRIORITY_PHONE else PRIORITY_SESSION |} ];
       userInfo := None; lastUpdated := now; lastActivity := now; messages := [];
       previousResponseId := None;
       channel := if String.eqb type "whatsapp_phone" then "whatsapp" else "website";
       summary := None |}
  = Schema.one_of Schema.identifier_types type && truthy value.
Proof.
  unfold Schema.valid, Schema.valid_identifier. cbn.
  destruct (String.eqb type "whatsapp_phone"); cbn;
    now rewrite !andb_true_r.
Qed.

Lemma getOrCreateConversationByIdentifier_found (type value : string)
    (c : Conversation) (w : World) :
  findOne (QIdentifier type value) w = (Ok (Some c), w) ->
  getOrCreateConversationByIdentifier (E := E) type value w = (Ok c, w)
  /\ c ∈ documents w
  /\ Query_matches (QIdentifier type value) c = true.
Proof.
  intros Hfound. unfold findOne in Hfound. inversion Hfound as [Hhead].
  unfold getOrCreateConversationByIdentifier, JS.bind. simpl. unfold findOne.
  rewrite Hhead. split; [reflexivity|].
  apply head_Some_elem_of in Hhead. now apply find_elem in Hhead.
Qed.

Lemma getOrCreateConversationByIdentifier_created (type value : string) (w : World) :
  findOne (QIdentifier type value) w = (Ok None, w) ->
  Schema.one_of Schema.identifier_types type && truthy value = true ->
  exists c,
    let w1 := {| store := <[conv_id c := c]> (store w);
                 clock := clock w + 1; fresh := S (fresh w) |} in
    getOrCreateConversationByIdentifier (E := E) type value w = (Ok c, w1)
    /\ Query_matches (QIdentifier type value) c = true
    /\ getOrCreateConversationByIdentifier (E := E) type value w1 = (Ok c, w1)
    /\ Schema.valid c = true
    /\ messages c = []
    /\ (type = "whatsapp_phone" ->
        channel c = "whatsapp"
        /\ exists id,
             identifiers c = [id]
             /\ id_verified id = true /\ id_priority id = 70).
Proof.
  intros Hnone Hvalid. unfold findOne in Hnone. inversion Hnone as [Hhead].
  unfold getOrCreateConversationByIdentifier, JS.bind. simpl. unfold findOne.
  rewrite Hhead. simpl. unfold Validating.save.
  rewrite created_valid, Hvalid.
  set (c0 := {| conv_id := "oid" +:+ pretty (fresh w);
                identifiers := _; userInfo := None; lastUpdated := clock w;
                lastActivity := clock w; messages := [];
                previousResponseId := None; channel := _; summary := None |}).
  assert (Hq : Query_matches (QIdentifier type value) c0 = true).
  { simpl. unfold has_identifier. simpl. now rewrite !String.eqb_refl. }
  exists c0. cbv zeta.
  set (w1 := {| store := <[conv_id c0 := c0]> (store w);
                clock := clock w + 1; fresh := S (fresh w) |}).
  split; [reflexivity|]. split; [exact Hq|]. split; [|split; [|split]].
  - assert (Hh : findOne (QIdentifier type value) w1 = (Ok (Some c0), w1)).
    { unfold findOne. f_equal. f_equal. apply head_of_constant.
      - apply find_elem. split; [|exact Hq]. apply documents_elem.
        exists (conv_id c0). subst w1. simpl. apply lookup_insert_eq.
      - intros y Hy. apply find_elem in Hy as [Hdoc Hm].
        apply documents_elem in Hdoc as (k & Hk). subst w1. simpl in Hk.
        destruct (decide (k = conv_id c0)) as [->|Hne].
        + rewrite lookup_insert_eq in Hk. now inversion Hk.
        + rewrite lookup_insert_ne in Hk
            by (intros Heq; apply Hne; symmetry; exact Heq).
          assert (Hin : y ∈ List.filter (Query_matches (QIdentifier type value))
                              (documents w)).
          { apply find_elem. split; [|exact Hm]. apply documents_elem. eauto. }
          apply head_None in Hhead. rewrite Hhead in Hin.
          now apply not_elem_of_nil in Hin. }
    unfold findOne in Hh. inversion Hh as [Hh1].
    unfold getOrCreateConversationByIdentifier, JS.bind. simpl. unfold findOne.
    rewrite Hh1. reflexivity.
  - subst c0. now rewrite created_valid.
  - reflexivity.
  - intros ->. split; [reflexivity|]. eexists. split; [reflexivity|].
    split; reflexivity.
Qed.

(** X11.  Get-or-create by identifier on the validating store.  When a
    conversation holds the identifier, the call returns it and changes
    nothing.  When none does and the identifier is one the schema accepts --
    a type of the enumeration and a non-empty value -- the call creates a
    valid conversation that holds it, and a second call returns the same
    conversation and leaves the store as the first call left it; a
    conversation created for a ['whatsapp_phone'] has that one identifier,
    verified, at priority 70, no message, and the channel 'whatsapp'.  When
    none does and the type is not of the enumeration or the value is empty,
    the save rejects and no conversation is stored. *)
Theorem getOrCreateConversationByIdentifier_idempotent (type value : string)
    (w : World) :
  (forall c,
      findOne (QIdentifier type value) w = (Ok (Some c), w) ->
      getOrCreateConversationByIdentifier (E := E) type value w = (Ok c, w)
      /\ Query_matches (QIdentifier type value) c = true)
  /\ (findOne (QIdentifier type value) w = (Ok None, w) ->
      type ∈ ["whatsapp_phone"; "website_session"; "user_id"; "phone"; "email"] ->
      value <> "" ->
      exists c w1,
        getOrCreateConversationByIdentifier (E := E) type value w = (Ok c, w1)
        /\ Query_matches (QIdentifier type value) c = true
        /\ getOrCreateConversationByIdentifier (E := E) type value w1 = (Ok c, w1)
        /\ store w1 = <[conv_id c := c]> (store w)
        /\ Schema.valid c = true
        /\ messages c = []
        /\ (type = "whatsapp_phone" ->
            channel c = "whatsapp"
            /\ exists id,
                 identifiers c = [id]
                 /\ id_verified id = true /\ id_priority id = 70))
  /\ (findOne (QIdentifier type value) w = (Ok None, w) ->
      type ∉ ["whatsapp_phone"; "website_session"; "user_id"; "phone"; "email"]
      \/ value = "" ->
      exists e w1,
        getOrCreateConversationByIdentifier (E := E) type value w = (Throw e, w1)
        /\ store w1 = store w).
Proof.
  split; [|split].
  - intros c Hfound.
    destruct (getOrCreateConversationByIdentifier_found type value c w Hfound)
      as (Hrun & _ & Hq).
    now split.
  - intros Hnone Htype Hvalue.
    assert (Hvalid : Schema.one_of Schema.identifier_types type && truthy value = true).
    { apply andb_true_iff. split; [now apply type_of_schema|].
      unfold truthy. apply negb_true_iff. now apply String.eqb_neq. }
    destruct (getOrCreateConversationByIdentifier_created type value w Hnone Hvalid)
      as (c & Hrun & Hq & Hagain & Hv & Hm & Hw).
    eexists c, _. split; [exact Hrun|]. split; [exact Hq|].
    split; [exact Hagain|]. split; [reflexivity|].
    split; [exact Hv|]. split; [exact Hm|exact Hw].
  - intros Hnone Hbad.
    assert (Hinvalid : Schema.one_of Schema.identifier_types type && truthy value
                       = false).
    { destruct Hbad as [Htype| ->]; [|apply andb_false_r].
      destruct (Schema.one_of Schema.identifier_types type) eqn:Ht; [|reflexivity].
      exfalso. apply Htype. now apply type_of_schema. }
    unfold findOne in Hnone. inversion Hnone as [Hhead].
    unfold getOrCreateConversationByIdentifier, JS.bind. simpl. unfold findOne.
    rewrite Hhead. simpl. unfold Validating.save.
    rewrite created_valid, Hinvalid. eexists _, _. split; reflexivity.
Qed.

End ValidatingStore.

Lemma valid_world_example : valid_world Ex.world.
Proof.
  intros k c Hk. unfold Ex.world in Hk. cbn [InMemory.store] in Hk.
  apply lookup_insert_Some in Hk as [[<- <-]|[_ Hk]]; [now split|].
  apply lookup_insert_Some in Hk as [[<- <-]|[_ Hk]]; [now split|].
  rewrite lookup_empty in Hk. discriminate Hk.
Qed.

Lemma addMessage_stores_witness :
  (exists w' c',
      addMessage (E := Scenario.validating_env) "p" "user" "hello again" "website"
        Ex.world = (Ok tt, w')
      /\ InMemory.store w' = <["p" := c']> (InMemory.store Ex.world)
      /\ messages c'
         = messages Ex.primary
           ++ [pushed_message ("oid" +:+ pretty (InMemory.fresh Ex.world))
                 (InMemory.clock Ex.world) "user" "hello again" "website"]
      /\ identifiers c' = identifiers Ex.primary)
  /\ (exists e w',
        addMessage (E := Scenario.validating_env) "p" "system" "hello again" "website"
          Ex.world = (Throw e, w')
        /\ InMemory.store w' = InMemory.store Ex.world).
Proof.
  split.
  - destruct (addMessage_stores
                (Config.default "You are a helpful assistant." []) Ex.backend_down
                (Some (Some Ex.backend_down)) Ex.search_none Ex.format_none
                "p" "user" "hello again" "website" Ex.world) as (_ & Hstored & _).
    destruct (Hstored Ex.primary)
      as (w' & c' & Hrun & Hstore & Hm & _ & _ & Hid & _);
      [vm_compute; reflexivity|reflexivity|reflexivity|now left|now right|].
    exists w', c'. repeat split; assumption.
  - destruct (addMessage_stores
                (Config.default "You are a helpful assistant." []) Ex.backend_down
                (Some (Some Ex.backend_down)) Ex.search_none Ex.format_none
                "p" "system" "hello again" "website" Ex.world) as (_ & _ & Hbad).
    apply (Hbad Ex.primary); [vm_compute; reflexivity|].
    right. left. intros [H|H]; discriminate H.
Defined.

Lemma getOrCreateConversationByIdentifier_idempotent_witness :
  (exists c w1,
      getOrCreateConversationByIdentifier (E := Scenario.validating_env)
        "whatsapp_phone" "+442079460000" Ex.world = (Ok c, w1)
      /\ getOrCreateConversationByIdentifier (E := Scenario.validating_env)
           "whatsapp_phone" "+442079460000" w1 = (Ok c, w1)
      /\ messages c = []
      /\ channel c = "whatsapp")
  /\ (exists e w1,
        getOrCreateConversationByIdentifier (E := Scenario.validating_env)
          "fax" "+442079460000" Ex.world = (Throw e, w1)
        /\ InMemory.store w1 = InMemory.store Ex.world).
Proof.
  split.
  - destruct (getOrCreateConversationByIdentifier_idempotent
                (Config.default "You are a helpful assistant." []) Ex.backend_down
                (Some (Some Ex.backend_down)) Ex.search_none Ex.format_none
                "whatsapp_phone" "+442079460000" Ex.world)
      as (_ & Hnew & _).
    destruct Hnew as (c & w1 & Hfirst & _ & Hsecond & _ & _ & Hm & Hw);
      [vm_compute; reflexivity|now left|discriminate|].
    destruct (Hw eq_refl) as (Hch & _).
    exists c, w1. repeat split; assumption.
  - destruct (getOrCreateConversationByIdentifier_idempotent
                (Config.default "You are a helpful assistant." []) Ex.backend_down
                (Some (Some Ex.backend_down)) Ex.search_none Ex.format_none
                "fax" "+442079460000" Ex.world)
      as (_ & _ & Hbad).
    apply Hbad; [vm_compute; reflexivity|]. left.
    intros Hin. repeat (apply elem_of_cons in Hin as [Hin|Hin]; [discriminate Hin|]).
    now apply not_elem_of_nil in Hin.
Defined.

(** ** Validation of tool arguments *)

Section ToolArguments.

Context {R : Runtime} {W : Type} {E : Env W}.

(** X13.  Arguments that pass [validateQueryKnowledgeBaseArgs] carry at least
    one usable search parameter, a text of at most 500 characters, a limit
    that -- once defaulted to 5 -- is an integer between 1 and 20, and a
    content type of the schema when one is given. *)
Theorem validated_query_arguments (args : json) :
  validateQueryKnowledgeBaseArgs args = None ->
  (exists k s, k ∈ ["text"; "category"; "tag"; "contentType"]
               /\ JsonText.get k args = Some (JStr s) /\ s <> "")
  /\ (forall s, JsonText.get "text" args = Some (JStr s) ->
                (String.length s <= 500)%nat)
  /\ (exists n, default (JNum 5) (JsonText.get "limit" args) = JNum n
                /\ 1 <= n <= 20)
  /\ (forall contentType,
        JsonText.get "contentType" args = Some contentType ->
        Json.truthy contentType = true ->
        exists s, contentType = JStr s /\ s ∈ validContentTypes).
Proof.
  unfold validateQueryKnowledgeBaseArgs, nonempty_string_field, invalid.
  intros Hvalid.
  assert (Htruthy : forall s, truthy s = true -> s <> "").
  { intros s Hs ->. discriminate Hs. }
  split; [|split; [|split]].
  - assert (Hfield : forall k, nonempty_string_field k args = true ->
                      exists s, JsonText.get k args = Some (JStr s) /\ s <> "").
    { intros k Hk. unfold nonempty_string_field in Hk.
      destruct (JsonText.get k args) as [[| | | |s| |]|]; try discriminate Hk.
      exists s. split; [reflexivity|now apply Htruthy]. }
    fold (nonempty_string_field "category" args) in Hvalid.
    fold (nonempty_string_field "tag" args) in Hvalid.
    fold (nonempty_string_field "contentType" args) in Hvalid.
    cbv zeta in Hvalid.
    match type of Hvalid with
    | context [negb ?t && negb ?c && negb ?g && negb ?y] =>
        destruct t eqn:Ht; [|destruct c eqn:Hc; [|destruct g eqn:Hg;
                                                   [|destruct y eqn:Hy]]]
    end.
    + destruct (JsonText.get "text" args) as [[| | | |s| |]|] eqn:Hget;
        try discriminate Ht.
      apply andb_true_iff in Ht as [Ht _].
      exists "text", s. split; [set_solver|]. split; [exact Hget|now apply Htruthy].
    + destruct (Hfield _ Hc) as (s & Hs & Hne). exists "category", s.
      split; [set_solver|]. now split.
    + destruct (Hfield _ Hg) as (s & Hs & Hne). exists "tag", s.
      split; [set_solver|]. now split.
    + destruct (Hfield _ Hy) as (s & Hs & Hne). exists "contentType", s.
      split; [set_solver|]. now split.
    + discriminate Hvalid.
  - intros s Hs. rewrite Hs in Hvalid.
    destruct (negb _ && _ && _ && _); [discriminate Hvalid|].
    destruct (truthy s) eqn:Ht.
    + cbn [andb] in Hvalid.
      destruct (Nat.ltb_spec 500 (String.length s)); [discriminate Hvalid|lia].
    + apply negb_false_iff, String.eqb_eq in Ht. subst s. simpl. lia.
  - destruct (negb _ && _ && _ && _); [discriminate Hvalid|].
    destruct (match JsonText.get "text" args with
              | Some (JStr s) => truthy s && (500 <? String.length s)%nat
              | _ => false
              end); [discriminate Hvalid|].
    destruct (JsonText.get "limit" args) as [[| |n| | | |]|];
      try discriminate Hvalid.
    + cbn [default from_option id].
      destruct (Z.ltb_spec n 1), (Z.ltb_spec 20 n); try discriminate Hvalid.
      exists n. split; [reflexivity|lia].
    + exists 5. split; [reflexivity|lia].
  - intros contentType Hct Htruth.
    destruct (negb _ && _ && _ && _); [discriminate Hvalid|].
    destruct (match JsonText.get "text" args with
              | Some (JStr s) => truthy s && (500 <? String.length s)%nat
              | _ => false
              end); [discriminate Hvalid|].
    destruct (match JsonText.get "limit" args with
              | Some (JNum n) => _
              | Some _ => _
              | None => None
              end); [discriminate Hvalid|].
    rewrite Hct, Htruth in Hvalid. cbn [andb] in Hvalid.
    destruct contentType as [| | | |s| |]; try discriminate Hvalid.
    destruct (existsb (String.eqb s) validContentTypes) eqn:He;
      [|discriminate Hvalid].
    exists s. split; [reflexivity|]. now apply existsb_eqb_elem.
Qed.

End ToolArguments.

Lemma validated_query_arguments_witness :
  (exists k s, k ∈ ["text"; "category"; "tag"; "contentType"]
               /\ JsonText.get k Scenario.query_args = Some (JStr s) /\ s <> "")
  /\ (forall s, JsonText.get "text" Scenario.query_args = Some (JStr s) ->
                (String.length s <= 500)%nat)
  /\ (exists n, default (JNum 5) (JsonText.get "limit" Scenario.query_args) = JNum n
                /\ 1 <= n <= 20)
  /\ (forall contentType,
        JsonText.get "contentType" Scenario.query_args = Some contentType ->
        Json.truthy contentType = true ->
        exists s, contentType = JStr s /\ s ∈ validContentTypes).
Proof. apply (validated_query_arguments Scenario.query_args). reflexivity. Defined.

(** ** The knowledge tool and the previous-conversation tool *)

Section ToolHandlers.

Context {R : Runtime} {W : Type} {E : Env W}.

(** X14.  For arguments that passed validation, the knowledge tool never falls
    back on the user's message: its outcome does not depend on the message
    held in the context. *)
Theorem validated_query_ignores_user_message (args : json) (context : ToolContext)
    (userMessage : option string) (w : W) :
  validateQueryKnowledgeBaseArgs args = None ->
  queryKnowledgeBase args (with_userMessage userMessage context) w
  = queryKnowledgeBase args context w.
Proof.
  intros Hvalid.
  assert (Hfield : forall k, nonempty_string_field k args = true ->
                    Json.truthy_opt (JsonText.get k args) = true).
  { intros k Hk. unfold nonempty_string_field in Hk.
    destruct (JsonText.get k args) as [[| | | |s| |]|]; try discriminate Hk.
    exact Hk. }
  assert (Hcond : forall blank,
             blank_text (JsonText.get "text" args) = Ok blank ->
             blank && negb (Json.truthy_opt (JsonText.get "category" args))
             && negb (Json.truthy_opt (JsonText.get "tag" args))
             && negb (Json.truthy_opt (JsonText.get "contentType" args)) = false).
  { intros blank Hblank.
    unfold validateQueryKnowledgeBaseArgs in Hvalid. cbv zeta in Hvalid.
    match type of Hvalid with
    | context [negb ?t && negb ?c && negb ?g && negb ?y] =>
        destruct t eqn:Ht; [|destruct c eqn:Hc; [|destruct g eqn:Hg;
                                                   [|destruct y eqn:Hy]]]
    end.
    - destruct (JsonText.get "text" args) as [[| | | |s| |]|];
        try discriminate Ht.
      apply andb_true_iff in Ht as [Ht Hlen]. simpl in Hblank.
      unfold JS.truthy in Hblank. unfold truthy in Ht. rewrite Ht in Hblank.
      simpl in Hblank. inversion Hblank as [Hb].
      destruct (String.eqb_spec (Text.trim s) "") as [He|_]; [|reflexivity].
      rewrite He in Hlen. discriminate Hlen.
    - rewrite (Hfield _ Hc). cbn [negb]. now rewrite andb_false_r.
    - rewrite (Hfield _ Hg). cbn [negb]. now rewrite andb_false_r.
    - rewrite (Hfield _ Hy). cbn [negb]. now rewrite andb_false_r.
    - discriminate Hvalid. }
  unfold queryKnowledgeBase, try_catch, JS.bind, lift.
  destruct (blank_text (JsonText.get "text" args)) as [blank|e] eqn:Hblank;
    [|reflexivity].
  now rewrite (Hcond blank eq_refl).
Qed.

Lemma rev_app_digits (p : ascii -> bool) (s1 s2 : string) :
  String.length (filter_chars p (String.rev_app s1 s2))
  = (String.length (filter_chars p s1) + String.length (filter_chars p s2))%nat.
Proof.
  revert s2. induction s1 as [|c s1 IH]; intros s2; [reflexivity|].
  cbn [String.rev_app filter_chars]. rewrite IH. cbn [filter_chars].
  destruct (p c); cbn [String.length]; lia.
Qed.

Lemma trim_start_digits (s : string) :
  filter_chars is_digit (Text.trim_start s) = filter_chars is_digit s.
Proof.
  induction s as [|c s IH]; [reflexivity|]. cbn [Text.trim_start filter_chars].
  destruct (Text.is_space c) eqn:Hs; [|reflexivity].
  rewrite IH. destruct (is_digit c) eqn:Hd; [|reflexivity].
  apply digit_not_space in Hd. congruence.
Qed.

(** Trimming removes no digit. *)
Lemma digits_within_trim (s : string) :
  (String.length (filter_chars is_digit s) <= String.length (Text.trim s))%nat.
Proof.
  assert (Hsame : String.length (filter_chars is_digit (Text.trim s))
                  = String.length (filter_chars is_digit s)).
  { unfold Text.trim, String.rev.
    rewrite rev_app_digits, trim_start_digits, rev_app_digits, trim_start_digits.
    cbn [filter_chars String.length]. lia. }
  rewrite <- Hsame. apply filter_chars_length.
Qed.

(** X15.  The tool [searchPreviousConversations] is not validated -- the
    [validateToolArguments] in force accepts any arguments for it -- but
    whatever [validateSearchPreviousConversationsArgs] would reject, the
    handler refuses by itself: it resolves to a result with [success] and
    [found] false, and makes no query and no change. *)
Theorem rejected_phone_is_refused (args : json) (context : ToolContext)
    (failure : ValidationFailure) (w : W) :
  validateSearchPreviousConversationsArgs args = Some failure ->
  validateToolArguments "searchPreviousConversations" args = None
  /\ exists j,
       searchPreviousConversations args context w = (Ok (RValue j), w)
       /\ JsonText.get "success" j = Some (JBool false)
       /\ JsonText.get "found" j = Some (JBool false).
Proof.
  intros Hrej. split; [reflexivity|].
  unfold validateSearchPreviousConversationsArgs in Hrej.
  unfold searchPreviousConversations, try_catch.
  destruct (JsonText.get "phoneNumber" args) as [[| | | |phoneNumber| |]|];
    try (eexists; split; [reflexivity|split; reflexivity]).
  assert (Hshort : (String.length (filter_chars is_digit phoneNumber) < 7)%nat).
  { destruct (truthy phoneNumber) eqn:Ht.
    - cbn [negb] in Hrej.
      destruct (Nat.ltb_spec (String.length (Text.trim phoneNumber)) 5) as [Hlt|];
        [|discriminate Hrej].
      pose proof (digits_within_trim phoneNumber). lia.
    - apply truthy_false in Ht. subst phoneNumber. simpl. lia. }
  apply Nat.ltb_lt in Hshort. rewrite Hshort.
  eexists; split; [reflexivity|split; reflexivity].
Qed.

End ToolHandlers.

Lemma validated_query_ignores_user_message_witness :
  queryKnowledgeBase (E := Ex.env) Scenario.query_args
    (with_userMessage (Some "and on Sundays") Scenario.context) Ex.world
  = queryKnowledgeBase (E := Ex.env) Scenario.query_args Scenario.context Ex.world.
Proof.
  apply (validated_query_ignores_user_message (E := Ex.env) Scenario.query_args).
  reflexivity.
Defined.

Lemma rejected_phone_is_refused_witness :
  validateToolArguments "searchPreviousConversations" Scenario.short_args = None
  /\ exists j,
       searchPreviousConversations (R := Ex.runtime) (E := Ex.env) Scenario.short_args
         Scenario.context Ex.world
       = (Ok (RValue j), Ex.world)
       /\ JsonText.get "success" j = Some (JBool false)
       /\ JsonText.get "found" j = Some (JBool false).
Proof.
  apply (rejected_phone_is_refused (R := Ex.runtime) (E := Ex.env) Scenario.short_args
           Scenario.context
           {| v_error := "Phone number too short";
              v_userMessage :=
                Some "That phone number seems too short. Could you provide your full phone number?" |}).
  reflexivity.
Defined.

(** ** Merges and the previous-conversation tool over the in-memory store *)

Section InMemoryTools.

Import InMemory.

Context {R : Runtime}.

Variable cfg : Config.t.
Variable backend : Request -> exn Response.
Variable client : option (option (Request -> exn Response)).
Variable search : json -> json -> exn (list json).
Variable format : list json -> exn string.

Local Abbreviation E := (InMemory.env cfg backend client search format).

Lemma lookup_foldr_delete_in (m : gmap string Conversation) (ks : list string)
    (k : string) :
  k ∈ ks -> foldr delete m ks !! k = None.
Proof.
  induction ks as [|k' ks IH]; intros Hk; [now apply not_elem_of_nil in Hk|].
  simpl. destruct (decide (k' = k)) as [->|Hne]; [apply lookup_delete_eq|].
  rewrite lookup_delete_ne by exact Hne. apply IH.
  apply elem_of_cons in Hk as [->|Hk]; [contradiction|exact Hk].
Qed.

Lemma pick_userInfo_kept (u : option UserInfo) (cs : list Conversation) :
  has_userId u = true -> foldl pick_userInfo u cs = u.
Proof.
  intros Hu. induction cs as [|c cs IH]; [reflexivity|]. simpl.
  unfold pick_userInfo at 2. rewrite Hu. cbn [negb]. rewrite andb_false_r.
  exact IH.
Qed.

(** X16.  What a merge leaves in the store.  When the primary is not stored
    the merge rejects and changes nothing.  Otherwise it resolves: the
    primary is stored with the merged content, every candidate is deleted,
    every other document is untouched, and the result counts the candidates
    and their messages.  The primary keeps its profile when that carries a
    user id; without one, it takes the profile of the first candidate that
    carries one. *)
Theorem mergeConversations_store (pid : string) (cs : list Conversation) (w : World) :
  (store w !! pid = None ->
   mergeConversations (E := E) pid cs w
   = (Throw (mkError ("Primary conversation " +:+ pid +:+ " not found") None), w))
  /\ (forall P,
        store w !! pid = Some P ->
        conv_id P = pid ->
        identifiers P <> [] ->
        pid ∉ map conv_id cs ->
        exists r w',
          mergeConversations (E := E) pid cs w = (Ok r, w')
          /\ store w' !! pid = Some (mr_conversation r)
          /\ (forall c, c ∈ cs -> store w' !! conv_id c = None)
          /\ (forall k, k <> pid -> k ∉ map conv_id cs ->
                        store w' !! k = store w !! k)
          /\ mergedCount r = length cs
          /\ mergedMessages r = length (concat (map messages cs))
          /\ length (messages (mr_conversation r))
             = (length (messages P) + mergedMessages r)%nat
          /\ userInfo (mr_conversation r) = foldl pick_userInfo (userInfo P) cs
          /\ (has_userId (userInfo P) = true ->
              userInfo (mr_conversation r) = userInfo P)).
Proof.
  split.
  - intros Hnone. unfold mergeConversations, try_catch, JS.bind. simpl.
    unfold findById. now rewrite Hnone.
  - intros P Hp Hid Hne Hnotin.
    destruct (merge_run cfg backend client search format pid P cs w Hp Hne)
      as (pc & w' & Hrun & Hpc & Hst).
    assert (Hcid : conv_id pc = pid).
    { destruct Hpc as [->|[s ->]]; exact Hid. }
    assert (Hm : messages pc = JS.sort by_timestamp (all_input_messages P cs)).
    { destruct Hpc as [->|[s ->]]; reflexivity. }
    assert (Hu : userInfo pc = foldl pick_userInfo (userInfo P) cs).
    { destruct Hpc as [->|[s ->]]; reflexivity. }
    eexists _, w'. split; [exact Hrun|]. simpl.
    split; [|split; [|split; [|split; [reflexivity|split; [reflexivity|split;
                                                             [|split]]]]]].
    + rewrite Hst. unfold store_after_merge.
      rewrite lookup_foldr_delete_notin by exact Hnotin.
      rewrite Hcid. apply lookup_insert_eq.
    + intros c Hc. rewrite Hst. unfold store_after_merge.
      apply lookup_foldr_delete_in. apply list_elem_of_In, in_map.
      now apply list_elem_of_In.
    + intros k Hk Hkn. rewrite Hst. unfold store_after_merge.
      rewrite lookup_foldr_delete_notin by exact Hkn.
      rewrite Hcid. now rewrite lookup_insert_ne by congruence.
    + rewrite Hm, (sort_length msg_timestamp). unfold all_input_messages.
      now rewrite length_app.
    + exact Hu.
    + intros Hhas. rewrite Hu. now apply pick_userInfo_kept.
Qed.

(** X17.  The tool when no WhatsApp conversation matches the number: the
    current conversation is saved with the number, as typed, under a
    ['phone'] identifier of priority 70 or more, and the result reports
    [phoneAdded].  A later message on the messaging channel finds that
    conversation for the automatic merge whenever the typed value ends with
    the last nine digits of the sender's number. *)
Theorem searchPreviousConversations_saves_phone (args : json) (context : ToolContext)
    (phoneNumber current : string) (c : Conversation) (w : World) :
  JsonText.get "phoneNumber" args = Some (JStr phoneNumber) ->
  (7 <= String.length (filter_chars is_digit phoneNumber))%nat ->
  ctx_conversationId context = Some current ->
  find (previousConversations_query phoneNumber current) w = (Ok [], w) ->
  store w !! current = Some c ->
  conv_id c = current ->
  exists j w' c',
    searchPreviousConversations (E := E) args context w = (Ok (RValue j), w')
    /\ JsonText.get "found" j = Some (JBool false)
    /\ JsonText.get "phoneAdded" j = Some (JBool true)
    /\ store w' = <[current := c']> (store w)
    /\ messages c' = messages c
    /\ (exists id, stored "phone" phoneNumber (identifiers c') = Some id
                   /\ 70 <= id_priority id)
    /\ (forall sender other,
          other <> current ->
          endsWith (matchDigits sender) phoneNumber = true ->
          Query_matches (autoMerge_query sender other) c' = true).
Proof.
  intros Hget Hdigits Hctx Hfind Hc Hid.
  unfold searchPreviousConversations, try_catch, JS.bind.
  rewrite Hget, Hctx.
  destruct (Nat.ltb_spec (String.length (filter_chars is_digit phoneNumber)) 7)
    as [Hlt|_]; [lia|].
  simpl. unfold find in Hfind |- *. inversion Hfind as [Hnil]. rewrite Hnil.
  unfold findById. rewrite Hc. simpl.
  set (c' := addIdentifier (clock w) "phone" phoneNumber 70 false c).
  assert (Hne : identifiers c' <> []).
  { subst c'. rewrite addIdentifier_upsert.
    destruct (identifiers c) as [|x rest]; [discriminate|]. simpl.
    now destruct (decide _). }
  rewrite (save_ok c') by exact Hne. unfold ret. simpl.
  assert (Hkey : conv_id c' = current).
  { subst c'. unfold addIdentifier.
    destruct (find_identifier _ _ _) as [[i e]|]; exact Hid. }
  rewrite Hkey.
  assert (Hstored : exists id, stored "phone" phoneNumber (identifiers c') = Some id
                               /\ 70 <= id_priority id).
  { subst c'. rewrite addIdentifier_upsert.
    induction (identifiers c) as [|x rest IH].
    - simpl. rewrite stored_cons. rewrite decide_True by (split; reflexivity).
      eexists. split; [reflexivity|]. simpl. lia.
    - cbn [upsert]. destruct (decide (same_pair "phone" phoneNumber x)) as [Hx|Hx].
      + rewrite stored_cons. rewrite decide_True by (now apply upgrade_same_pair).
        eexists. split; [reflexivity|].
        destruct (Z.gtb_spec 70 (id_priority x)); simpl; lia.
      + rewrite stored_cons. rewrite decide_False by exact Hx. exact IH. }
  eexists _, _, c'. split; [reflexivity|].
  split; [reflexivity|]. split; [reflexivity|]. split; [reflexivity|].
  split.
  { subst c'. unfold addIdentifier.
    destruct (find_identifier _ _ _) as [[i e]|]; reflexivity. }
  split; [exact Hstored|].
  intros sender other Hother Hends. simpl.
  rewrite Hkey. apply andb_true_iff. split.
  - apply negb_true_iff, String.eqb_neq. congruence.
  - destruct Hstored as (id & Hs & _). unfold stored, find_identifier in Hs.
    destruct (list_find _ _) as [[i e]|] eqn:Hfindid; [|discriminate Hs].
    inversion Hs; subst e.
    apply list_find_Some in Hfindid as (Hlook & [Ht Hv] & _).
    apply (has_identifier_intro _ _ id).
    + eapply list_elem_of_lookup_2. exact Hlook.
    + rewrite Ht, Hv. simpl. exact Hends.
Qed.

End InMemoryTools.

Lemma mergeConversations_store_witness :
  exists r w',
    mergeConversations (E := Ex.env) "p" [Ex.candidate] Ex.world = (Ok r, w')
    /\ InMemory.store w' !! "p" = Some (mr_conversation r)
    /\ InMemory.store w' !! "c" = None
    /\ mergedCount r = 1%nat
    /\ mergedMessages r = 4%nat.
Proof.
  destruct (mergeConversations_store
              (Config.default "You are a helpful assistant." []) Ex.backend_down
              (Some (Some Ex.backend_down)) Ex.search_none Ex.format_none
              "p" [Ex.candidate] Ex.world) as (_ & Hstored).
  destruct (Hstored Ex.primary)
    as (r & w' & Hrun & Hp & Hgone & _ & Hcount & Hmessages & _);
    [vm_compute; reflexivity|reflexivity|discriminate| |].
  - intros Hin. apply list_elem_of_singleton in Hin. discriminate Hin.
  - exists r, w'. split; [exact Hrun|]. split; [exact Hp|].
    split; [|split; assumption].
    apply (Hgone Ex.candidate). apply list_elem_of_singleton. reflexivity.
Defined.

Lemma searchPreviousConversations_saves_phone_witness :
  exists j w' c',
    searchPreviousConversations (R := Ex.runtime) (E := Ex.env) Scenario.landline_args
      Scenario.context Ex.world
    = (Ok (RValue j), w')
    /\ JsonText.get "found" j = Some (JBool false)
    /\ JsonText.get "phoneAdded" j = Some (JBool true)
    /\ InMemory.store w' = <["p" := c']> (InMemory.store Ex.world)
    /\ messages c' = messages Ex.primary
    /\ (exists id, stored "phone" "02079460000" (identifiers c') = Some id
                   /\ 70 <= id_priority id)
    /\ (forall sender other,
          other <> "p" ->
          endsWith (matchDigits sender) "02079460000" = true ->
          Query_matches (autoMerge_query sender other) c' = true).
Proof.
  apply (searchPreviousConversations_saves_phone (R := Ex.runtime)
           (Config.default "You are a helpful assistant." []) Ex.backend_down
           (Some (Some Ex.backend_down)) Ex.search_none Ex.format_none
           Scenario.landline_args Scenario.context "02079460000" "p" Ex.primary
           Ex.world).
  - reflexivity.
  - vm_compute; lia.
  - reflexivity.
  - vm_compute; reflexivity.
  - vm_compute; reflexivity.
  - reflexivity.
Defined.

(** ** Replies and summaries *)

Section Replies.

Context {R : Runtime} {W : Type} {E : Env W}.

Lemma append_nonempty (a b : string) : a <> "" -> a +:+ b <> "".
Proof. destruct a as [|c a]; [contradiction|]. intros _ H. discriminate H. Qed.

(** X18.  [extractResponseText] returns the empty string in two cases only:
    the response has no output item, or its output holds no text and its
    input -- if it echoes one -- holds no function-call output.  In every
    other case the caller gets text: the model's, or a fallback about the
    tool that ran. *)
Theorem extractResponseText_empty_iff (response : Response) :
  extractResponseText response = ""
  <-> match resp_output response with
      | None | Some [] => True
      | Some output =>
          collect_text output = ""
          /\ match resp_input response with
             | Some input => List.filter is_function_call_output input = []
             | None => True
             end
      end.
Proof.
  unfold extractResponseText.
  destruct (resp_output response) as [[|item rest]|]; [tauto| |tauto].
  set (text := collect_text (item :: rest)).
  destruct (truthy text) eqn:Ht; cbn [negb].
  - split.
    + intros He. rewrite He in Ht. discriminate Ht.
    + intros [He _]. exact He.
  - apply truthy_false in Ht. rewrite Ht.
    destruct (resp_input response) as [input|]; [|tauto].
    destruct (List.filter is_function_call_output input) as [|o os] eqn:Hf.
    + simpl. tauto.
    + cbn [length Nat.ltb Nat.leb]. split; [|intros [_ H]; discriminate H].
      intros He. exfalso. revert He.
      match goal with
      | |- match ?t with Some _ => _ | None => _ end = "" -> False =>
          destruct t as [reply|] eqn:Hreply
      end; [|discriminate].
      intros ->.
      destruct (List.find _ _) as [[| |call_id name out]|]; try discriminate Hreply.
      destruct (JSON_parse out) as [[| | | | | |]|]; try discriminate Hreply;
        destruct (Json.truthy_opt _); try discriminate Hreply;
        inversion Hreply as [He];
        apply (append_nonempty "The current time is " _) in He; auto; discriminate.
Qed.

Local Ltac resolves_to_null :=
  eexists _, _; split; [reflexivity|]; split; [lia|];
  let s := fresh "s" in let Hs := fresh "Hs" in intros s Hs; discriminate Hs.

(** X19.  [generateSummary] never rejects.  Below the minimum message count it
    resolves to [null] without calling the backend.  A summary it returns
    has a non-empty text, counts the messages of the conversation, points
    at its last message, which has an id, and names the summary model. *)
Theorem generateSummary_resolves (conversation : Conversation) (w : W) :
  exists r w',
    generateSummary conversation w = (Ok r, w')
    /\ (Z.of_nat (length (messages conversation))
        < number_or (Config.minMessageCount (Config.summary config)) 5 ->
        r = None /\ w' = w)
    /\ forall s,
         r = Some s ->
         number_or (Config.minMessageCount (Config.summary config)) 5
         <= Z.of_nat (length (messages conversation))
         /\ sum_messageCount s = Z.of_nat (length (messages conversation))
         /\ (exists text, sum_text s = Some text /\ text <> "")
         /\ (exists m id, last (messages conversation) = Some m
                          /\ msg_id m = Some id
                          /\ sum_lastMessageId s = Some id)
         /\ sum_modelUsed s
            = Some (or_else (Config.summaryModel config) (Config.model config)).
Proof.
  unfold generateSummary, try_catch, JS.bind, ret.
  destruct (Z.ltb_spec (Z.of_nat (length (messages conversation)))
              (number_or (Config.minMessageCount (Config.summary config)) 5))
    as [Hlt|Hge].
  { eexists _, _. split; [reflexivity|]. split; [auto|]. intros s Hs. discriminate Hs. }
  destruct getOpenAIClient as [[create|]|];
    [|resolves_to_null|resolves_to_null].
  destruct (create _ w) as [[response|e] w1]; [|resolves_to_null].
  unfold extractSummaryText.
  destruct (resp_output response) as [[|item rest]|];
    [resolves_to_null| |resolves_to_null].
  destruct (truthy (collect_text (item :: rest))) eqn:Ht; [|resolves_to_null].
  destruct (last (messages conversation)) as [m|] eqn:Hlast; [|resolves_to_null].
  destruct (msg_id m) as [id|] eqn:Hid; [|resolves_to_null].
  unfold Date_now. destruct (clock_read w1) as [now w2].
  eexists _, _. split; [reflexivity|]. split; [lia|].
  intros s Hs. inversion Hs; subst s. simpl.
  split; [lia|]. split; [reflexivity|]. split.
  - eexists. split; [reflexivity|]. intros He. rewrite He in Ht. discriminate Ht.
  - split; [|reflexivity]. exists m, id. auto.
Qed.

(** X20.  The search text the knowledge tool derives from the user's message
    is empty only when the message is: if removing the conversational
    phrases leaves nothing, the message itself is used. *)
Theorem extractSearchTerms_nonempty (message : string) :
  extractSearchTerms message = "" <-> message = "".
Proof.
  unfold extractSearchTerms. split.
  - destruct (truthy message) eqn:Ht; cbn [negb].
    + unfold or_else. destruct (truthy (Text.trim _)) eqn:Hc.
      * intros He. rewrite He in Hc. discriminate Hc.
      * intros He. rewrite He in Ht. discriminate Ht.
    + intros _. now apply truthy_false.
  - intros ->. reflexivity.
Qed.

End Replies.

Lemma generateSummary_resolves_witness :
  generateSummary (E := Ex.env) Ex.primary Ex.world = (Ok None, Ex.world).
Proof.
  destruct (generateSummary_resolves (E := Ex.env) Ex.primary Ex.world)
    as (r & w' & Hrun & Hshort & _).
  destruct Hshort as [-> ->]; [vm_compute; reflexivity|]. exact Hrun.
Defined.

(** ** Sessions *)

Section SessionFacts.

Context {Socket : Type}.

Implicit Types (sessions : Sessions Socket) (session : Session Socket).

Lemma JsMap_get_set {V} (k k' : string) (v : V) (m : JsMap.t V) :
  JsMap.get k' (JsMap.set k v m)
  = if String.eqb k k' then Some v else JsMap.get k' m.
Proof.
  induction m as [|[k0 v0] rest IH]; simpl.
  - reflexivity.
  - destruct (String.eqb_spec k0 k) as [->|Hne]; simpl.
    + now destruct (String.eqb k k').
    + destruct (String.eqb_spec k0 k') as [->|Hne'].
      * destruct (String.eqb_spec k k') as [->|_]; [contradiction|reflexivity].
      * exact IH.
Qed.

Lemma JsMap_keys_set {V} (k : string) (v : V) (m : JsMap.t V) :
  map fst (JsMap.set k v m)
  = if decide (k ∈ map fst m) then map fst m else map fst m ++ [k].
Proof.
  induction m as [|[k0 v0] rest IH]; simpl.
  - destruct (decide (k ∈ [])) as [H|_]; [now apply not_elem_of_nil in H|reflexivity].
  - destruct (String.eqb_spec k0 k) as [->|Hne]; simpl.
    + rewrite decide_True by left. reflexivity.
    + rewrite IH. destruct (decide (k ∈ map fst rest)) as [Hin|Hin].
      * rewrite decide_True by now right. reflexivity.
      * rewrite decide_False; [reflexivity|].
        intros H. apply elem_of_cons in H as [->|H]; contradiction.
Qed.

Lemma JsMap_wf_set {V} (k : string) (v : V) (m : JsMap.t V) :
  JsMap.wf m -> JsMap.wf (JsMap.set k v m).
Proof.
  unfold JsMap.wf. intros Hnd. rewrite JsMap_keys_set.
  destruct (decide _) as [Hin|Hin]; [exact Hnd|].
  apply NoDup_app. split; [exact Hnd|]. split; [|apply NoDup_singleton].
  intros x Hx Hk. apply list_elem_of_singleton in Hk. now subst x.
Qed.

Lemma JsMap_get_None {V} (k : string) (m : JsMap.t V) :
  k ∉ map fst m -> JsMap.get k m = None.
Proof.
  induction m as [|[k0 v0] rest IH]; simpl; [reflexivity|].
  intros Hn. apply not_elem_of_cons in Hn as [Hne Hn].
  destruct (String.eqb_spec k0 k) as [->|_]; [contradiction|now apply IH].
Qed.

Lemma JsMap_get_delete {V} (k k' : string) (m : JsMap.t V) :
  JsMap.wf m ->
  JsMap.get k' (JsMap.delete k m)
  = if String.eqb k k' then None else JsMap.get k' m.
Proof.
  unfold JsMap.wf. induction m as [|[k0 v0] rest IH]; simpl; intros Hnd.
  - now destruct (String.eqb k k').
  - apply NoDup_cons in Hnd as [Hk0 Hnd].
    destruct (String.eqb_spec k0 k) as [->|Hne]; simpl.
    + destruct (String.eqb_spec k k') as [<-|_]; [|reflexivity].
      now apply JsMap_get_None.
    + destruct (String.eqb_spec k0 k') as [->|Hne'].
      * destruct (String.eqb_spec k k') as [->|_]; [contradiction|reflexivity].
      * now apply IH.
Qed.

(** X21.  The life of a session.  A created session is a browser session
    without a conversation, named after its id; it is found under its id
    until it is removed, and creating or removing it leaves every other
    session as it was. *)
Theorem session_lifecycle (ws : Socket) (sessionId : string) (now : Date)
    (sessions : Sessions Socket) :
  JsMap.wf sessions ->
  let created := createSession ws sessionId now sessions in
  getSession sessionId created.2 = Some created.1
  /\ conversationId created.1 = None
  /\ identifierType created.1 = "website_session"
  /\ identifierValue created.1 = "session_" +:+ sessionId
  /\ JsMap.wf created.2
  /\ getSession sessionId (removeSession sessionId created.2) = None
  /\ forall other,
       other <> sessionId ->
       getSession other created.2 = getSession other sessions
       /\ getSession other (removeSession sessionId created.2)
          = getSession other sessions.
Proof.
  intros Hwf created. subst created. unfold createSession, getSession, removeSession.
  cbn [fst snd].
  pose proof (JsMap_wf_set sessionId
                {| session_id := sessionId; session_ws := ws;
                   session_createdAt := now; identifierType := "website_session";
                   identifierValue := "session_" +:+ sessionId;
                   conversationId := None |} sessions Hwf) as Hwf'.
  split; [now rewrite JsMap_get_set, String.eqb_refl|].
  split; [reflexivity|]. split; [reflexivity|]. split; [reflexivity|].
  split; [exact Hwf'|]. split.
  - now rewrite JsMap_get_delete, String.eqb_refl by exact Hwf'.
  - intros other Hne.
    assert (Hneq : String.eqb sessionId other = false)
      by (apply String.eqb_neq; congruence).
    rewrite JsMap_get_delete by exact Hwf'.
    now rewrite JsMap_get_set, Hneq.
Qed.

Lemma redirect_loop (primary : string) (old : list string)
    (sessions : Sessions Socket) (st : nat * Sessions Socket) :
  foldl (redirect_step primary old) st sessions
  = ((st.1 + length (List.filter (fun e => points_to_old old e.2) sessions))%nat,
     st.2 ++ map (fun e => (e.1, if points_to_old old e.2
                                 then with_conversationId (Some primary) e.2
                                 else e.2)) sessions).
Proof.
  revert st. induction sessions as [|[k s] rest IH]; intros [count acc]; simpl.
  - now rewrite Nat.add_0_r, app_nil_r.
  - rewrite IH. unfold redirect_step. cbn [fst snd].
    destruct (points_to_old old s); cbn [fst snd]; rewrite <- app_assoc;
      cbn [length app]; f_equal; lia.
Qed.

Lemma JsMap_get_map {V} (f : V -> V) (k : string) (m : JsMap.t V) :
  JsMap.get k (map (fun e => (e.1, f e.2)) m) = f <$> JsMap.get k m.
Proof.
  induction m as [|[k0 v0] rest IH]; simpl; [reflexivity|].
  now destruct (String.eqb k0 k).
Qed.

(** X22.  Redirecting sessions after a merge.  The count returned is the
    number of sessions that pointed to one of the old conversations;
    exactly those sessions now point to the primary, every other session
    and the order of the sessions are unchanged;
    [updateSessionsForMergedConversations] is the same operation with its
    parameters swapped; and when the primary is not itself among the old
    ids, a second pass finds nothing to redirect. *)
Theorem redirectSessions_redirects (primary : string) (old : list string)
    (sessions : Sessions Socket) :
  let redirected := redirectSessions primary old sessions in
  redirected.1 = length (List.filter (points_to_old old) (getAllSessions sessions))
  /\ map fst redirected.2 = map fst sessions
  /\ (forall k,
        getSession k redirected.2
        = (fun s => if points_to_old old s
                    then with_conversationId (Some primary) s else s)
          <$> getSession k sessions)
  /\ updateSessionsForMergedConversations old primary sessions = redirected
  /\ (existsb (String.eqb primary) old = false ->
      (redirectSessions primary old redirected.2).1 = 0%nat).
Proof.
  intros redirected. subst redirected. unfold redirectSessions, getAllSessions,
    getSession, updateSessionsForMergedConversations, JsMap.values.
  rewrite !redirect_loop. cbn [fst snd app Nat.add].
  split.
  { induction sessions as [|[k s] rest IH]; [reflexivity|]. simpl.
    destruct (points_to_old old s); simpl; now rewrite IH. }
  split.
  { rewrite map_map. reflexivity. }
  split.
  { intros k. apply (JsMap_get_map
                       (fun s => if points_to_old old s
                                 then with_conversationId (Some primary) s else s)). }
  split; [reflexivity|].
  intros Hnot.
  induction sessions as [|[k s] rest IH]; [reflexivity|]. simpl.
  destruct (points_to_old old s) eqn:Hp; simpl.
  - unfold points_to_old at 1. simpl. rewrite Hnot, andb_false_r. exact IH.
  - rewrite Hp. exact IH.
Qed.

End SessionFacts.

Lemma session_lifecycle_witness :
  let created := createSession tt "s1" 100 Scenario.sessions in
  getSession "s1" created.2 = Some created.1
  /\ conversationId created.1 = None
  /\ identifierType created.1 = "website_session"
  /\ identifierValue created.1 = "session_s1"
  /\ JsMap.wf created.2
  /\ getSession "s1" (removeSession "s1" created.2) = None
  /\ forall other,
       other <> "s1" ->
       getSession other created.2 = getSession other Scenario.sessions
       /\ getSession other (removeSession "s1" created.2)
          = getSession other Scenario.sessions.
Proof.
  apply (session_lifecycle tt "s1" 100 Scenario.sessions).
  apply NoDup_singleton.
Defined.

Lemma redirectSessions_redirects_witness :
  (redirectSessions "p" ["c"] Scenario.sessions).1 = 1%nat
  /\ getSession "s0" (redirectSessions "p" ["c"] Scenario.sessions).2
     = with_conversationId (Some "p") <$> getSession "s0" Scenario.sessions
  /\ (redirectSessions "p" ["c"]
        (redirectSessions "p" ["c"] Scenario.sessions).2).1 = 0%nat.
Proof.
  destruct (redirectSessions_redirects "p" ["c"] Scenario.sessions)
    as (Hcount & _ & Hget & _ & Hagain).
  split; [exact Hcount|]. split; [exact (Hget "s0")|]. now apply Hagain.
Defined.

(** ** Profiles and image messages *)

Section Profiles.

Import InMemory.

Context {R : Runtime}.

Variable cfg : Config.t.
Variable backend : Request -> exn Response.
Variable client : option (option (Request -> exn Response)).
Variable search : json -> json -> exn (list json).
Variable format : list json -> exn string.

Local Abbreviation E := (InMemory.env cfg backend client search format).

Lemma upsert_stored_new (now : Date) (type value : string) (priority : Z)
    (verified : bool) (ids : list Identifier) :
  exists id,
    stored type value (upsert now type value priority verified ids) = Some id
    /\ priority <= id_priority id
    /\ (verified = true -> id_verified id = true).
Proof.
  induction ids as [|x rest IH].
  - simpl. rewrite stored_cons. rewrite decide_True by (split; reflexivity).
    eexists. split; [reflexivity|]. simpl. split; [lia|auto].
  - cbn [upsert]. destruct (decide (same_pair type value x)) as [Hx|Hx].
    + rewrite stored_cons. rewrite decide_True by (now apply upgrade_same_pair).
      eexists. split; [reflexivity|].
      destruct (Z.gtb_spec priority (id_priority x)), verified,
        (id_verified x) eqn:Hv; cbn; rewrite ?Hv; cbn;
        (split; [lia|intros; try reflexivity; try assumption; discriminate]).
    + rewrite stored_cons. rewrite decide_False by exact Hx. exact IH.
Qed.

Lemma upsert_nonempty (now : Date) (type value : string) (priority : Z)
    (verified : bool) (ids : list Identifier) :
  upsert now type value priority verified ids <> [].
Proof. destruct ids as [|x rest]; simpl; [discriminate|]. now destruct (decide _). Qed.

Lemma addIdentifier_fields (now : Date) (type value : string) (priority : Z)
    (verified : bool) (c : Conversation) :
  let c' := addIdentifier now type value priority verified c in
  conv_id c' = conv_id c /\ messages c' = messages c
  /\ userInfo c' = userInfo c /\ summary c' = summary c.
Proof.
  unfold addIdentifier. destruct (find_identifier _ _ _) as [[i e]|];
    repeat split; reflexivity.
Qed.

(** X23.  [updateUserInfo] on the store.  The profile of the conversation is
    replaced by the given one and its messages are kept.  A user id in the
    profile leaves a verified ['user_id'] identifier of priority 90 or more,
    a phone a verified ['phone'] identifier of priority 70 or more; every
    identifier the conversation had is still there, no less trusted than
    before. *)
Theorem updateUserInfo_identifies (conversationId : string) (info : UserInfo)
    (c : Conversation) (w : World) :
  store w !! conversationId = Some c ->
  conv_id c = conversationId ->
  identifiers c <> [] ->
  exists w' c',
    updateUserInfo (E := E) conversationId info w = (Ok tt, w')
    /\ store w' = <[conversationId := c']> (store w)
    /\ userInfo c' = Some info
    /\ messages c' = messages c
    /\ (forall uid, userId info = Some uid -> uid <> "" ->
          exists id, stored "user_id" uid (identifiers c') = Some id
                     /\ id_verified id = true /\ 90 <= id_priority id)
    /\ (forall number, phone info = Some number -> number <> "" ->
          exists id, stored "phone" number (identifiers c') = Some id
                     /\ id_verified id = true /\ 70 <= id_priority id)
    /\ (forall t v id,
          stored t v (identifiers c) = Some id ->
          exists id', stored t v (identifiers c') = Some id'
                      /\ id_priority id <= id_priority id'
                      /\ (id_verified id = true -> id_verified id' = true)).
Proof.
  intros Hc Hid Hne.
  set (c0 := set_userInfo (Some info) c).
  set (c1 := match userId info with
             | Some uid =>
                 if truthy uid
                 then addIdentifier (clock w + 1) "user_id" uid PRIORITY_USER_ID true c0
                 else c0
             | None => c0
             end).
  set (t1 := match userId info with
             | Some uid => if truthy uid then clock w + 1 + 1 + 1 else clock w + 1
             | None => clock w + 1
             end).
  set (c2 := match phone info with
             | Some number =>
                 if truthy number
                 then addIdentifier t1 "phone" number PRIORITY_PHONE true c1
                 else c1
             | None => c1
             end).
  assert (Hf1 : conv_id c1 = conversationId /\ messages c1 = messages c
                /\ userInfo c1 = Some info /\ identifiers c1 <> []).
  { subst c1. destruct (userId info) as [uid|]; [destruct (truthy uid)|];
      try (repeat split; assumption).
    pose proof (addIdentifier_fields (clock w + 1) "user_id" uid PRIORITY_USER_ID
                  true c0) as (H1 & H2 & H3 & _).
    rewrite H1, H2, H3. repeat split; try assumption.
    rewrite addIdentifier_upsert. apply upsert_nonempty. }
  destruct Hf1 as (Hk1 & Hm1 & Hu1 & Hn1).
  assert (Hf2 : conv_id c2 = conversationId /\ messages c2 = messages c
                /\ userInfo c2 = Some info /\ identifiers c2 <> []).
  { subst c2. destruct (phone info) as [number|]; [destruct (truthy number)|];
      try (repeat split; assumption).
    pose proof (addIdentifier_fields t1 "phone" number PRIORITY_PHONE true c1)
      as (H1 & H2 & H3 & _).
    rewrite H1, H2, H3. repeat split; try assumption.
    rewrite addIdentifier_upsert. apply upsert_nonempty. }
  destruct Hf2 as (Hk2 & Hm2 & Hu2 & Hn2).
  assert (Hrun : exists w', updateUserInfo (E := E) conversationId info w = (Ok tt, w')
                            /\ store w' = <[conversationId := c2]> (store w)).
  { unfold updateUserInfo, JS.bind. simpl. unfold findById. rewrite Hc. simpl.
    subst c2 t1 c1 c0.
    destruct (userId info) as [uid|]; [destruct (truthy uid)|];
      destruct (phone info) as [number|]; try destruct (truthy number);
      simpl in *; (rewrite save_ok by assumption); simpl;
      rewrite ?Hk2; eexists; split; reflexivity. }
  destruct Hrun as (w' & Hrun & Hstore).
  assert (Hmono1 : forall t v id,
             stored t v (identifiers c) = Some id ->
             exists id', stored t v (identifiers c1) = Some id'
                         /\ id_priority id <= id_priority id'
                         /\ (id_verified id = true -> id_verified id' = true)).
  { intros t v id Hs. subst c1.
    destruct (userId info) as [uid|]; [destruct (truthy uid)|];
      try (exists id; split; [exact Hs|split; [lia|auto]]).
    rewrite addIdentifier_upsert. now apply upsert_stored_mono. }
  assert (Hmono2 : forall t v id,
             stored t v (identifiers c1) = Some id ->
             exists id', stored t v (identifiers c2) = Some id'
                         /\ id_priority id <= id_priority id'
                         /\ (id_verified id = true -> id_verified id' = true)).
  { intros t v id Hs. subst c2.
    destruct (phone info) as [number|]; [destruct (truthy number)|];
      try (exists id; split; [exact Hs|split; [lia|auto]]).
    rewrite addIdentifier_upsert. now apply upsert_stored_mono. }
  exists w', c2. split; [exact Hrun|]. split; [exact Hstore|].
  split; [exact Hu2|]. split; [exact Hm2|]. split; [|split].
  - intros uid Huid Hnonempty.
    assert (Ht : truthy uid = true).
    { unfold truthy. apply negb_true_iff. now apply String.eqb_neq. }
    destruct (upsert_stored_new (clock w + 1) "user_id" uid PRIORITY_USER_ID true
                (identifiers c0)) as (id & Hs & Hp & Hv).
    assert (Hs1 : stored "user_id" uid (identifiers c1) = Some id).
    { subst c1. rewrite Huid, Ht. now rewrite addIdentifier_upsert. }
    destruct (Hmono2 _ _ _ Hs1) as (id' & Hs' & Hp' & Hv').
    exists id'. split; [exact Hs'|]. split; [auto|]. unfold PRIORITY_USER_ID in Hp. lia.
  - intros number Hnumber Hnonempty.
    assert (Ht : truthy number = true).
    { unfold truthy. apply negb_true_iff. now apply String.eqb_neq. }
    destruct (upsert_stored_new t1 "phone" number PRIORITY_PHONE true
                (identifiers c1)) as (id & Hs & Hp & Hv).
    exists id. subst c2. rewrite Hnumber, Ht, addIdentifier_upsert.
    split; [exact Hs|]. split; [auto|]. unfold PRIORITY_PHONE in Hp. lia.
  - intros t v id Hs.
    destruct (Hmono1 _ _ _ Hs) as (id1 & Hs1 & Hp1 & Hv1).
    destruct (Hmono2 _ _ _ Hs1) as (id2 & Hs2 & Hp2 & Hv2).
    exists id2. split; [exact Hs2|]. split; [lia|auto].
Qed.

End Profiles.

Section ImageMessages.

Context {R : Runtime} {W : Type} {E : Env W}.

(** X24.  An image message never goes unanswered: whatever the collaborators
    do, [processWhatsAppImageMessage] resolves with a non-empty reply.  With
    a sender number it can use and no media item, the reply is the fixed
    apology, and the world is left as finding or creating the sender's
    conversation left it: no message is stored and the backend is not
    called. *)
Theorem processWhatsAppImageMessage_always_replies (registry : @Registry W)
    (from message : string) (mediaItems : list MediaItem) (w : W) :
  (exists reply w',
      processWhatsAppImageMessage registry from message mediaItems w = (Ok reply, w')
      /\ reply <> "")
  /\ (forall cleanPhoneNumber,
        formatPhoneToE164 from = Some cleanPhoneNumber ->
        cleanPhoneNumber <> "" ->
        processWhatsAppImageMessage registry from message [] w
        = (Ok image_error_reply,
           (getOrCreateConversationByIdentifier "whatsapp_phone" cleanPhoneNumber w).2)).
Proof.
  split.
  - assert (Hres : resolves (fun reply => reply <> "")
                     (processWhatsAppImageMessage registry from message mediaItems)).
    { unfold processWhatsAppImageMessage. apply resolves_try_catch.
      - destruct (formatPhoneToE164 from) as [cleanPhoneNumber|];
          [|apply returns_ret; discriminate].
        destruct (negb (truthy cleanPhoneNumber)); [apply returns_ret; discriminate|].
        apply returns_bind_any. intros conversation. cbv zeta.
        destruct (head mediaItems) as [mediaItem|]; [|apply returns_throw].
        do 3 (apply returns_bind_any; intros ?).
        apply returns_bind_any. intros final.
        do 2 (apply returns_bind_any; intros ?).
        apply returns_ret. apply or_else_nonempty. discriminate.
      - intros e. apply resolves_ret. discriminate. }
    destruct (Hres w) as (reply & w' & Hrun & Hne). eauto.
  - intros cleanPhoneNumber Hclean Hne.
    unfold processWhatsAppImageMessage, try_catch, JS.bind. rewrite Hclean.
    assert (Ht : truthy cleanPhoneNumber = true).
    { unfold truthy. apply negb_true_iff. now apply String.eqb_neq. }
    rewrite Ht. cbn [negb head].
    destruct (getOrCreateConversationByIdentifier "whatsapp_phone" cleanPhoneNumber w)
      as [[conversation|e] w1]; reflexivity.
Qed.

End ImageMessages.

Lemma updateUserInfo_identifies_witness :
  exists w' c',
    updateUserInfo (E := Ex.env) "p" Scenario.profile Ex.world = (Ok tt, w')
    /\ InMemory.store w' = <["p" := c']> (InMemory.store Ex.world)
    /\ userInfo c' = Some Scenario.profile
    /\ messages c' = messages Ex.primary
    /\ (forall uid, userId Scenario.profile = Some uid -> uid <> "" ->
          exists id, stored "user_id" uid (identifiers c') = Some id
                     /\ id_verified id = true /\ 90 <= id_priority id)
    /\ (forall number, phone Scenario.profile = Some number -> number <> "" ->
          exists id, stored "phone" number (identifiers c') = Some id
                     /\ id_verified id = true /\ 70 <= id_priority id)
    /\ (forall t v id,
          stored t v (identifiers Ex.primary) = Some id ->
          exists id', stored t v (identifiers c') = Some id'
                      /\ id_priority id <= id_priority id'
                      /\ (id_verified id = true -> id_verified id' = true)).
Proof.
  apply (updateUserInfo_identifies
           (Config.default "You are a helpful assistant." []) Ex.backend_down
           (Some (Some Ex.backend_down)) Ex.search_none Ex.format_none
           "p" Scenario.profile Ex.primary Ex.world).
  - vm_compute; reflexivity.
  - reflexivity.
  - discriminate.
Defined.

Lemma processWhatsAppImageMessage_always_replies_witness :
  processWhatsAppImageMessage (R := Ex.runtime) (E := Ex.env) Ex.registry
    "whatsapp:+447911123456" "what is this" [] Ex.world
  = (Ok image_error_reply,
     (getOrCreateConversationByIdentifier (E := Ex.env) "whatsapp_phone"
        "+447911123456" Ex.world).2).
Proof.
  destruct (processWhatsAppImageMessage_always_replies (R := Ex.runtime)
              (E := Ex.env) Ex.registry "whatsapp:+447911123456" "what is this"
              [] Ex.world) as (_ & Hnone).
  apply (Hnone "+447911123456"); [reflexivity|discriminate].
Defined.

(** ** The knowledge base: search terms and formatted context *)

Section KnowledgeFacts.

Lemma lower_is_term_char (c : ascii) :
  CharClass.is_word (Text.lower c) = true -> is_term_char (Text.lower c) = true.
Proof.
  unfold CharClass.is_word, is_term_char.
  destruct (CharClass.is_upper (Text.lower c)) eqn:Hu; [|now simpl].
  exfalso. unfold Text.lower, CharClass.is_upper in *.
  destruct ((65 <=? nat_of_ascii c)%nat && (nat_of_ascii c <=? 90)%nat) eqn:Hc.
  - apply andb_true_iff in Hc as [H1 H2]. apply Nat.leb_le in H1, H2.
    rewrite nat_ascii_embedding in Hu by lia.
    apply andb_true_iff in Hu as [H3 H4]. apply Nat.leb_le in H3, H4. lia.
  - congruence.
Qed.

Lemma all_chars_app (p : ascii -> bool) (a b : string) :
  all_chars p (a +:+ b) = all_chars p a && all_chars p b.
Proof.
  induction a as [|c a IH]; [reflexivity|].
  change (String c a +:+ b) with (String c (a +:+ b)). cbn [all_chars].
  now rewrite IH, andb_assoc.
Qed.

(** Words cut out of a text hold its characters other than white space. *)
Lemma split_spaces_chars (p : ascii -> bool) (s word : string) (gap : bool) :
  all_chars (fun c => p c || Text.is_space c) s = true ->
  all_chars p word = true ->
  Forall (fun w => all_chars p w = true) (Knowledge.split_spaces s word gap).
Proof.
  revert word gap. induction s as [|c s IH]; intros word gap Hs Hw.
  - repeat constructor. exact Hw.
  - cbn [all_chars] in Hs. apply andb_true_iff in Hs as [Hc Hs].
    cbn [Knowledge.split_spaces].
    destruct (Text.is_space c) eqn:Hsp.
    + destruct gap; [now apply IH|]. constructor; [exact Hw|now apply IH].
    + apply IH; [exact Hs|]. rewrite all_chars_app, Hw. cbn [all_chars].
      rewrite orb_false_r in Hc. now rewrite Hc.
Qed.

Lemma all_chars_map_chars (p : ascii -> bool) (f : ascii -> ascii) (s : string) :
  (forall c, p (f c) = true) -> all_chars p (Knowledge.map_chars f s) = true.
Proof.
  intros Hf. induction s as [|c s IH]; [reflexivity|]. simpl. now rewrite Hf, IH.
Qed.

Lemma cleaned_text_chars (text : string) :
  all_chars (fun c => is_term_char c || Text.is_space c)
    (Knowledge.map_chars
       (fun c => if CharClass.is_word c || Text.is_space c then c else " "%char)
       (Knowledge.toLowerCase text))
  = true.
Proof.
  unfold Knowledge.toLowerCase.
  induction text as [|c text IH]; [reflexivity|].
  cbn [Knowledge.map_chars all_chars]. rewrite IH, andb_true_r.
  destruct (CharClass.is_word (Text.lower c)) eqn:Hw; cbn [orb].
  - now rewrite (lower_is_term_char _ Hw).
  - destruct (Text.is_space (Text.lower c)) eqn:Hs; [now rewrite Hs, orb_true_r|].
    reflexivity.
Qed.

(** X25.  Every search term [extractSearchTerms] returns is made of
    lower-case letters, digits and underscores, is at least
    [minWordLength] long, and is none of the stop words; an empty text
    gives no term. *)
Theorem search_terms_are_clean (text : string) (minWordLength : Z) :
  Knowledge.extractSearchTerms "" minWordLength = []
  /\ Forall (fun term =>
               all_chars is_term_char term = true
               /\ minWordLength <= Z.of_nat (String.length term)
               /\ term ∉ Knowledge.stopWords)
       (Knowledge.extractSearchTerms text minWordLength).
Proof.
  split; [reflexivity|]. unfold Knowledge.extractSearchTerms.
  destruct (negb (truthy text)); [constructor|]. cbv zeta.
  apply Forall_forall. intros term Hin.
  apply list_elem_of_In, filter_In in Hin as [Hin Hstop].
  apply filter_In in Hin as [Hin Hlen].
  split; [|split].
  - pose proof (split_spaces_chars is_term_char _ "" false
                  (cleaned_text_chars text) eq_refl) as Hsplit.
    rewrite Forall_forall in Hsplit. apply Hsplit. now apply list_elem_of_In.
  - now apply Z.leb_le.
  - intros Hs. apply negb_true_iff in Hstop.
    apply existsb_eqb_elem in Hs. congruence.
Qed.

Lemma length_append (a b : string) :
  String.length (a +:+ b) = (String.length a + String.length b)%nat.
Proof.
  induction a as [|c a IH]; [reflexivity|].
  change (String c a +:+ b) with (String c (a +:+ b)). simpl. now rewrite IH.
Qed.

Lemma append_assoc (a b c : string) : (a +:+ b) +:+ c = a +:+ (b +:+ c).
Proof.
  induction a as [|x a IH]; [reflexivity|].
  change (String x a +:+ b) with (String x (a +:+ b)).
  change (String x (a +:+ b) +:+ c) with (String x ((a +:+ b) +:+ c)).
  now rewrite IH.
Qed.

Lemma format_items_extends (items : list json) (index : nat) (context s : string) :
  Knowledge.format_items index items context = Ok s ->
  exists body, s = context +:+ body.
Proof.
  revert index context. induction items as [|item rest IH]; intros index context.
  - simpl. intros H. inversion H. exists "". clear.
    induction s as [|c s IH]; [reflexivity|].
    change (String c s +:+ "") with (String c (s +:+ "")). now rewrite <- IH.
  - simpl. destruct (Knowledge.format_item index item) as [text|e]; [|discriminate].
    intros H. destruct (IH _ _ H) as (body & ->).
    exists (text +:+ body). apply append_assoc.
Qed.

(** X26.  The formatted context is empty for no item; for one item or more it
    is the header, the items, then the closing instruction, and it is longer
    than 30 characters -- so the tool's test [length > 30] holds exactly when
    an item was found. *)
Theorem formatted_context_threshold (items : list json) (s : string) :
  Knowledge.formatKnowledgeContext items = Ok s ->
  (30 <? String.length s)%nat = (0 <? length items)%nat
  /\ (items = [] -> s = "")
  /\ (items <> [] ->
      exists body, s = Knowledge.header +:+ body +:+ Knowledge.footer).
Proof.
  unfold Knowledge.formatKnowledgeContext.
  destruct items as [|item rest].
  - simpl. intros H. inversion H. split; [reflexivity|]. split; [auto|].
    intros Hne. contradiction.
  - cbn [length Nat.eqb].
    destruct (Knowledge.format_items 0 (item :: rest) Knowledge.header)
      as [context|e] eqn:Hf; [|discriminate].
    intros H. inversion H. subst s.
    destruct (format_items_extends _ _ _ _ Hf) as (body & ->).
    split; [|split; [discriminate|]].
    + assert (Hfoot : (30 <? String.length Knowledge.footer)%nat = true)
        by (vm_compute; reflexivity).
      apply Nat.ltb_lt in Hfoot. rewrite !length_append.
      apply Nat.ltb_lt. simpl length. lia.
    + intros _. exists body. apply append_assoc.
Qed.

End KnowledgeFacts.

Lemma formatted_context_threshold_witness :
  match Knowledge.formatKnowledgeContext [Scenario.knowledge_item] with
  | Ok s =>
      (30 <? String.length s)%nat = true
      /\ exists body, s = Knowledge.header +:+ body +:+ Knowledge.footer
  | Throw _ => False
  end.
Proof.
  destruct (Knowledge.formatKnowledgeContext [Scenario.knowledge_item])
    as [s|e] eqn:Hformat; [|vm_compute in Hformat; discriminate Hformat].
  destruct (formatted_context_threshold [Scenario.knowledge_item] s Hformat)
    as (Hlong & _ & Hshape).
  split; [exact Hlong|]. apply Hshape. discriminate.
Defined.

(** ** Phone numbers in a message *)

Section PhoneExtraction.

Implicit Types (p : ascii -> bool) (r : Regex.t) (s text : string).

Lemma filter_chars_prefix p (n : nat) s :
  (String.length (filter_chars p (String.substring 0 n s))
   <= String.length (filter_chars p s))%nat.
Proof.
  revert n. induction s as [|c s IH]; intros [|n]; simpl; try lia.
  specialize (IH n). destruct (p c); simpl; lia.
Qed.

(** A match leaves no more of the input than it was given. *)
Lemma run_leaves p r :
  forall prev s (k : option ascii -> string -> option string) rest,
    (forall prev' s' rest', k prev' s' = Some rest' ->
       (String.length (filter_chars p rest')
        <= String.length (filter_chars p s'))%nat) ->
    Regex.run r prev s k = Some rest ->
    (String.length (filter_chars p rest) <= String.length (filter_chars p s))%nat.
Proof.
  induction r as [|q| |a IHa b IHb|a IHa b IHb|min max a IHa];
    intros prev s k rest Hk Hrun; simpl in Hrun.
  - eauto.
  - destruct s as [|c s]; [discriminate|].
    destruct (q c); [|discriminate].
    apply Hk in Hrun. simpl. destruct (p c); simpl; lia.
  - destruct (Regex.at_boundary prev s); [eauto|discriminate].
  - eapply IHa; [|exact Hrun]. intros prev' s' rest'. now apply IHb.
  - destruct (Regex.run a prev s k) eqn:Ha.
    + inversion Hrun; subst. eapply IHa; eauto.
    + eapply IHb; eauto.
  - revert min prev s rest Hrun.
    induction max as [|max IHmax]; intros min prev s rest Hrun.
    + destruct (min =? 0)%nat; [eauto|discriminate].
    + match type of Hrun with
      | match ?m with _ => _ end = _ => destruct m eqn:Ha
      end.
      * inversion Hrun; subst. eapply IHa; [|exact Ha].
        intros prev' s' rest'. apply IHmax.
      * destruct (min =? 0)%nat; [eauto|discriminate].
Qed.

Lemma match_all_within p r (fuel : nat) :
  forall prev s found,
    In found (Regex.match_all fuel r prev s) ->
    (String.length (filter_chars p found) <= String.length (filter_chars p s))%nat.
Proof.
  induction fuel as [|fuel IH]; intros prev s found Hin; simpl in Hin; [easy|].
  assert (Htail : forall c s', s = String c s' ->
            In found (Regex.match_all fuel r (Some c) s') ->
            (String.length (filter_chars p found)
             <= String.length (filter_chars p s))%nat).
  { intros c s' -> Hin'. apply IH in Hin'. simpl. destruct (p c); simpl; lia. }
  destruct (Regex.run r prev s (fun _ rest => Some rest)) as [rest|] eqn:Hrun.
  - destruct Hin as [<-|Hin]; [apply filter_chars_prefix|].
    assert (Hrest : (String.length (filter_chars p rest)
                     <= String.length (filter_chars p s))%nat).
    { eapply run_leaves; [|exact Hrun]. intros ? ? ? [= ->]. lia. }
    destruct (String.length s - String.length rest)%nat.
    + destruct s as [|c s']; [easy|]. now apply (Htail c s').
    + apply IH in Hin. lia.
  - destruct s as [|c s']; [easy|]. now apply (Htail c s').
Qed.

Lemma normalizePhoneNumber_length s :
  String.length (normalizePhoneNumber s)
  = String.length (filter_chars is_digit_or_plus s).
Proof.
  unfold normalizePhoneNumber. destruct s as [|c s]; [reflexivity|].
  cbn [truthy negb String.eqb]. now destruct (startsWith _ _).
Qed.

Lemma normalizePhoneNumber_chars s :
  all_chars is_digit_or_plus (normalizePhoneNumber s) = true.
Proof.
  unfold normalizePhoneNumber. destruct (negb (truthy s)); [reflexivity|].
  destruct (startsWith _ _); apply all_chars_filter.
Qed.

(** X27.  The phone numbers taken from a message are pairwise different, each
    has at least seven characters, and each consists of digits and plus
    signs only. *)
Theorem extractPhoneNumbers_wellformed text :
  NoDup (extractPhoneNumbers text)
  /\ forall phone, phone ∈ extractPhoneNumbers text ->
       (7 <= String.length phone)%nat
       /\ all_chars is_digit_or_plus phone = true.
Proof.
  unfold extractPhoneNumbers. destruct (negb (truthy text)).
  - split; [constructor|]. intros phone H. now apply not_elem_of_nil in H.
  - split; [apply Set_of_NoDup|].
    intros phone Hin. apply Set_of_spec in Hin as [Hin _].
    apply list_elem_of_In, filter_In in Hin as [Hin Hkeep].
    apply andb_true_iff in Hkeep as [_ Hlen]. apply Nat.leb_le in Hlen.
    split; [exact Hlen|].
    apply in_map_iff in Hin as (found & <- & _). apply normalizePhoneNumber_chars.
Qed.

(** What the patterns find in a text with fewer than seven digits and plus
    signs is too short to be kept. *)
Lemma short_text_keeps_nothing text :
  (String.length (filter_chars is_digit_or_plus text) < 7)%nat ->
  List.filter (fun normalized =>
                 truthy normalized && (7 <=? String.length normalized)%nat)
    (map normalizePhoneNumber
       (concat (map (fun pattern => Regex.matches pattern text) phonePatterns)))
  = [].
Proof.
  intros Hfew.
  match goal with
  | |- List.filter ?f ?l = [] =>
      destruct (List.filter f l) as [|phone rest] eqn:Hfilter; [reflexivity|];
      assert (Hin : In phone (List.filter f l)) by (rewrite Hfilter; now left)
  end.
  exfalso. apply filter_In in Hin as [Hin Hkeep].
  apply andb_true_iff in Hkeep as [_ Hlen]. apply Nat.leb_le in Hlen.
  apply in_map_iff in Hin as (found & <- & Hin).
  apply in_concat in Hin as (group & Hgroup & Hin).
  apply in_map_iff in Hgroup as (pattern & <- & _).
  apply (match_all_within is_digit_or_plus) in Hin.
  rewrite normalizePhoneNumber_length in Hlen. lia.
Qed.

(** X28.  A message with fewer than seven digits and plus signs in all holds
    no phone number, whatever the patterns match in it. *)
Theorem extractPhoneNumbers_needs_seven text :
  (String.length (normalizePhoneNumber text) < 7)%nat ->
  extractPhoneNumbers text = [].
Proof.
  intros Hfew. rewrite normalizePhoneNumber_length in Hfew.
  unfold extractPhoneNumbers. destruct (negb (truthy text)); [reflexivity|].
  cbv zeta. now rewrite short_text_keeps_nothing.
Qed.

End PhoneExtraction.

Lemma extractPhoneNumbers_needs_seven_witness :
  extractPhoneNumbers "order 12345 of 3 items" = [].
Proof.
  apply (extractPhoneNumbers_needs_seven "order 12345 of 3 items").
  vm_compute; lia.
Defined.

(** ** Phone numbers mentioned in a message *)

Section MentionedPhones.

Context {W : Type} {E : Env W}.

(** X29.  [processMessageForIdentification] never rejects: a failure of the
    store or of the merge comes back as a result with [merged] false and the
    error message.  A result without error carries the phone numbers of the
    message.  A message with fewer than seven digits and plus signs is
    answered [{ merged: false, phoneNumbers: [] }] without any query or
    change. *)
Theorem processMessageForIdentification_never_rejects
    (conversationId text : string) (w : W) :
  exists result w',
    processMessageForIdentification conversationId text w = (Ok result, w')
    /\ match ir_error result with
       | Some _ => ir_merged result = false /\ ir_phoneNumbers result = None
       | None => ir_phoneNumbers result = Some (extractPhoneNumbers text)
       end
    /\ ((String.length (normalizePhoneNumber text) < 7)%nat ->
        w' = w
        /\ result = {| ir_merged := false; ir_phoneNumbers := Some [];
                       ir_addedIdentifiers := None; ir_mergedCount := None;
                       ir_conversation := None; ir_error := None |}).
Proof.
  assert (Hnone : (String.length (normalizePhoneNumber text) < 7)%nat ->
                  extractPhoneNumbers text = []).
  { intros Hfew. rewrite normalizePhoneNumber_length in Hfew.
    unfold extractPhoneNumbers. destruct (negb (truthy text)); [reflexivity|].
    cbv zeta. now rewrite short_text_keeps_nothing. }
  unfold processMessageForIdentification, try_catch.
  destruct (length (extractPhoneNumbers text) =? 0)%nat eqn:Hlen.
  - apply Nat.eqb_eq in Hlen.
    destruct (extractPhoneNumbers text) eqn:Hnumbers; [|discriminate].
    eexists _, _. split; [reflexivity|]. split; [reflexivity|]. now intros _.
  - assert (Hsome : extractPhoneNumbers text <> []).
    { intros Hempty. rewrite Hempty in Hlen. discriminate. }
    match goal with
    | |- exists result w', match ?body w with _ => _ end = _ /\ _ =>
        destruct (body w) as [[result|error] w'] eqn:Hbody
    end.
    + exists result, w'. split; [reflexivity|].
      split; [|intros Hfew; now apply Hnone in Hfew].
      unfold JS.bind in Hbody.
      destruct (findConversationsByPhones _ _ w) as [[found|e] w1]; [|discriminate].
      destruct (length found =? 0)%nat.
      * destruct (Conversation_findById conversationId w1) as [[current|e] w2];
          [|discriminate].
        match type of Hbody with
        | match ?m with _ => _ end = _ => destruct m as [[[]|e] w3]; [|discriminate]
        end.
        now inversion Hbody.
      * destruct (mergeConversations _ _ w1) as [[merged|e] w2]; [|discriminate].
        now inversion Hbody.
    + eexists _, _. split; [reflexivity|]. split; [now split|].
      intros Hfew. now apply Hnone in Hfew.
Qed.

End MentionedPhones.

Section InMemoryMentions.

Import InMemory.

Context {R : Runtime}.

Variable cfg : Config.t.
Variable backend : Request -> exn Response.
Variable client : option (option (Request -> exn Response)).
Variable search : json -> json -> exn (list json).
Variable format : list json -> exn string.

Local Abbreviation E := (InMemory.env cfg backend client search format).

Lemma addPhoneIdentifiers_run (phoneNumbers : list string) :
  forall (c : Conversation) (w : World),
  exists c' w',
    addPhoneIdentifiers (E := E) phoneNumbers c w = (Ok c', w')
    /\ store w' = store w
    /\ conv_id c' = conv_id c
    /\ messages c' = messages c
    /\ userInfo c' = userInfo c
    /\ summary c' = summary c
    /\ (phoneNumbers <> [] \/ identifiers c <> [] -> identifiers c' <> [])
    /\ (forall t v id,
          stored t v (identifiers c) = Some id ->
          exists id', stored t v (identifiers c') = Some id'
                      /\ id_priority id <= id_priority id'
                      /\ (id_verified id = true -> id_verified id' = true))
    /\ (forall phone,
          phone ∈ phoneNumbers ->
          exists id, stored "phone" phone (identifiers c') = Some id
                     /\ 70 <= id_priority id).
Proof.
  induction phoneNumbers as [|phone rest IH]; intros c w.
  - exists c, w. repeat split; try reflexivity.
    + intros [H|H]; [contradiction|exact H].
    + intros t v id Hs. exists id. split; [exact Hs|]. split; [lia|auto].
    + intros phone H. now apply not_elem_of_nil in H.
  - cbn [addPhoneIdentifiers]. unfold JS.bind. simpl.
    set (c1 := addIdentifier (clock w) "phone" phone 70 false c).
    match goal with
    | |- context [addPhoneIdentifiers rest c1 ?w1] =>
        destruct (IH c1 w1) as (c' & w' & Hrun & Hstore & Hid & Hm & Hu & Hs & Hne
                                & Hmono & Hadded)
    end.
    pose proof (addIdentifier_fields (clock w) "phone" phone 70 false c)
      as (F1 & F2 & F3 & F4). fold c1 in F1, F2, F3, F4.
    exists c', w'. split; [exact Hrun|].
    split; [exact Hstore|]. split; [congruence|]. split; [congruence|].
    split; [congruence|]. split; [congruence|].
    assert (Hc1 : identifiers c1 = upsert (clock w) "phone" phone 70 false (identifiers c))
      by apply addIdentifier_upsert.
    split; [|split].
    + intros _. apply Hne. right. rewrite Hc1. apply upsert_nonempty.
    + intros t v id Hst.
      destruct (upsert_stored_mono (clock w) "phone" phone 70 false _ _ _ _ Hst)
        as (id1 & H1 & P1 & V1).
      rewrite <- Hc1 in H1. destruct (Hmono _ _ _ H1) as (id2 & H2 & P2 & V2).
      exists id2. split; [exact H2|]. split; [lia|auto].
    + intros p Hp. apply elem_of_cons in Hp as [->|Hp]; [|now apply Hadded].
      destruct (upsert_stored_new (clock w) "phone" phone 70 false (identifiers c))
        as (id1 & H1 & P1 & _).
      rewrite <- Hc1 in H1. destruct (Hmono _ _ _ H1) as (id2 & H2 & P2 & _).
      exists id2. split; [exact H2|lia].
Qed.

(** X30.  A phone number mentioned in a message that no other conversation
    holds is remembered: the current conversation is saved with every
    number of the message under a ['phone'] identifier of priority 70 or
    more, its messages and profile are untouched, every identifier it had is
    still there and no less trusted, and no other document changes. *)
Theorem mentioned_phone_is_stored (conversationId text : string)
    (c : Conversation) (w : World) :
  extractPhoneNumbers text <> [] ->
  findConversationsByPhones (E := E) (extractPhoneNumbers text)
    (Some conversationId) w = (Ok [], w) ->
  store w !! conversationId = Some c ->
  conv_id c = conversationId ->
  exists result w' c',
    processMessageForIdentification (E := E) conversationId text w = (Ok result, w')
    /\ ir_merged result = false
    /\ ir_addedIdentifiers result = Some true
    /\ ir_phoneNumbers result = Some (extractPhoneNumbers text)
    /\ store w' = <[conversationId := c']> (store w)
    /\ messages c' = messages c
    /\ userInfo c' = userInfo c
    /\ (forall phone,
          phone ∈ extractPhoneNumbers text ->
          exists id, stored "phone" phone (identifiers c') = Some id
                     /\ 70 <= id_priority id)
    /\ (forall t v id,
          stored t v (identifiers c) = Some id ->
          exists id', stored t v (identifiers c') = Some id'
                      /\ id_priority id <= id_priority id'
                      /\ (id_verified id = true -> id_verified id' = true)).
Proof.
  intros Hsome Hfind Hc Hid.
  destruct (addPhoneIdentifiers_run (extractPhoneNumbers text) c w)
    as (c' & w1 & Hrun & Hstore & Hid' & Hm & Hu & _ & Hne & Hmono & Hadded).
  exists {| ir_merged := false; ir_phoneNumbers := Some (extractPhoneNumbers text);
            ir_addedIdentifiers := Some true; ir_mergedCount := None;
            ir_conversation := None; ir_error := None |},
    (with_store (insert (conv_id c') c') w1), c'.
  split; [|repeat split; try assumption].
  - unfold processMessageForIdentification, try_catch.
    destruct (extractPhoneNumbers text) as [|phone rest] eqn:Hnumbers;
      [contradiction|].
    cbn [length Nat.eqb]. unfold JS.bind at 1. rewrite Hfind.
    cbn [length Nat.eqb]. unfold JS.bind. simpl Conversation_findById.
    unfold findById at 1. rewrite Hc. cbn beta iota.
    rewrite Hrun. simpl Conversation_save.
    rewrite save_ok by (apply Hne; now left). reflexivity.
  - simpl. rewrite Hstore, Hid', Hid. reflexivity.
Qed.

End InMemoryMentions.

Lemma processMessageForIdentification_never_rejects_witness :
  processMessageForIdentification (E := Ex.env) "p" "hello, room 12 please" Ex.world
  = (Ok {| ir_merged := false; ir_phoneNumbers := Some [];
           ir_addedIdentifiers := None; ir_mergedCount := None;
           ir_conversation := None; ir_error := None |},
     Ex.world).
Proof.
  destruct (processMessageForIdentification_never_rejects (E := Ex.env)
              "p" "hello, room 12 please" Ex.world)
    as (result & w' & Hrun & _ & Hfew).
  destruct Hfew as [-> ->]; [vm_compute; lia|]. exact Hrun.
Defined.

Lemma mentioned_phone_is_stored_witness :
  let text := "you can reach me on 02079460000" in
  exists result w' c',
    processMessageForIdentification (E := Ex.env) "p" text Ex.world = (Ok result, w')
    /\ ir_merged result = false
    /\ ir_addedIdentifiers result = Some true
    /\ ir_phoneNumbers result = Some (extractPhoneNumbers text)
    /\ InMemory.store w' = <["p" := c']> (InMemory.store Ex.world)
    /\ messages c' = messages Ex.primary
    /\ userInfo c' = userInfo Ex.primary
    /\ (forall phone,
          phone ∈ extractPhoneNumbers text ->
          exists id, stored "phone" phone (identifiers c') = Some id
                     /\ 70 <= id_priority id)
    /\ (forall t v id,
          stored t v (identifiers Ex.primary) = Some id ->
          exists id', stored t v (identifiers c') = Some id'
                      /\ id_priority id <= id_priority id'
                      /\ (id_verified id = true -> id_verified id' = true)).
Proof.
  apply (mentioned_phone_is_stored
           (Config.default "You are a helpful assistant." []) Ex.backend_down
           (Some (Some Ex.backend_down)) Ex.search_none Ex.format_none
           "p" "you can reach me on 02079460000" Ex.primary Ex.world).
  - vm_compute; discriminate.
  - vm_compute; reflexivity.
  - vm_compute; reflexivity.
  - reflexivity.
Defined.

(** ** The terminal reply of a messaging-channel turn, path by path *)

Section SequencedSteps.

Context {W : Type}.

Lemma bind_ok {A B} (m : M W A) (k : A -> M W B) (w w' : W) (a : A) :
  m w = (Ok a, w') -> JS.bind m k w = k a w'.
Proof. unfold JS.bind. now intros ->. Qed.

End SequencedSteps.

Section UnusableSenderAndDeadBackend.

Context {R : Runtime} {W : Type} {E : Env W}.

(** With a sender number it can use and a backend that rejects every
    request, the turn ends with the fixed apology. *)
Lemma processWhatsAppMessage_apologises (registry : @Registry W)
    (from message cleanPhoneNumber : string) :
  backend_always_fails ->
  formatPhoneToE164 from = Some cleanPhoneNumber ->
  cleanPhoneNumber <> "" ->
  resolves (fun reply => reply = error_reply)
    (processWhatsAppMessage registry from message).
Proof.
  intros Hfail Hphone Hne. unfold processWhatsAppMessage. rewrite Hphone.
  assert (Ht : negb (truthy cleanPhoneNumber) = false).
  { unfold truthy. rewrite negb_involutive. now apply String.eqb_neq. }
  rewrite Ht. apply resolves_try_catch.
  - do 4 (apply returns_bind_any; intros ?). cbv zeta.
    eapply returns_bind; [now apply processMessage_rejects|].
    intros openaiResponse [].
  - intros e. now apply resolves_ret.
Qed.

Lemma processWhatsAppMessage_unusable_sender (registry : @Registry W)
    (from message : string) (w : W) :
  formatPhoneToE164 from = None \/ formatPhoneToE164 from = Some "" ->
  processWhatsAppMessage registry from message w = (Ok sender_issue_reply, w).
Proof.
  intros [Hphone|Hphone]; unfold processWhatsAppMessage; rewrite Hphone;
    reflexivity.
Qed.

End UnusableSenderAndDeadBackend.

Section ValidatingTurn.

Import InMemory.

Context {R : Runtime}.

Variable cfg : Config.t.
Variable backend : Request -> exn Response.
Variable client : option (option (Request -> exn Response)).
Variable search : json -> json -> exn (list json).
Variable format : list json -> exn string.

Local Abbreviation E := (Validating.env cfg backend client search format).

Local Open Scope js_scope.

Lemma generateSummary_leaves_store (c : Conversation) (w : World) :
  exists o w',
    generateSummary (E := E) c w = (Ok o, w') /\ store w' = store w.
Proof.
  unfold generateSummary, try_catch, bind, ret. simpl.
  destruct (_ <? _); [now eauto|].
  destruct client as [[create|]|]; simpl; [|now eauto|now eauto].
  unfold lift.
  destruct (create _) as [response|e]; [|now eauto].
  destruct (extractSummaryText response) as [text|]; [|now eauto].
  destruct (last (messages c)) as [lastMessage|]; [|now eauto].
  destruct (msg_id lastMessage) as [lastId|]; [|now eauto].
  simpl. now eauto.
Qed.

(** A merge over the validating store: it rejects and leaves the documents
    as they were, or it stores a valid primary and deletes the candidates. *)
Lemma merge_outcome (pid : string) (P : Conversation) (cs : list Conversation)
    (w : World) :
  store w !! pid = Some P ->
  conv_id P = pid ->
  (exists e w',
      mergeConversations (E := E) pid cs w = (Throw e, w') /\ store w' = store w)
  \/ (exists r w',
        mergeConversations (E := E) pid cs w = (Ok r, w')
        /\ conv_id (mr_conversation r) = pid
        /\ Schema.valid (mr_conversation r) = true
        /\ store w' = store_after_merge (mr_conversation r) cs (store w)).
Proof.
  intros Hp Hid.
  unfold mergeConversations, try_catch, bind. simpl.
  unfold findById. rewrite Hp. rewrite merge_loop. simpl.
  fold (all_input_messages P cs). fold (merged_base (clock w) P cs).
  set (base := merged_base (clock w) P cs).
  assert (Hbase : conv_id base = pid) by exact Hid.
  destruct (Config.enabled _ && _).
  - unfold ret.
    match goal with
    | |- context [generateSummary ?c ?w1] =>
        destruct (generateSummary_leaves_store c w1) as (o & w2 & Hg & Hst)
    end.
    rewrite Hg. destruct o as [s|]; unfold Validating.save.
    + destruct (Schema.valid (set_summary (Some s) base)) eqn:Hv.
      * right. eexists _, _. split; [reflexivity|]. cbn [mr_conversation].
        split; [exact Hbase|]. split; [exact Hv|]. simpl. now rewrite Hst.
      * left. eexists _, _. split; [reflexivity|]. exact Hst.
    + destruct (Schema.valid base) eqn:Hv.
      * right. eexists _, _. split; [reflexivity|]. cbn [mr_conversation].
        split; [exact Hbase|]. split; [exact Hv|]. simpl. now rewrite Hst.
      * left. eexists _, _. split; [reflexivity|]. exact Hst.
  - unfold ret, Validating.save. destruct (Schema.valid base) eqn:Hv.
    + right. eexists _, _. split; [reflexivity|]. cbn [mr_conversation].
      split; [exact Hbase|]. split; [exact Hv|]. reflexivity.
    + left. eexists _, _. split; reflexivity.
Qed.

Lemma valid_world_after_merge (w w' : World) (pc : Conversation)
    (cs : list Conversation) :
  valid_world w ->
  Schema.valid pc = true ->
  conv_id pc ∉ map conv_id cs ->
  store w' = store_after_merge pc cs (store w) ->
  valid_world w' /\ store w' !! conv_id pc = Some pc.
Proof.
  intros Hw Hv Hnotin Hstore. unfold store_after_merge in Hstore. split.
  - intros k c Hk. rewrite Hstore in Hk.
    destruct (decide (k ∈ map conv_id cs)) as [Hin|Hout].
    + rewrite lookup_foldr_delete_in in Hk by exact Hin. discriminate Hk.
    + rewrite lookup_foldr_delete_notin in Hk by exact Hout.
      destruct (decide (k = conv_id pc)) as [->|Hne].
      * rewrite lookup_insert_eq in Hk. inversion Hk; subst c. now split.
      * rewrite lookup_insert_ne in Hk
          by (intros Heq; apply Hne; symmetry; exact Heq).
        now apply Hw.
  - rewrite Hstore, lookup_foldr_delete_notin by exact Hnotin.
    apply lookup_insert_eq.
Qed.

(** The automatic merge of a turn always yields a conversation with the id
    it started from, stored in a valid store, whether the merge ran, found
    nothing to merge, or failed. *)
Lemma autoMerge_keeps_conversation (cleanPhoneNumber : string)
    (conversation stored_now : Conversation) (w : World) :
  valid_world w ->
  store w !! conv_id conversation = Some stored_now ->
  exists merged w' stored_then,
    try_catch
      (let* existingConversations :=
         Conversation_find (Env := E)
           (autoMerge_query cleanPhoneNumber (conv_id conversation)) in
       if (0 <? length existingConversations)%nat then
         let* mergeResult :=
           mergeConversations (E := E) (conv_id conversation)
             existingConversations in
         ret (mr_conversation mergeResult)
       else ret conversation)
      (fun autoMergeError => ret conversation) w
    = (Ok merged, w')
    /\ conv_id merged = conv_id conversation
    /\ valid_world w'
    /\ store w' !! conv_id conversation = Some stored_then.
Proof.
  intros Hw Hstored. unfold try_catch, bind at 1. simpl. unfold find.
  set (existing := List.filter _ (documents w)).
  assert (Hothers : conv_id conversation ∉ map conv_id existing).
  { intros Hin. apply list_elem_of_fmap in Hin as (c & Heq & Hc).
    apply find_elem in Hc as [_ Hm]. simpl in Hm.
    apply andb_true_iff in Hm as [Hm _]. apply negb_true_iff in Hm.
    apply String.eqb_neq in Hm. congruence. }
  destruct (0 <? length existing)%nat.
  - destruct (Hw _ _ Hstored) as [Hid _].
    destruct (merge_outcome (conv_id conversation) stored_now existing w Hstored Hid)
      as [(e & w' & Hrun & Hst)|(r & w' & Hrun & Hrid & Hv & Hst)].
    + unfold bind. rewrite Hrun. unfold ret.
      exists conversation, w', stored_now. split; [reflexivity|].
      split; [reflexivity|]. split; [now apply (valid_world_same_store w)|].
      now rewrite Hst.
    + unfold bind. rewrite Hrun. unfold ret.
      rewrite <- Hrid in Hothers.
      destruct (valid_world_after_merge w w' (mr_conversation r) existing Hw Hv
                  Hothers Hst) as [Hw' Hl].
      exists (mr_conversation r), w', (mr_conversation r).
      split; [reflexivity|]. split; [exact Hrid|]. split; [exact Hw'|].
      now rewrite <- Hrid.
  - unfold ret. exists conversation, w, stored_now.
    split; [reflexivity|]. split; [reflexivity|]. split; [exact Hw|exact Hstored].
Qed.

Lemma getOrCreate_sender (cleanPhoneNumber : string) (w : World) :
  valid_world w ->
  cleanPhoneNumber <> "" ->
  exists c w1,
    getOrCreateConversationByIdentifier (E := E) "whatsapp_phone" cleanPhoneNumber w
    = (Ok c, w1)
    /\ valid_world w1
    /\ store w1 !! conv_id c = Some c.
Proof.
  intros Hw Hne.
  destruct (head (List.filter (Query_matches (QIdentifier "whatsapp_phone"
                                                cleanPhoneNumber)) (documents w)))
    as [c|] eqn:Hhead.
  - assert (Hfound : findOne (QIdentifier "whatsapp_phone" cleanPhoneNumber) w
                     = (Ok (Some c), w)) by (unfold findOne; now rewrite Hhead).
    destruct (getOrCreateConversationByIdentifier_found cfg backend client search
                format _ _ c w Hfound) as (Hrun & Hdoc & _).
    exists c, w. split; [exact Hrun|]. split; [exact Hw|].
    apply documents_elem in Hdoc as (k & Hk).
    destruct (Hw _ _ Hk) as [-> _]. exact Hk.
  - assert (Hnone : findOne (QIdentifier "whatsapp_phone" cleanPhoneNumber) w
                    = (Ok None, w)) by (unfold findOne; now rewrite Hhead).
    assert (Hvalid : Schema.one_of Schema.identifier_types "whatsapp_phone"
                     && truthy cleanPhoneNumber = true).
    { unfold truthy. cbn. apply negb_true_iff. now apply String.eqb_neq. }
    destruct (getOrCreateConversationByIdentifier_created cfg backend client search
                format _ _ w Hnone Hvalid) as (c & Hrun & _ & _ & Hv & _).
    eexists c, _. split; [exact Hrun|]. split.
    + now apply valid_world_insert.
    + cbn [store]. apply lookup_insert_eq.
Qed.

Lemma addMessage_on_valid (conversationId role content channel : string)
    (c : Conversation) (w : World) :
  valid_world w ->
  store w !! conversationId = Some c ->
  role = "user" \/ role = "assistant" ->
  channel = "whatsapp" \/ channel = "website" ->
  exists c' w',
    addMessage (E := E) conversationId role content channel w = (Ok tt, w')
    /\ valid_world w'
    /\ store w' !! conversationId = Some c'
    /\ last (messages c') = Some (pushed_message ("oid" +:+ pretty (fresh w))
                                    (clock w) role content channel).
Proof.
  intros Hw Hc Hrole Hchannel. destruct (Hw _ _ Hc) as [Hid Hv].
  rewrite (addMessage_run cfg backend client search format
             conversationId role content channel c w Hc).
  apply role_of_schema in Hrole. apply channel_of_schema in Hchannel.
  rewrite Hv, Hrole, Hchannel. cbn [andb].
  set (pushed := set_lastActivity _ _).
  assert (Hpv : Schema.valid pushed = true).
  { subst pushed. rewrite valid_after_push, Hv. unfold Schema.valid_message.
    cbn [msg_role msg_channel pushed_message]. now rewrite Hrole, Hchannel. }
  exists pushed, {| store := <[conv_id c := pushed]> (store w);
                    clock := clock w + 1; fresh := S (fresh w) |}.
  split; [reflexivity|]. split; [|split].
  - change (conv_id c) with (conv_id pushed). now apply valid_world_insert.
  - cbn [store]. rewrite Hid. apply lookup_insert_eq.
  - subst pushed. cbn [messages set_lastActivity set_lastUpdated set_messages].
    apply last_snoc.
Qed.

Lemma valid_world_alter (f : Conversation -> Conversation) (id : string) (w : World) :
  (forall c, conv_id (f c) = conv_id c /\ Schema.valid (f c) = Schema.valid c) ->
  valid_world w ->
  valid_world (with_store (alter f id) w).
Proof.
  intros Hf Hw k c Hk. cbn [store with_store] in Hk.
  destruct (decide (k = id)) as [->|Hne].
  - rewrite lookup_alter_eq in Hk. destruct (store w !! id) as [c0|] eqn:Hc0;
      [|discriminate Hk].
    inversion Hk; subst c. destruct (Hf c0) as [-> ->]. now apply Hw.
  - rewrite lookup_alter_ne in Hk by (intros Heq; apply Hne; symmetry; exact Heq).
    now apply Hw.
Qed.

(** A turn whose sender number is usable, in a valid store, with a backend
    that answers every request with [response], a reply without function
    call: every step succeeds and the reply is the model's text, or the
    fallback when that text is empty; the model's text is stored as the
    last message of the sender's conversation. *)
Lemma processWhatsAppMessage_answers (registry : Registry) (from message : string)
    (cleanPhoneNumber : string) (response : Response) (w : World) :
  valid_world w ->
  formatPhoneToE164 from = Some cleanPhoneNumber ->
  cleanPhoneNumber <> "" ->
  (forall req, backend req = Ok response) ->
  (forall output,
      resp_output response = Some output -> existsb is_function_call output = false) ->
  exists w',
    processWhatsAppMessage (E := E) registry from message w
    = (Ok (or_else (extractResponseText response) no_response_reply), w')
    /\ valid_world w'.
Proof.
  intros Hw Hphone Hne Hbackend Hnocalls.
  destruct (getOrCreate_sender cleanPhoneNumber w Hw Hne)
    as (c & w1 & Hcreate & Hw1 & Hc).
  destruct (addMessage_on_valid (conv_id c) "user" message "whatsapp" c w1 Hw1 Hc)
    as (c2 & w2 & Hadd & Hw2 & Hc2 & _); [now left|now left|].
  destruct (autoMerge_keeps_conversation cleanPhoneNumber c c2 w2 Hw2 Hc2)
    as (merged & w3 & c3 & Hmerge & Hmid & Hw3 & Hc3).
  assert (Hget : getConversationById (E := E) (conv_id merged) w3 = (Ok c3, w3)).
  { unfold getConversationById, bind. simpl. unfold findById.
    rewrite Hmid, Hc3. reflexivity. }
  destruct (Hw3 _ _ Hc3) as [Hid3 _].
  assert (Hprocess : forall history info previous tools,
             processMessage (E := E) message history info previous tools w3
             = (Ok response, w3)).
  { intros. unfold processMessage, try_catch. simpl. unfold lift.
    now rewrite Hbackend. }
  assert (Hcalls : match resp_output response with
                   | Some output => existsb is_function_call output
                   | None => false
                   end = false).
  { destruct (resp_output response) as [output|] eqn:Hout; [|reflexivity].
    now apply Hnocalls. }
  rewrite <- Hid3 in Hc3.
  destruct (addMessage_on_valid (conv_id c3) "assistant"
              (or_else (extractResponseText response) "") "whatsapp" c3 w3 Hw3 Hc3)
    as (c4 & w4 & Hadd2 & Hw4 & Hc4 & _); [now right|now left|].
  set (f := match resp_id response with
            | Some _ => set_previousResponseId (resp_id response)
            | None => fun conversation : Conversation => conversation
            end).
  assert (Hupdate : updateResponseId (E := E) (conv_id c3) (resp_id response) w4
                    = (Ok tt, with_store (alter f (conv_id c3)) w4))
    by reflexivity.
  exists (with_store (alter f (conv_id c3)) w4). split.
  - unfold processWhatsAppMessage. rewrite Hphone.
    assert (Ht : negb (truthy cleanPhoneNumber) = false).
    { unfold truthy. rewrite negb_involutive. now apply String.eqb_neq. }
    rewrite Ht. unfold try_catch at 1.
    rewrite (bind_ok _ _ _ _ _ Hcreate).
    rewrite (bind_ok _ _ _ _ _ Hadd).
    rewrite (bind_ok _ _ _ _ _ Hmerge).
    rewrite (bind_ok _ _ _ _ _ Hget). cbv zeta.
    rewrite (bind_ok _ _ _ _ _ (Hprocess _ _ _ _)).
    rewrite Hcalls.
    rewrite (bind_ok (ret response) _ _ _ _ eq_refl).
    rewrite (bind_ok _ _ _ _ _ Hadd2).
    rewrite (bind_ok _ _ _ _ _ Hupdate).
    reflexivity.
  - apply valid_world_alter; [|exact Hw4].
    intros c0. subst f. destruct (resp_id response); now split.
Qed.

End ValidatingTurn.

Section TerminalGuarantee.

Context {R : Runtime} {W : Type} {E : Env W}.

(** C4.  Whatever the collaborators do -- resolve or throw, in any world --
    [processWhatsAppMessage] resolves, never throws, and its reply is a
    non-empty string.  A sender number it cannot use is answered with the
    sender-information text, and nothing else happens.  With a usable
    sender number and a backend that rejects every request, the reply is
    the fixed apology.  Over the validating store, in a valid world, with a
    usable sender number and a backend that answers with a reply without
    function call, every step succeeds: the reply is the model's text, and
    the fallback 'I processed your request but have no specific response.'
    when that text is empty.  [processFunctionCalls] never throws either,
    and answers a rejected follow-up request with its own fixed apology. *)
Theorem processWhatsAppMessage_always_replies (registry : @Registry W)
    (from message : string) (w : W) :
  (exists reply w',
      processWhatsAppMessage registry from message w = (Ok reply, w')
      /\ reply <> ""
      /\ (formatPhoneToE164 from = None \/ formatPhoneToE164 from = Some "" ->
          reply = sender_issue_reply /\ w' = w)
      /\ (backend_always_fails ->
          forall cleanPhoneNumber,
            formatPhoneToE164 from = Some cleanPhoneNumber ->
            cleanPhoneNumber <> "" ->
            reply = error_reply))
  /\ (forall (cfg : Config.t) (backend : Request -> exn Response)
        (client : option (option (Request -> exn Response)))
        (search : json -> json -> exn (list json))
        (format : list json -> exn string)
        (tools : @Registry InMemory.World) (cleanPhoneNumber : string)
        (response : Response) (w0 : InMemory.World),
        valid_world w0 ->
        formatPhoneToE164 from = Some cleanPhoneNumber ->
        cleanPhoneNumber <> "" ->
        (forall req, backend req = Ok response) ->
        (forall output,
            resp_output response = Some output ->
            existsb is_function_call output = false) ->
        exists reply w1,
          processWhatsAppMessage
            (E := Validating.env cfg backend client search format)
            tools from message w0 = (Ok reply, w1)
          /\ (extractResponseText response = "" -> reply = no_response_reply)
          /\ (extractResponseText response <> "" ->
              reply = extractResponseText response)
          /\ valid_world w1)
  /\ (forall (response : Response) (toolExecutor : FunctionCall -> M W string)
        (w0 : W),
        exists final w1,
          processFunctionCalls response toolExecutor w0 = (Ok final, w1))
  /\ (backend_always_fails ->
      forall (response : Response) (toolExecutor : FunctionCall -> M W string)
        (item : OutputItem) (rest : list OutputItem) (w0 : W),
        resp_output response = Some (item :: rest) ->
        exists final w1,
          processFunctionCalls response toolExecutor w0 = (Ok final, w1)
          /\ extractResponseText final = error_fallback_text).
Proof.
  split; [|split; [|split]].
  - destruct (processWhatsAppMessage_terminal registry from message w)
      as (reply & w' & Hrun & Hterm).
    exists reply, w'. split; [exact Hrun|].
    split; [now apply terminal_reply_nonempty|]. split.
    + intros Hphone.
      rewrite (processWhatsAppMessage_unusable_sender registry from message w Hphone)
        in Hrun.
      inversion Hrun. now split.
    + intros Hfail cleanPhoneNumber Hphone Hne.
      destruct (processWhatsAppMessage_apologises registry from message
                  cleanPhoneNumber Hfail Hphone Hne w)
        as (reply' & w'' & Hrun' & Hfixed).
      rewrite Hrun in Hrun'. inversion Hrun'; subst. reflexivity.
  - intros cfg backend client search format tools cleanPhoneNumber response w0
      Hw Hphone Hne Hbackend Hnocalls.
    destruct (processWhatsAppMessage_answers cfg backend client search format
                tools from message cleanPhoneNumber response w0 Hw Hphone Hne
                Hbackend Hnocalls) as (w1 & Hrun & Hw1).
    eexists _, w1. split; [exact Hrun|]. split; [|split; [|exact Hw1]].
    + intros ->. reflexivity.
    + intros Htext. unfold or_else, truthy.
      destruct (String.eqb_spec (extractResponseText response) "");
        [contradiction|reflexivity].
  - intros response toolExecutor w0.
    destruct (processFunctionCalls_resolves response toolExecutor w0)
      as (final & w1 & Hrun & _).
    now eauto.
  - intros Hfail response toolExecutor item rest w0 Hout.
    exact (processFunctionCalls_backend_down response toolExecutor item rest
             Hfail Hout w0).
Qed.

End TerminalGuarantee.

Lemma processWhatsAppMessage_always_replies_witness :
  (exists w1,
      processWhatsAppMessage (R := Ex.runtime)
        (E := Scenario.answering Scenario.silent_reply) Ex.registry
        "whatsapp:+447911123456" "hello" Ex.world
      = (Ok "I processed your request but have no specific response.", w1)
      /\ valid_world w1)
  /\ (exists w1,
        processWhatsAppMessage (R := Ex.runtime)
          (E := Scenario.answering Scenario.done_reply) Ex.registry
          "whatsapp:+447911123456" "hello" Ex.world
        = (Ok "done", w1)
        /\ valid_world w1)
  /\ processWhatsAppMessage (R := Ex.runtime) (E := Ex.env) Ex.registry
       "whatsapp:" "hello" Ex.world
     = (Ok sender_issue_reply, Ex.world)
  /\ (exists w1,
        processWhatsAppMessage (R := Ex.runtime) (E := Ex.env) Ex.registry
          "whatsapp:+447911123456" "hello" Ex.world
        = (Ok error_reply, w1)).
Proof.
  split; [|split; [|split]].
  - destruct (processWhatsAppMessage_always_replies (R := Ex.runtime)
                (E := Ex.env) Ex.registry "whatsapp:+447911123456" "hello" Ex.world)
      as (_ & Hanswer & _).
    destruct (Hanswer (Config.default "You are a helpful assistant." [])
                (fun _ => Ok Scenario.silent_reply)
                (Some (Some (fun _ => Ok Scenario.silent_reply)))
                Ex.search_none Ex.format_none Ex.registry "+447911123456"
                Scenario.silent_reply Ex.world valid_world_example eq_refl)
      as (reply & w1 & Hrun & Hempty & _ & Hw1).
    + discriminate.
    + reflexivity.
    + intros output Hout. inversion Hout. reflexivity.
    + exists w1. rewrite (Hempty eq_refl) in Hrun. split; [exact Hrun|exact Hw1].
  - destruct (processWhatsAppMessage_always_replies (R := Ex.runtime)
                (E := Ex.env) Ex.registry "whatsapp:+447911123456" "hello" Ex.world)
      as (_ & Hanswer & _).
    destruct (Hanswer (Config.default "You are a helpful assistant." [])
                (fun _ => Ok Scenario.done_reply)
                (Some (Some (fun _ => Ok Scenario.done_reply)))
                Ex.search_none Ex.format_none Ex.registry "+447911123456"
                Scenario.done_reply Ex.world valid_world_example eq_refl)
      as (reply & w1 & Hrun & _ & Htext & Hw1).
    + discriminate.
    + reflexivity.
    + intros output Hout. inversion Hout. reflexivity.
    + exists w1. rewrite Htext in Hrun by discriminate.
      split; [exact Hrun|exact Hw1].
  - destruct (processWhatsAppMessage_always_replies (R := Ex.runtime)
                (E := Ex.env) Ex.registry "whatsapp:" "hello" Ex.world)
      as ((reply & w1 & Hrun & _ & Hsender & _) & _).
    destruct Hsender as [-> ->]; [right; reflexivity|exact Hrun].
  - destruct (processWhatsAppMessage_always_replies (R := Ex.runtime)
                (E := Ex.env) Ex.registry "whatsapp:+447911123456" "hello" Ex.world)
      as ((reply & w1 & Hrun & _ & _ & Hdown) & _).
    exists w1.
    rewrite <- (Hdown (fun req w => ex_intro _ _ (ex_intro _ _ eq_refl))
                  "+447911123456" eq_refl);
      [exact Hrun|discriminate].
Defined.
